(** * Muskits: the multi-modal dataset of [muskit/train/dataset.py]

    A shallow embedding of the loader adapters, of the loader registry and of
    [MuskitDataset] ([__init__], [names], [__iter__], [__getitem__]), followed
    by the properties of the record assembly: augmentation sampling, loader
    queries, length alignment, the cache short-circuit and the constructor
    checks.  Further parts cover the adapters and the registry on their own,
    what a constructed dataset looks like, what fetching leaves alone, the
    shape of a record, masking and cropping, and the subset checks of the
    corpus split script [egs/csd/svs1/local/dataset_split.py].

    Python objects are modelled by their values.  Mutable state (the random
    generator, the cache, the sampling rate remembered by an audio adapter)
    is threaded through a state-and-exception monad.  Libraries the module
    calls (numpy, [eval], the file readers of [muskit.fileio]) are gathered in
    one record of operations, [externals], over which everything is
    parametrised. *)

From Stdlib Require Import ZArith Floats Bool Ascii String.
From stdpp Require Import base option list list_numbers strings gmap.

Set Warnings "-inexact-float,-register-all".
Local Open Scope Z_scope.

(** ** Exceptions *)

(** One constructor per [raise] site of [dataset.py], then the exceptions the
    interpreter and the libraries raise. *)
Inductive exn : Type :=
  | EmptyPathNameTypeList                  (* ValueError, __init__ *)
  | DuplicatedDataKey (name : string)      (* RuntimeError, __init__ *)
  | NoSamples (path : string)              (* RuntimeError, __init__ *)
  | NotSupportedLoaderType (t : string)    (* RuntimeError, _build_loader *)
  | BadRandIntType (t : string)            (* RuntimeError, rand_int_loader *)
  | UnexpectedType                         (* RuntimeError, the adapters *)
  | RateMismatch                           (* RuntimeError, audio adapter *)
  | MustBeNdarray                          (* TypeError, __getitem__ step 1 *)
  | NotConverted (name : string)           (* RuntimeError, __getitem__ step 3 *)
  | NotSupportedDtype                      (* NotImplementedError, step 3 *)
  | AssertionError
  | ValueError
  | TypeError
  | KeyError
  | IndexError
  | OverflowError
  | UnboundLocalError
  | AttributeError
  | StopIteration
  | External (what : string).

Inductive result (A : Type) : Type :=
  | Ok (a : A)
  | Err (e : exn).
Arguments Ok {A} a.
Arguments Err {A} e.

Definition rbind {A B} (r : result A) (f : A → result B) : result B :=
  match r with Ok a => f a | Err e => Err e end.

Definition is_ok {A} (r : result A) : bool :=
  match r with Ok _ => true | Err _ => false end.

Fixpoint rmapM {A B} (f : A → result B) (l : list A) : result (list B) :=
  match l with
  | [] => Ok []
  | x :: l' => rbind (f x) (λ y, rbind (rmapM f l') (λ ys, Ok (y :: ys)))
  end.

(** ** Python floats: IEEE binary64 *)

(** [float(z)] for an integer [z]: the magnitude is rounded to the nearest
    binary64 value (ties to even) and carries the sign of [z].  Beyond the
    range of binary64 the result is an infinity, where Python raises
    [OverflowError]; the callers below raise it when they see one. *)
Definition float_of_pos (p : positive) : float :=
  abs (SF2Prim (binary_normalize prec emax (Zpos p) 0 false)).

Definition float_of_Z (z : Z) : float :=
  match z with
  | Z0 => PrimFloat.zero
  | Zpos p => float_of_pos p
  | Zneg p => opp (float_of_pos p)
  end.

(** [int(f)]: truncation toward zero; [ValueError] on NaN, [OverflowError]
    on an infinity. *)
Definition py_int (f : float) : result Z :=
  match Prim2SF f with
  | S754_zero _ => Ok 0
  | S754_finite s m e =>
      let a := if 0 <=? e then Z.shiftl (Zpos m) e else Z.shiftr (Zpos m) (- e) in
      Ok (if s then - a else a)
  | S754_infinity _ => Err OverflowError
  | S754_nan => Err ValueError
  end.

(** [z < f] for an integer [z] and a float [f], exact as in Python. *)
Definition Z_lt_float (z : Z) (f : float) : bool :=
  match Prim2SF f with
  | S754_zero _ => z <? 0
  | S754_finite s m e =>
      let v := if s then Zneg m else Zpos m in
      if 0 <=? e then z <? Z.shiftl v e else Z.shiftl z (- e) <? v
  | S754_infinity s => negb s
  | S754_nan => false
  end.

(** ** Values *)

Inductive scalar : Type :=
  | SInt (z : Z)
  | SFloat (f : float)
  | SStr (s : string).

(** The contents of an array: a scalar for a zero-dimensional array, else the
    list of its slices along the leading dimension. *)
Inductive tree : Type :=
  | Leaf (x : scalar)
  | Node (ts : list tree).

(** [dtype.kind]: ['f'], ['i'], and the other kinds numpy has: ['b'] bool,
    ['u'] unsigned, ['c'] complex, ['m'] timedelta, ['M'] datetime, ['O']
    object, ['S'] bytes, ['U'] str, ['V'] void. *)
Inductive dkind : Type :=
  | KindF | KindI | KindB | KindU | KindC | KindTimedelta | KindDatetime
  | KindO | KindS | KindStr | KindV.

Record ndarray : Type := mk_ndarray { nd_kind : dkind; nd_body : tree }.

Inductive pyval : Type :=
  | VInt (z : Z)
  | VFloat (f : float)
  | VStr (s : string)
  | VNone
  | VNd (a : ndarray)
  | VTensor (a : ndarray)
  | VTuple (vs : list pyval)
  | VList (vs : list pyval)
  | VNpScalar (k : dkind) (x : scalar).   (* a numpy scalar, as np.int64(3) *)

Fixpoint tree_map (f : scalar → scalar) (t : tree) : tree :=
  match t with
  | Leaf x => Leaf (f x)
  | Node ts => Node (map (tree_map f) ts)
  end.

Definition isinstance_int (v : pyval) : bool :=
  match v with VInt _ => true | _ => false end.
Definition isinstance_ndarray (v : pyval) : bool :=
  match v with VNd _ => true | _ => false end.
Definition isinstance_list (v : pyval) : bool :=
  match v with VList _ => true | _ => false end.
Definition isinstance_tuple (v : pyval) : bool :=
  match v with VTuple _ => true | _ => false end.
Definition isinstance_Tensor (v : pyval) : bool :=
  match v with VTensor _ => true | _ => false end.
Definition isinstance_str (v : pyval) : bool :=
  match v with VStr _ => true | _ => false end.
(** numpy registers its integer, unsigned, floating, complex and timedelta
    scalars as numbers. *)
Definition isinstance_Number (v : pyval) : bool :=
  match v with
  | VInt _ | VFloat _ => true
  | VNpScalar (KindI | KindU | KindF | KindC | KindTimedelta) _ => true
  | _ => false
  end.

(** A str is modelled by its UTF-8 encoding.  Its elements are its code
    points: in the encoding, a byte that is not a continuation byte
    ([10xxxxxx]) with the continuation bytes that follow it. *)
Definition is_cont (c : ascii) : bool :=
  let n := nat_of_ascii c in (128 <=? n)%nat && (n <? 192)%nat.

Definition starts_cont (l : list ascii) : bool :=
  match l with
  | c :: _ => is_cont c
  | [] => false
  end.

Fixpoint code_points (l : list ascii) : list (list ascii) :=
  match l with
  | [] => []
  | c :: l' =>
      match code_points l' with
      | cp :: cps =>
          if starts_cont l' then (c :: cp) :: cps else [c] :: cp :: cps
      | [] => [[c]]
      end
  end.

(** A code point in the encoding: a byte and continuation bytes. *)
Definition cp_ok (cp : list ascii) : Prop :=
  match cp with
  | [] => False
  | _ :: t => Forall (λ c, is_cont c = true) t
  end.

(** A code point that starts with a byte other than a continuation byte. *)
Definition cp_lead (cp : list ascii) : Prop :=
  match cp with
  | [] => False
  | c :: _ => is_cont c = false
  end.

(** The encoding of a str does not start in the middle of a code point. *)
Definition utf8_start (s : string) : bool :=
  negb (starts_cont (list_ascii_of_string s)).

(** [list(s)]: the one-character strs of a str. *)
Definition chars (s : string) : list string :=
  map string_of_list_ascii (code_points (list_ascii_of_string s)).

(** [len(s)] for a str *)
Definition str_len (s : string) : nat := length (chars s).

(** An element of a one-dimensional array: a numpy scalar, which is not an
    array.  An object array holds Python objects, and the scalars of a str
    array are strs. *)
Definition np_item (k : dkind) (x : scalar) : pyval :=
  match k, x with
  | KindO, SInt z => VInt z
  | KindO, SFloat f => VFloat f
  | (KindO | KindStr), SStr s => VStr s
  | _, _ => VNpScalar k x
  end.

(** A row of an array: an array of the same dtype when the array has two
    dimensions or more, else an element. *)
Definition np_row (k : dkind) (t : tree) : pyval :=
  match t with
  | Leaf x => np_item k x
  | Node _ => VNd (mk_ndarray k t)
  end.

(** The elements an iteration over [v] yields ([TypeError] when [v] is not
    iterable).  A tensor of one dimension yields tensors of none. *)
Definition py_iter (v : pyval) : result (list pyval) :=
  match v with
  | VStr s => Ok (map VStr (chars s))
  | VTuple vs | VList vs => Ok vs
  | VNd (mk_ndarray k (Node ts)) => Ok (map (np_row k) ts)
  | VTensor (mk_ndarray k (Node ts)) => Ok (map (λ t, VTensor (mk_ndarray k t)) ts)
  | _ => Err TypeError
  end.

(** [len(v)] *)
Definition py_len (v : pyval) : result Z :=
  match v with
  | VStr s => Ok (Z.of_nat (str_len s))
  | VTuple vs | VList vs => Ok (Z.of_nat (length vs))
  | VNd (mk_ndarray _ (Node ts)) | VTensor (mk_ndarray _ (Node ts)) =>
      Ok (Z.of_nat (length ts))
  | _ => Err TypeError
  end.

(** [a, b = v] and [a, b, c = v] *)
Definition unpack2 (v : pyval) : result (pyval * pyval) :=
  rbind (py_iter v) (λ vs,
    match vs with [a; b] => Ok (a, b) | _ => Err ValueError end).
Definition unpack3 (v : pyval) : result (pyval * pyval * pyval) :=
  rbind (py_iter v) (λ vs,
    match vs with [a; b; c] => Ok (a, b, c) | _ => Err ValueError end).

(** ** Slices *)

(** A slice bound [i] on a sequence of length [n]: negative bounds count from
    the end, and the result is clamped to [0..n]. *)
Definition slice_bound (n i : Z) : Z :=
  if i <? 0 then Z.max 0 (i + n) else Z.min i n.

(** [l[lo:hi]] *)
Definition py_slice {A} (lo hi : Z) (l : list A) : list A :=
  let n := Z.of_nat (length l) in
  let a := slice_bound n lo in
  let b := slice_bound n hi in
  take (Z.to_nat (b - a)) (drop (Z.to_nat a) l).

(** [l[lo:hi] = 0] on an array: the selected rows are overwritten. *)
Definition py_slice_fill {A} (zero : A → A) (lo hi : Z) (l : list A) : list A :=
  let n := Z.of_nat (length l) in
  let a := slice_bound n lo in
  let b := slice_bound n hi in
  take (Z.to_nat a) l
    ++ map zero (take (Z.to_nat (b - a)) (drop (Z.to_nat a) l))
    ++ drop (Z.to_nat a + Z.to_nat (b - a)) l.

Definition zero_like (x : scalar) : scalar :=
  match x with
  | SInt _ => SInt 0
  | SFloat _ => SFloat 0%float
  | SStr _ => SStr "0"
  end.

(** [v[lo:hi]] *)
Definition getslice (lo hi : Z) (v : pyval) : result pyval :=
  match v with
  | VStr s =>
      Ok (VStr (string_of_list_ascii
                  (List.concat
                     (py_slice lo hi (code_points (list_ascii_of_string s))))))
  | VTuple vs => Ok (VTuple (py_slice lo hi vs))
  | VList vs => Ok (VList (py_slice lo hi vs))
  | VNd (mk_ndarray k (Node ts)) => Ok (VNd (mk_ndarray k (Node (py_slice lo hi ts))))
  | VTensor (mk_ndarray k (Node ts)) =>
      Ok (VTensor (mk_ndarray k (Node (py_slice lo hi ts))))
  | VNd _ | VTensor _ | VNpScalar _ _ => Err IndexError
  | _ => Err TypeError
  end.

(** [v[lo:hi] = 0]: arrays and tensors only; tuples and strings are
    immutable and a list slice cannot be assigned a number. *)
Definition setslice_zero (lo hi : Z) (v : pyval) : result pyval :=
  match v with
  | VNd (mk_ndarray k (Node ts)) =>
      Ok (VNd (mk_ndarray k (Node (py_slice_fill (tree_map zero_like) lo hi ts))))
  | VTensor (mk_ndarray k (Node ts)) =>
      Ok (VTensor (mk_ndarray k (Node (py_slice_fill (tree_map zero_like) lo hi ts))))
  | VNd _ | VTensor _ => Err IndexError
  | _ => Err TypeError
  end.

(** [l[i]] with Python's negative indices *)
Definition py_index {A} (l : list A) (i : Z) : result A :=
  let n := Z.of_nat (length l) in
  let j := if i <? 0 then i + n else i in
  if (0 <=? j) && (j <? n) then
    match l !! Z.to_nat j with Some x => Ok x | None => Err IndexError end
  else Err IndexError.

(** [range(lo, hi)] *)
Definition py_range (lo hi : Z) : list Z := seqZ lo (hi - lo).

(** [min(l)] *)
Definition py_min (l : list Z) : result Z :=
  match l with
  | [] => Err ValueError
  | x :: l' => Ok (foldr Z.min x l')
  end.

(** ** Insertion-ordered dictionaries *)

Definition odict (V : Type) : Type := list (string * V).

Fixpoint od_get {V} (d : odict V) (k : string) : option V :=
  match d with
  | [] => None
  | (k', v) :: d' => if String.eqb k' k then Some v else od_get d' k
  end.

(** [d[k] = v]: an existing key keeps its position, a new key goes last. *)
Fixpoint od_set {V} (d : odict V) (k : string) (v : V) : odict V :=
  match d with
  | [] => [(k, v)]
  | (k', v') :: d' =>
      if String.eqb k' k then (k', v) :: d' else (k', v') :: od_set d' k v
  end.

Definition od_keys {V} (d : odict V) : list string := map fst d.
Definition od_values {V} (d : odict V) : list V := map snd d.
Definition od_mem {V} (d : odict V) (k : string) : bool :=
  match od_get d k with Some _ => true | None => false end.

(** [k in l] for a list of strings *)
Definition str_in (k : string) (l : list string) : bool :=
  existsb (String.eqb k) l.

(** [self.rate != rate] is decided on integers: the adapter only ever
    remembers a value that passed [isinstance(_, int)]. *)
Definition rate_eqb (a b : pyval) : bool :=
  match a, b with
  | VInt x, VInt y => x =? y
  | _, _ => false
  end.

(** [v[i]] for an integer [i]: [IndexError] on an array or a tensor without
    dimension and on a numpy scalar, [TypeError] on what cannot be
    indexed. *)
Definition py_getitem_int (v : pyval) (i : Z) : result pyval :=
  match v with
  | VNd (mk_ndarray _ (Leaf _)) | VTensor (mk_ndarray _ (Leaf _))
  | VNpScalar _ _ => Err IndexError
  | _ => rbind (py_iter v) (λ vs, py_index vs i)
  end.

(** ** Libraries *)

(** A loader below the adapters: a read-only mapping over an index file. *)
Record native : Type := mk_native {
  nat_keys : list string;
  nat_get : pyval → result pyval
}.

(** The [func] entries of [DATA_TYPES]. *)
Inductive loader_func : Type :=
  | sound_loader
  | midi_loader
  | label_loader
  | kaldi_loader
  | NpyScpReader
  | load_num_sequence_text (loader_type : string)
  | read_2column_text
  | H5FileWrapper
  | FloatRandomGenerateDataset
  | rand_int_loader.

(** What the module imports and this development does not define: numpy's
    dtype conversion, [np.array], [np.mean] and [np.float32]; the builtins
    [eval] and [float] on a string; [humanfriendly.parse_size]; the readers
    behind each [func] of the registry (given the path and the type tag, the
    mapping they read or the exception they raise); the size [SizedDict]
    charges for a record; the builtin [int] on a str; the class
    [IntRandomGenerateDataset] (given the path and the two bounds); which
    code points beyond ASCII the interpreter's Unicode database holds for
    decimal digits. *)
Record externals : Type := mk_externals {
  np_dtype_kind : string → option dkind;
  np_cast : string → scalar → scalar;
  np_array : list pyval → result ndarray;
  np_mean : pyval → result float;
  np_float32 : pyval → result float;
  py_eval : string → result pyval;
  py_float : string → result float;
  parse_size : string → result Z;
  open_native : loader_func → string → string → result native;
  get_size : odict pyval → Z;
  py_int_of_str : string → result Z;
  IntRandomGenerateDataset : string → Z → Z → result native;
  unicode_decimal : string → bool
}.

(** [a.astype(d)] *)
Definition astype (E : externals) (d : string) (a : ndarray) : result ndarray :=
  match np_dtype_kind E d with
  | Some k => Ok (mk_ndarray k (tree_map (np_cast E d) (nd_body a)))
  | None => Err TypeError
  end.

Definition py_astype (E : externals) (d : string) (v : pyval) : result pyval :=
  match v with
  | VNd a => rbind (astype E d a) (λ a', Ok (VNd a'))
  | _ => Err AttributeError
  end.

(** [np.array([x])] for a number [x]: [int64] for a Python integer that
    fits, an object array for one that does not; the dtype of [x] for a
    numpy scalar. *)
Definition np_array1 (x : pyval) : ndarray :=
  match x with
  | VInt z =>
      if (- 2 ^ 63 <=? z) && (z <? 2 ^ 63)
      then mk_ndarray KindI (Node [Leaf (SInt z)])
      else mk_ndarray KindO (Node [Leaf (SInt z)])
  | VFloat f => mk_ndarray KindF (Node [Leaf (SFloat f)])
  | VStr s => mk_ndarray KindStr (Node [Leaf (SStr s)])
  | VNpScalar k x => mk_ndarray k (Node [Leaf x])
  | _ => mk_ndarray KindO (Node [])
  end.

(** ** The adapters *)

Definition cast_if (E : externals) (dtype : option string) (array : pyval)
  : result pyval :=
  match dtype with
  | Some d => py_astype E d array
  | None => Ok array
  end.

Definition assert_array_or_list (array : pyval) : result pyval :=
  if isinstance_ndarray array || isinstance_list array then Ok array
  else Err AssertionError.

(** [AdapterForSoundScpReader.__getitem__]; [rate] is [self.rate] on entry,
    the second component of the result is [self.rate] on exit. *)
Definition AdapterForSoundScpReader_getitem (E : externals) (loader : native)
    (dtype : option string) (rate : option pyval) (key : pyval)
  : result pyval * option pyval :=
  match rbind (unpack3 key) (λ '(key, pitch_aug_factor, time_aug_factor),
          nat_get loader (VTuple [key; pitch_aug_factor; time_aug_factor])) with
  | Err e => (Err e, rate)
  | Ok retval =>
      if isinstance_tuple retval then
        match retval with
        | VTuple [r0; r1] =>
            match
              (if isinstance_int r0 && isinstance_ndarray r1 then
                 (* sound scp case: rate, array = retval *)
                 Ok (r0, r1)
               else if isinstance_int r0 && isinstance_ndarray r1 then
                 (* extended ark format case: array, rate = retval *)
                 Ok (r1, r0)
               else Err UnexpectedType)
            with
            | Err e => (Err e, rate)
            | Ok (new_rate, array) =>
                match rate with
                | Some old =>
                    if negb (rate_eqb old new_rate) then (Err RateMismatch, rate)
                    else (rbind (cast_if E dtype array) assert_array_or_list,
                          Some new_rate)
                | None =>
                    (rbind (cast_if E dtype array) assert_array_or_list,
                     Some new_rate)
                end
            end
        | _ => (Err AssertionError, rate)
        end
      else if isinstance_list retval then
        (* label: [ [start, end, phone] * n ] *)
        (assert_array_or_list retval, rate)
      else if isinstance_ndarray retval then
        (* normal ark case *)
        (rbind (cast_if E dtype retval) assert_array_or_list, rate)
      else (Err AssertionError, rate)
  end.

(** [AdapterForMIDIScpReader.__getitem__] *)
Definition AdapterForMIDIScpReader_getitem (loader : native) (key : pyval)
  : result pyval :=
  rbind (unpack3 key) (λ '(key, pitch_aug_factor, time_aug_factor),
  rbind (nat_get loader (VTuple [key; pitch_aug_factor; time_aug_factor])) (λ retval,
  rbind (py_len retval) (λ n,
  if negb (n =? 2) then Err AssertionError else
  rbind (py_getitem_int retval 0) (λ r0,
  rbind (py_getitem_int retval 1) (λ r1,
  if isinstance_ndarray r0 && isinstance_ndarray r1 then
    rbind (unpack2 retval) (λ '(note_array, tempo_array),
    Ok (VTuple [note_array; tempo_array]))
  else Err UnexpectedType))))).

(** [AdapterForLabelScpReader.__getitem__]: the interval array of shape
    [(n, 2)] and the list of phone symbols. *)
Definition AdapterForLabelScpReader_getitem (E : externals) (loader : native)
    (key : pyval) : result pyval :=
  rbind (nat_get loader key) (λ retval,
  match retval with
  | VList items =>
      rbind (rmapM (λ item,
               rbind (py_getitem_int item 0) (λ x0,
               rbind (np_float32 E x0) (λ t0,
               rbind (py_getitem_int item 1) (λ x1,
               rbind (np_float32 E x1) (λ t1,
               rbind (py_getitem_int item 2) (λ phone,
               Ok (Node [Leaf (SFloat t0); Leaf (SFloat t1)], phone)))))))
             items) (λ rows,
      Ok (VTuple [VNd (mk_ndarray KindF (Node (map fst rows)));
                  VList (map snd rows)]))
  | _ => Err AssertionError
  end).

(** A value of [self.loader_dict]. *)
Inductive loader : Type :=
  | AdapterForSoundScpReader (l : native) (dtype : option string)
      (rate : option pyval)
  | AdapterForMIDIScpReader (l : native)
  | AdapterForLabelScpReader (l : native)
  | PlainLoader (l : native).

Definition loader_native (l : loader) : native :=
  match l with
  | AdapterForSoundScpReader n _ _ | AdapterForMIDIScpReader n
  | AdapterForLabelScpReader n | PlainLoader n => n
  end.

(** [list(loader)] and [len(loader)] *)
Definition loader_keys (l : loader) : list string := nat_keys (loader_native l).
Definition loader_len (l : loader) : Z := Z.of_nat (length (loader_keys l)).

(** [loader[key]], with the loader as the call leaves it. *)
Definition loader_getitem (E : externals) (l : loader) (key : pyval)
  : result pyval * loader :=
  match l with
  | AdapterForSoundScpReader n dtype rate =>
      let '(r, rate') := AdapterForSoundScpReader_getitem E n dtype rate key in
      (r, AdapterForSoundScpReader n dtype rate')
  | AdapterForMIDIScpReader n => (AdapterForMIDIScpReader_getitem n key, l)
  | AdapterForLabelScpReader n => (AdapterForLabelScpReader_getitem E n key, l)
  | PlainLoader n => (nat_get n key, l)
  end.

(** ** The loader registry *)

(** The patterns of the registry are literal characters and [\d+]. *)
Inductive re_tok : Type := Lit (c : ascii) | Digits.

Fixpoint re_compile (pat : list ascii) : list re_tok :=
  match pat with
  | "\"%char :: "d"%char :: "+"%char :: rest => Digits :: re_compile rest
  | c :: rest => Lit c :: re_compile rest
  | [] => []
  end.

Definition ascii_digit (c : ascii) : bool :=
  let n := nat_of_ascii c in (48 <=? n)%nat && (n <=? 57)%nat.

(** What [\d] matches in a str pattern: a decimal digit, one code point.
    In ASCII these are [0] to [9]. *)
Definition is_digit (E : externals) (cp : list ascii) : bool :=
  match cp with
  | [c] => ascii_digit c
  | _ => unicode_decimal E (string_of_list_ascii cp)
  end.

(** The continuation bytes [s] starts with, and what follows them. *)
Fixpoint conts_of (s : list ascii) : list ascii :=
  match s with
  | c :: s' => if is_cont c then c :: conts_of s' else []
  | [] => []
  end.

Fixpoint after_conts (s : list ascii) : list ascii :=
  match s with
  | c :: s' => if is_cont c then after_conts s' else s
  | [] => []
  end.

(** A literal of the keys is an ASCII character, one byte of the encoding;
    [\d] takes one code point. *)
Fixpoint match_toks (E : externals) (fuel : nat) (toks : list re_tok)
    (s : list ascii) : bool :=
  match fuel with
  | O => false
  | S fuel =>
      match toks, s with
      | [], _ => true
      | Lit c :: toks', c' :: s' =>
          Ascii.eqb c c' && match_toks E fuel toks' s'
      | Digits :: toks', c' :: s' =>
          is_digit E (c' :: conts_of s')
          && (match_toks E fuel toks' (after_conts s')
              || match_toks E fuel (Digits :: toks') (after_conts s'))
      | _ :: _, [] => false
      end
  end.

(** [re.match(key, loader_type)]: the pattern is matched at the start of the
    tag and need not consume all of it. *)
Definition re_match (E : externals) (key loader_type : string) : bool :=
  let s := list_ascii_of_string loader_type in
  match_toks E (S (length s)) (re_compile (list_ascii_of_string key)) s.

Definition DATA_TYPES : list (string * loader_func) :=
  [ ("sound", sound_loader);
    ("midi", midi_loader);
    ("duration", label_loader);
    ("kaldi_ark", kaldi_loader);
    ("npy", NpyScpReader);
    ("text_int", load_num_sequence_text "text_int");
    ("csv_int", load_num_sequence_text "csv_int");
    ("text_float", load_num_sequence_text "text_float");
    ("csv_float", load_num_sequence_text "csv_float");
    ("text", read_2column_text);
    ("hdf5", H5FileWrapper);
    ("rand_float", FloatRandomGenerateDataset);
    ("rand_int_\d+_\d+", rand_int_loader) ].

(** [s.split(sep)] for a separator of one ASCII character *)
Fixpoint split_on (sep : ascii) (l : list ascii) : list (list ascii) :=
  match l with
  | [] => [[]]
  | c :: l' =>
      if Ascii.eqb c sep then [] :: split_on sep l'
      else match split_on sep l' with
           | part :: parts => (c :: part) :: parts
           | [] => [[c]]
           end
  end.

Definition py_split (sep : ascii) (s : string) : list string :=
  map string_of_list_ascii (split_on sep (list_ascii_of_string s)).

(** [s[n:]] *)
Definition str_from (n : nat) (s : string) : string :=
  string_of_list_ascii
    (List.concat (drop n (code_points (list_ascii_of_string s)))).

(** [low, high = map(int, parts)]: the parts are parsed one at a time as the
    unpacking asks for them; a third part is asked for, and parsed, before
    too many values are reported. *)
Definition unpack_ints (E : externals) (parts : list string) : result (Z * Z) :=
  match parts with
  | [] => Err ValueError
  | a :: rest =>
      rbind (py_int_of_str E a) (λ low,
      match rest with
      | [] => Err ValueError
      | b :: rest' =>
          rbind (py_int_of_str E b) (λ high,
          match rest' with
          | [] => Ok (low, high)
          | c :: _ => rbind (py_int_of_str E c) (λ _, Err ValueError)
          end)
      end)
  end.

(** The function [rand_int_loader]: the two bounds are read off the type
    tag, e.g. [rand_int_3_10]. *)
Definition rand_int_loader_call (E : externals) (filepath loader_type : string)
  : result native :=
  match unpack_ints E (py_split "_" (str_from 9 loader_type)) with
  | Ok (low, high) => IntRandomGenerateDataset E filepath low high
  | Err ValueError => Err (BadRandIntType loader_type)
  | Err e => Err e
  end.

(** [func(path, **kwargs)]: the reader is opened and, for the audio, MIDI and
    label types, wrapped in its adapter.  [sound_loader] hands the dataset's
    [float_dtype] to the adapter; [kaldi_loader] leaves the adapter's dtype
    at [None]; [rand_int_loader] reads its bounds off the type tag before it
    opens anything. *)
Definition call_func (E : externals) (float_dtype : string) (func : loader_func)
    (path loader_type : string) : result loader :=
  rbind (match func with
         | rand_int_loader => rand_int_loader_call E path loader_type
         | _ => open_native E func path loader_type
         end) (λ n,
  Ok (match func with
      | sound_loader => AdapterForSoundScpReader n (Some float_dtype) None
      | kaldi_loader => AdapterForSoundScpReader n None None
      | midi_loader => AdapterForMIDIScpReader n
      | label_loader => AdapterForLabelScpReader n
      | _ => PlainLoader n
      end)).

(** [MuskitDataset._build_loader] *)
Fixpoint build_loader_from (E : externals) (float_dtype : string)
    (types : list (string * loader_func)) (path loader_type : string)
  : result loader :=
  match types with
  | [] => Err (NotSupportedLoaderType loader_type)
  | (key, func) :: types' =>
      if re_match E key loader_type
      then call_func E float_dtype func path loader_type
      else build_loader_from E float_dtype types' path loader_type
  end.

Definition _build_loader (E : externals) (float_dtype : string)
    (path loader_type : string) : result loader :=
  build_loader_from E float_dtype DATA_TYPES path loader_type.

(** ** The dataset object *)

(** Modelled from the spec: [SizedDict] ([muskit/utils/sized_dict.py] is not
    among the sources).  The cache maps an utterance id to its record and
    keeps the cumulative size of what it holds; replacing an entry first
    takes the size of the old one off. *)
Record SizedDict : Type := mk_SizedDict {
  sd_data : gmap string (odict pyval);
  sd_size : Z
}.

Definition sd_empty : SizedDict := mk_SizedDict ∅ 0.

Definition sd_setitem (E : externals) (c : SizedDict) (key : string)
    (value : odict pyval) : SizedDict :=
  let old := match sd_data c !! key with
             | Some v => get_size E v
             | None => 0
             end in
  mk_SizedDict (<[key := value]> (sd_data c)) (sd_size c - old + get_size E value).

(** The injected preprocessing function: [(uid, data, time_aug_factor)] to
    the new [data]. *)
Definition preprocess_fn : Type :=
  string → odict pyval → pyval → result (odict pyval).

(** The attributes [__init__] sets. *)
Record MuskitDataset : Type := mk_MuskitDataset {
  preprocess : option preprocess_fn;
  float_dtype : string;
  int_dtype : string;
  max_cache_fd : Z;
  loader_dict : odict loader;
  debug_info : odict (string * string);
  max_cache_size : pyval;
  cache : option SizedDict;
  not_align : list string;
  mode : string;
  pitch_aug_min : Z;
  pitch_aug_max : Z;
  pitch_mean : string;
  time_aug_min : float;
  time_aug_max : float;
  random_crop : bool;
  mask_aug : bool
}.

Definition with_loader_dict (ds : MuskitDataset) (ld : odict loader)
  : MuskitDataset :=
  mk_MuskitDataset (preprocess ds) (float_dtype ds) (int_dtype ds)
    (max_cache_fd ds) ld (debug_info ds) (max_cache_size ds) (cache ds)
    (not_align ds) (mode ds) (pitch_aug_min ds) (pitch_aug_max ds)
    (pitch_mean ds) (time_aug_min ds) (time_aug_max ds) (random_crop ds)
    (mask_aug ds).

Definition with_cache (ds : MuskitDataset) (c : option SizedDict)
  : MuskitDataset :=
  mk_MuskitDataset (preprocess ds) (float_dtype ds) (int_dtype ds)
    (max_cache_fd ds) (loader_dict ds) (debug_info ds) (max_cache_size ds) c
    (not_align ds) (mode ds) (pitch_aug_min ds) (pitch_aug_max ds)
    (pitch_mean ds) (time_aug_min ds) (time_aug_max ds) (random_crop ds)
    (mask_aug ds).

(** [z < m] for the cache budget [m], an int or a float. *)
Definition Z_lt_num (z : Z) (m : pyval) : bool :=
  match m with
  | VInt k => z <? k
  | VFloat f => Z_lt_float z f
  | _ => false
  end.

(** ** Construction *)

(** [max_cache_size: Union[float, int, str]] *)
Inductive size_arg : Type :=
  | SizeInt (z : Z)
  | SizeFloat (f : float)
  | SizeStr (s : string).

Record init_args : Type := mk_init_args {
  a_path_name_type_list : list (string * string * string);
  a_preprocess : option preprocess_fn;
  a_float_dtype : string;
  a_int_dtype : string;
  a_max_cache_size : size_arg;
  a_max_cache_fd : Z;
  a_not_align : list string;
  a_mode : string;
  a_pitch_aug_min : Z;
  a_pitch_aug_max : Z;
  a_pitch_mean : string;
  a_time_aug_min : float;
  a_time_aug_max : float;
  a_random_crop : bool;
  a_mask_aug : bool
}.

(** The name of a declaration [(path, name, type)]. *)
Definition decl_name (x : string * string * string) : string := snd (fst x).

(** The loop of [__init__] over [path_name_type_list]. *)
Fixpoint init_loaders (E : externals) (float_dtype : string)
    (l : list (string * string * string))
    (loader_dict : odict loader) (debug_info : odict (string * string))
  : result (odict loader * odict (string * string)) :=
  match l with
  | [] => Ok (loader_dict, debug_info)
  | (path, name, _type) :: rest =>
      if od_mem loader_dict name then Err (DuplicatedDataKey name)
      else
        rbind (_build_loader E float_dtype path _type) (λ loader,
        let loader_dict := od_set loader_dict name loader in
        let debug_info := od_set debug_info name (path, _type) in
        if loader_len loader =? 0 then Err (NoSamples path)
        else init_loaders E float_dtype rest loader_dict debug_info)
  end.

Definition parse_max_cache_size (E : externals) (m : size_arg) : result pyval :=
  match m with
  | SizeStr s => rbind (parse_size E s) (λ z, Ok (VInt z))
  | SizeInt z => Ok (VInt z)
  | SizeFloat f => Ok (VFloat f)
  end.

(** The four assertions that close [__init__]. *)
Definition init_asserts (a : init_args) : result unit :=
  if negb (a_pitch_aug_min a <=? a_pitch_aug_max a) then Err AssertionError
  else if negb (PrimFloat.leb (a_time_aug_min a) (a_time_aug_max a))
  then Err AssertionError
  else if negb (String.eqb (a_pitch_mean a) "None") then
    if negb (a_pitch_aug_min a =? 0) then Err AssertionError
    else if negb (a_pitch_aug_max a =? 0) then Err AssertionError
    else Ok tt
  else Ok tt.

(** [MuskitDataset.__init__] *)
Definition __init__ (E : externals) (a : init_args) : result MuskitDataset :=
  if (length (a_path_name_type_list a) =? 0)%nat then Err EmptyPathNameTypeList
  else
    rbind (init_loaders E (a_float_dtype a) (a_path_name_type_list a) [] [])
      (λ '(loader_dict, debug_info),
    rbind (parse_max_cache_size E (a_max_cache_size a)) (λ max_cache_size,
    let cache := if Z_lt_num 0 max_cache_size then Some sd_empty else None in
    rbind (init_asserts a) (λ _,
    Ok (mk_MuskitDataset (a_preprocess a) (a_float_dtype a) (a_int_dtype a)
          (a_max_cache_fd a) loader_dict debug_info max_cache_size cache
          (a_not_align a) (a_mode a) (a_pitch_aug_min a) (a_pitch_aug_max a)
          (a_pitch_mean a) (a_time_aug_min a) (a_time_aug_max a)
          (a_random_crop a) (a_mask_aug a))))).

(** [has_name], [names], [__iter__] *)
Definition has_name (ds : MuskitDataset) (name : string) : bool :=
  od_mem (loader_dict ds) name.

Definition names (ds : MuskitDataset) : list string := od_keys (loader_dict ds).

Definition __iter__ (ds : MuskitDataset) : result (list string) :=
  match od_values (loader_dict ds) with
  | [] => Err StopIteration
  | d :: _ => Ok (loader_keys d)
  end.

(** The special methods a class statement of the module defines, and the
    method-resolution order of [MuskitDataset]; [Dataset] is
    [torch.utils.data.Dataset], which defines [__getitem__] and [__add__]
    and, on purpose, no [__len__]. *)
Inductive class : Type := C_MuskitDataset | C_AbsDataset | C_Dataset.

Definition class_methods (c : class) : list string :=
  match c with
  | C_MuskitDataset =>
      ["__init__"; "_build_loader"; "has_name"; "names"; "__iter__";
       "__repr__"; "__getitem__"]
  | C_AbsDataset => ["has_name"; "names"; "__getitem__"]
  | C_Dataset => ["__getitem__"; "__add__"]
  end.

Definition mro : list class := [C_MuskitDataset; C_AbsDataset; C_Dataset].

Definition find_method (name : string) : option class :=
  find (λ c, str_in name (class_methods c)) mro.

(** [len(dataset)]: the interpreter looks [__len__] up along the
    method-resolution order and raises [TypeError] when no class has it. *)
Definition dataset_len (ds : MuskitDataset) : result Z :=
  match find_method "__len__" with
  | Some _ => Err (External "__len__") (* no class statement has this body *)
  | None => Err TypeError
  end.

(** ** State *)

(** The random generator: a stream of draws and the number consumed. *)
Record rng : Type := mk_rng { draws : nat → Z; pos : nat }.

(** What a call of [__getitem__] does to its collaborators: a query
    [loader_dict[name][key]], a call of the preprocessing function. *)
Inductive event : Type :=
  | EvQuery (name : string) (key : pyval)
  | EvPreprocess (uid : string) (time_aug_factor : pyval).

Record world : Type := mk_world {
  w_self : MuskitDataset;
  w_rng : rng;
  w_log : list event
}.

Definition M (A : Type) : Type := world → result A * world.

Definition ret {A} (a : A) : M A := λ w, (Ok a, w).
Definition raise {A} (e : exn) : M A := λ w, (Err e, w).
Definition lift {A} (r : result A) : M A := λ w, (r, w).
Definition bind {A B} (m : M A) (f : A → M B) : M B := λ w,
  match m w with
  | (Ok a, w') => f a w'
  | (Err e, w') => (Err e, w')
  end.

Notation "'let*' x ':=' m 'in' k" := (bind m (λ x, k))
  (at level 10, x pattern, m at level 100, k at level 200).

Definition get_self : M MuskitDataset := λ w, (Ok (w_self w), w).

Definition log (ev : event) : M unit := λ w,
  (Ok tt, mk_world (w_self w) (w_rng w) (w_log w ++ [ev])).

Definition draw : M Z := λ w,
  let g := w_rng w in
  (Ok (draws g (pos g)), mk_world (w_self w) (mk_rng (draws g) (S (pos g))) (w_log w)).

(** [random.randint(a, b)]: an integer of [a..b], [ValueError] when the
    range is empty. *)
Definition randint (a b : Z) : M Z :=
  if a <=? b then
    let* x := draw in ret (a + x mod (b - a + 1))
  else raise ValueError.

(** [random.sample(lst, 1)[0]] *)
Definition sample1 {A} (lst : list A) : M A :=
  match lst with
  | [] => raise ValueError
  | _ => let* x := draw in lift (py_index lst (x mod Z.of_nat (length lst)))
  end.

Section Getitem.

Context (E : externals).

(** [self.loader_dict[name][key]] *)
Definition query (name : string) (key : pyval) : M pyval := λ w,
  match od_get (loader_dict (w_self w)) name with
  | None => (Err KeyError, w)
  | Some l =>
      let '(r, l') := loader_getitem E l key in
      (r, mk_world
            (with_loader_dict (w_self w) (od_set (loader_dict (w_self w)) name l'))
            (w_rng w) (w_log w ++ [EvQuery name key]))
  end.

(** ** Augmentation parameters *)

Definition speaker_lst : list string := ["oniku"; "ofuton"; "kiritan"; "natsume"].

(** [s in uid] *)
Fixpoint is_substring (s uid : string) : bool :=
  String.prefix s uid
  || match uid with
     | EmptyString => false
     | String _ rest => is_substring s rest
     end.

(** The loop over [speaker_lst]: [(_find_num, _find_index)]. *)
Definition find_speaker (uid : string) : Z * Z :=
  fold_left
    (λ '(_find_num, _find_index) '(index, speaker),
       if is_substring speaker uid then (_find_num + 1, index)
       else (_find_num, _find_index))
    (zip (py_range 0 (Z.of_nat (length speaker_lst))) speaker_lst)
    (0, 0).

(** [global_pitch_mean - sample_pitch_mean] *)
Definition sub_float (g : pyval) (m : float) : result float :=
  match g with
  | VFloat f => Ok (f - m)%float
  | VInt z =>
      if PrimFloat.is_infinity (float_of_Z z) then Err OverflowError
      else Ok (float_of_Z z - m)%float
  | _ => Err TypeError
  end.

(** The list the pitch factor is drawn from, given the gap to the target. *)
Definition gap_list (gap : Z) : list Z :=
  if gap =? 0 then [0]
  else if gap <? 0 then py_range gap 1
  else py_range 0 (gap + 1).

(** The gap of an utterance to the configured pitch-mean target, from its
    MIDI notes at pitch factor 0 and time factor 1. *)
Definition pitch_gap (uid : string) : M Z :=
  let* ds := get_self in
  let* value := query "midi" (VTuple [VStr uid; VInt 0; VInt 1]) in
  let* (note_seq, tempo_seq) := lift (unpack2 value) in
  let* sample_pitch_mean := lift (np_mean E note_seq) in
  let* target := lift (py_eval E (pitch_mean ds)) in
  let* global_pitch_mean :=
    match target with
    | VFloat _ =>
        (* single dataset w/o spk-id *)
        let* f := lift (py_float E (pitch_mean ds)) in ret (VFloat f)
    | VList means =>
        (* multi datasets with spk-ids *)
        let '(_find_num, _find_index) := find_speaker uid in
        if _find_num =? 1 then lift (py_index means _find_index)
        else raise AssertionError
    | _ =>
        (* the ValueError is built, not raised: the name stays unbound *)
        raise UnboundLocalError
    end in
  let* diff := lift (sub_float global_pitch_mean sample_pitch_mean) in
  lift (py_int diff).

Definition sample_pitch_aug (uid : string) : M Z :=
  let* ds := get_self in
  if negb (String.eqb (pitch_mean ds) "None") then
    let* gap := pitch_gap uid in
    sample1 (gap_list gap)
  else randint (pitch_aug_min ds) (pitch_aug_max ds).

(** [_time_list]: the factors from [time_aug_min] to [time_aug_max] in steps
    of 0.01. *)
Definition time_list (ds : MuskitDataset) : result (list float) :=
  rbind (py_int (time_aug_min ds * float_of_Z 100)%float) (λ lo,
  rbind (py_int (time_aug_max ds * float_of_Z 100 + float_of_Z 1)%float) (λ hi,
  Ok (map (λ i, (float_of_Z i / float_of_Z 100)%float) (py_range lo hi)))).

(** The two factors of a record: sampled in training mode, [(0, 1)] in any
    other mode. *)
Definition sample_aug (uid : string) : M (Z * pyval) :=
  let* ds := get_self in
  if String.eqb (mode ds) "train" then
    let* pitch_aug_factor := sample_pitch_aug uid in
    let* _time_list := lift (time_list ds) in
    let* time_aug_factor := sample1 _time_list in
    ret (pitch_aug_factor, VFloat time_aug_factor)
  else ret (0, VInt 1).

(** ** Step 1: one value per loader *)

Definition query_key (name uid : string) (pitch_aug_factor : Z) : pyval :=
  if String.eqb name "midi" || String.eqb name "singing"
  then VTuple [VStr uid; VInt pitch_aug_factor; VInt 1]
  else VStr uid.

Definition load_value (uid : string) (pitch_aug_factor : Z) (name : string)
  : M pyval :=
  let* value := query name (query_key name uid pitch_aug_factor) in
  let* value :=
    match value with
    | VList vs => let* a := lift (np_array E vs) in ret (VNd a)
    | _ => ret value
    end in
  if negb (isinstance_ndarray value || isinstance_Tensor value
           || isinstance_str value || isinstance_Number value
           || isinstance_tuple value)
  then raise MustBeNdarray
  else
    ret (match value with
         | VTensor a => VNd a                     (* value.numpy() *)
         | VInt _ | VFloat _ | VNpScalar _ _ =>
             VNd (np_array1 value)                (* np.array([value]) *)
         | _ => value
         end).

Fixpoint load_data (uid : string) (pitch_aug_factor : Z) (names : list string)
    (data : odict pyval) : M (odict pyval) :=
  match names with
  | [] => ret data
  | name :: rest =>
      let* value := load_value uid pitch_aug_factor name in
      load_data uid pitch_aug_factor rest (od_set data name value)
  end.

(** ** Step 2: preprocessing *)

Definition apply_preprocess (uid : string) (data : odict pyval)
    (time_aug_factor : pyval) : M (odict pyval) :=
  let* ds := get_self in
  match preprocess ds with
  | Some f =>
      let* _ := log (EvPreprocess uid time_aug_factor) in
      lift (f uid data time_aug_factor)
  | None => ret data
  end.

(** Sampling, loading and preprocessing: the record before alignment. *)
Definition assemble (uid : string) : M (Z * pyval * odict pyval) :=
  let* (pitch_aug_factor, time_aug_factor) := sample_aug uid in
  let* ds := get_self in
  let* data := load_data uid pitch_aug_factor (od_keys (loader_dict ds)) [] in
  let* data := apply_preprocess uid data time_aug_factor in
  ret (pitch_aug_factor, time_aug_factor, data).

(** ** Alignment, masking and cropping *)

(** [[len(data[key]) for key in data.keys() if key not in self.not_align]] *)
Definition aligned_lengths (not_align : list string) (data : odict pyval)
  : result (list Z) :=
  rmapM (λ kv, py_len (snd kv))
        (List.filter (λ kv, negb (str_in (fst kv) not_align)) data).

(** The body of the loop over [data.items()] for a key that is not exempt:
    truncation to [length], zeroing of the mask span, slicing to the crop
    window. *)
Definition align_value (length : Z) (mask crop : option (Z * Z)) (v : pyval)
  : result pyval :=
  rbind (getslice 0 length v) (λ v,
  rbind (match mask with
         | Some (mask_index_begin, mask_index_end) =>
             setslice_zero mask_index_begin mask_index_end v
         | None => Ok v
         end) (λ v,
  match crop with
  | Some (crop_index_begin, crop_index_end) =>
      getslice crop_index_begin crop_index_end v
  | None => Ok v
  end)).

Definition align_entry (not_align : list string) (length : Z)
    (mask crop : option (Z * Z)) (kv : string * pyval)
  : result (string * pyval) :=
  if str_in (fst kv) not_align then Ok kv
  else rbind (align_value length mask crop (snd kv)) (λ v, Ok (fst kv, v)).

(** The mask span, when training with [mask_aug]. *)
Definition choose_mask (length : Z) : M (option (Z * Z)) :=
  let* ds := get_self in
  if String.eqb (mode ds) "train" && mask_aug ds then
    let* bound := lift (py_int (float_of_Z length * 0.2)%float) in
    let* mask_length := randint 0 bound in
    if 0 <? length - mask_length then
      let* mask_index_begin := randint 0 (length - mask_length) in
      ret (Some (mask_index_begin, mask_index_begin + mask_length))
    else ret (Some (0, length))
  else ret None.

(** The crop window, when training with [random_crop]. *)
Definition choose_crop (length : Z) : M (option (Z * Z)) :=
  let* ds := get_self in
  if String.eqb (mode ds) "train" && random_crop ds then
    let* bound := lift (py_int (float_of_Z length * 0.8)%float) in
    let* crop_length := randint bound length in
    let* crop_index_begin := randint 0 (length - crop_length) in
    ret (Some (crop_index_begin, crop_index_begin + crop_length))
  else ret None.

Definition align (data : odict pyval) : M (odict pyval) :=
  let* ds := get_self in
  let* lens := lift (aligned_lengths (not_align ds) data) in
  let* length := lift (py_min lens) in
  let* mask := choose_mask length in
  let* crop := choose_crop length in
  lift (rmapM (align_entry (not_align ds) length mask crop) data).

(** ** Step 3: precision *)

Definition force_value (ds : MuskitDataset) (kv : string * pyval)
  : result (string * pyval) :=
  let '(name, value) := kv in
  if negb (isinstance_ndarray value || isinstance_tuple value)
  then Err (NotConverted name)
  else
    match value with
    | VNd a =>
        match nd_kind a with
        | KindF => rbind (astype E (float_dtype ds) a) (λ a', Ok (name, VNd a'))
        | KindI => rbind (astype E (int_dtype ds) a) (λ a', Ok (name, VNd a'))
        | _ => Err NotSupportedDtype
        end
    | _ => Ok (name, value)
    end.

Definition force_precision (ds : MuskitDataset) (data : odict pyval)
  : result (odict pyval) :=
  rmapM (force_value ds) data.

(** ** The cache *)

Definition cache_lookup (ds : MuskitDataset) (uid : string)
  : option (odict pyval) :=
  match cache ds with
  | Some c => sd_data c !! uid
  | None => None
  end.

(** [if self.cache is not None and self.cache.size < self.max_cache_size:
    self.cache[uid] = data] *)
Definition cache_store (uid : string) (data : odict pyval) : M unit := λ w,
  let ds := w_self w in
  match cache ds with
  | Some c =>
      if Z_lt_num (sd_size c) (max_cache_size ds)
      then (Ok tt, mk_world (with_cache ds (Some (sd_setitem E c uid data)))
                            (w_rng w) (w_log w))
      else (Ok tt, w)
  | None => (Ok tt, w)
  end.

(** ** [MuskitDataset.__getitem__] *)

(** [uid: Union[str, int]] *)
Inductive uid_arg : Type := UidStr (s : string) | UidInt (i : Z).

(** Change integer-id to string-id. *)
Definition resolve_uid (uid : uid_arg) : M string :=
  match uid with
  | UidStr s => ret s
  | UidInt i =>
      let* ds := get_self in
      match od_values (loader_dict ds) with
      | [] => raise StopIteration
      | d :: _ => lift (py_index (loader_keys d) i)
      end
  end.

(** [data["pitch_aug"] = np.array([pitch_aug_factor])] and
    [data["time_aug"] = np.array([time_aug_factor])] *)
Definition attach_aug (data : odict pyval) (pitch_aug_factor : Z)
    (time_aug_factor : pyval) : odict pyval :=
  od_set (od_set data "pitch_aug" (VNd (np_array1 (VInt pitch_aug_factor))))
         "time_aug" (VNd (np_array1 time_aug_factor)).

(** The record of [uid] when the cache does not hold it. *)
Definition build_record (uid : string) : M (odict pyval) :=
  let* (pitch_aug_factor, time_aug_factor, data) := assemble uid in
  let* data := align data in
  let data := attach_aug data pitch_aug_factor time_aug_factor in
  let* ds := get_self in
  let* data := lift (force_precision ds data) in
  let* _ := cache_store uid data in
  ret data.

Definition __getitem__ (uid : uid_arg) : M (string * odict pyval) :=
  let* uid := resolve_uid uid in
  let* ds := get_self in
  match cache_lookup ds uid with
  | Some data => ret (uid, data)
  | None =>
      let* data := build_record uid in
      ret (uid, data)
  end.

End Getitem.

(** The configuration of a dataset: its attributes apart from the loaders
    and the cache. *)
Definition frozen (ds : MuskitDataset) : MuskitDataset :=
  with_cache (with_loader_dict ds []) None.

(** The state a freshly constructed dataset starts from. *)
Definition new_world (ds : MuskitDataset) (g : rng) : world := mk_world ds g [].

(** The worlds a dataset goes through: the one after construction, then the
    one each call of [__getitem__] leaves, whether it returned or raised.
    The random generator may be in any state when a call starts. *)
Inductive reachable (E : externals) (a : init_args) : world → Prop :=
  | reach_init ds g :
      __init__ E a = Ok ds → reachable E a (new_world ds g)
  | reach_step w uid g :
      reachable E a w →
      reachable E a (snd (__getitem__ E uid (mk_world (w_self w) g (w_log w)))).

(** ** Notions the properties are stated with *)

(** Not a negative finite number. *)
Definition sf_nonneg (x : spec_float) : Prop :=
  match x with
  | S754_finite true _ _ => False
  | _ => True
  end.

(** The number of elements [l[lo:hi]] selects from a sequence of [n]. *)
Definition slice_len (n lo hi : Z) : Z :=
  Z.max 0 (slice_bound n hi - slice_bound n lo).

(** The common length after alignment: what the crop window selects when
    there is one, else the minimum. *)
Definition final_length (length : Z) (crop : option (Z * Z)) : Z :=
  match crop with
  | Some (crop_index_begin, crop_index_end) =>
      slice_len length crop_index_begin crop_index_end
  | None => length
  end.

(** A computation leaves the world in relation [R] with the one it started
    from, whether it returns or raises. *)
Definition pres (R : world → world → Prop) {A} (m : M A) : Prop :=
  ∀ w, R w (snd (m w)).

(** Everything of the dataset but the state inside its loaders is as before,
    and the loaders are still filed under the same names. *)
Definition stable (w w' : world) : Prop :=
  with_loader_dict (w_self w') [] = with_loader_dict (w_self w) []
  ∧ od_keys (loader_dict (w_self w')) = od_keys (loader_dict (w_self w)).

(** Only the random generator moved. *)
Definition quiet (w w' : world) : Prop :=
  w_self w' = w_self w ∧ w_log w' = w_log w.

(** One code point in UTF-8: a byte below 128 alone, or a lead byte from
    192 on with its continuation bytes. *)
Definition utf8_cp (cp : list ascii) : Prop :=
  match cp with
  | [] => False
  | [c] => (nat_of_ascii c < 128)%nat
  | c :: t => (192 ≤ nat_of_ascii c)%nat ∧ Forall (λ x, is_cont x = true) t
  end.

(** A decimal digit as [\d] has it. *)
Definition decimal_digit (E : externals) (cp : list ascii) : Prop :=
  utf8_cp cp ∧ is_digit E cp = true.

(** The readers behind the loaders, by modality name. *)
Definition readers (ds : MuskitDataset) : list (string * native) :=
  map (λ kv, (fst kv, loader_native (snd kv))) (loader_dict ds).

(** The dataset still reads the same files under the same names. *)
Definition same_readers (w w' : world) : Prop :=
  readers (w_self w') = readers (w_self w).

(** The world with another state of the random generator. *)
Definition set_rng (w : world) (g : rng) : world :=
  mk_world (w_self w) g (w_log w).

(** Started from [w], a computation does not look at the random generator:
    with another generator it gives the same result and the same world,
    that generator put back. *)
Definition rng_free_at {A} (m : M A) (w : world) : Prop :=
  ∀ g, m (set_rng w g) = (fst (m w), set_rng (snd (m w)) g).

(** ** The corpus split of [egs/csd/svs1/local/dataset_split.py] *)

Definition UTT_PREFIX : string := "csd".
Definition DEV_LIST : list string := ["046"].
Definition TEST_LIST : list string := ["047"; "048"; "049"; "050"].

Definition dev_check (song : string) : bool :=
  existsb (λ dev, is_substring dev song) DEV_LIST.

Definition test_check (song : string) : bool :=
  existsb (λ test, is_substring test song) TEST_LIST.

Definition train_check (song : string) : bool :=
  negb (test_check song) && negb (dev_check song).

(** [s * n] for a string [s]: empty when [n] is not positive. *)
Fixpoint str_repeat (s : string) (n : nat) : string :=
  match n with
  | O => ""
  | S n => s +:+ str_repeat s n
  end.

Definition str_mul (s : string) (n : Z) : string := str_repeat s (Z.to_nat n).

Definition pack_zero (string : String.string) (size : Z) : String.string :=
  let len := Z.of_nat (str_len string) in
  if len <? size then str_mul "0" (size - len) +:+ string else string.

(** ** A small corpus *)

(** Two utterances, [u1] and [u2], with a waveform, MIDI notes, phone labels
    and frame features each; used to run the definitions. *)
Module Corpus.

Definition ivec (zs : list Z) : ndarray :=
  mk_ndarray KindI (Node (map (λ z, Leaf (SInt z)) zs)).
Definition fvec (fs : list float) : ndarray :=
  mk_ndarray KindF (Node (map (λ f, Leaf (SFloat f)) fs)).

Definition wave (uid : string) : option ndarray :=
  if String.eqb uid "u1" then Some (fvec [0.5; 0.25; -0.5; 0.125; 0; 0.75; -0.25]%float)
  else if String.eqb uid "u2" then Some (fvec [0.5; -0.5; 0.25]%float)
  else None.

Definition notes (uid : string) : option (list Z) :=
  if String.eqb uid "u1" then Some [60; 62; 64; 62; 60]
  else if String.eqb uid "u2" then Some [57; 57; 59; 60]
  else None.

Definition labels (uid : string) : option (list pyval) :=
  if String.eqb uid "u1" then
    Some [VList [VFloat 0; VFloat 0.5; VStr "k"];
          VList [VFloat 0.5; VFloat 1; VStr "a"];
          VList [VFloat 1; VFloat 1.5; VStr "sil"]]
  else if String.eqb uid "u2" then
    Some [VList [VFloat 0; VFloat 0.25; VStr "o"]]
  else None.

Definition feats (uid : string) : option ndarray :=
  if String.eqb uid "u1" then Some (ivec [1; 2; 3; 4; 5; 6])
  else if String.eqb uid "u2" then Some (ivec [7; 8; 9])
  else None.

Definition or_KeyError {A} (o : option A) : result A :=
  match o with Some a => Ok a | None => Err KeyError end.

(** [SoundScpReader]: [(rate, waveform)] for a key [(uid, pitch, time)]. *)
Definition sound_scp : native :=
  mk_native ["u1"; "u2"] (λ key,
    match key with
    | VTuple [VStr uid; VInt _; _] =>
        rbind (or_KeyError (wave uid)) (λ a, Ok (VTuple [VInt 16000; VNd a]))
    | _ => Err KeyError
    end).

(** An archive in the extended format: [(waveform, rate)]. *)
Definition ark_scp : native :=
  mk_native ["u1"; "u2"] (λ key,
    match key with
    | VTuple [VStr uid; VInt _; _] =>
        rbind (or_KeyError (wave uid)) (λ a, Ok (VTuple [VNd a; VInt 16000]))
    | _ => Err KeyError
    end).

(** [MIDIScpReader]: the notes shifted by the pitch factor, and a tempo
    track. *)
Definition midi_scp : native :=
  mk_native ["u1"; "u2"] (λ key,
    match key with
    | VTuple [VStr uid; VInt p; _] =>
        rbind (or_KeyError (notes uid)) (λ ns,
        Ok (VTuple [VNd (ivec (map (Z.add p) ns));
                    VNd (ivec (map (λ _, 120) ns))]))
    | _ => Err KeyError
    end).

Definition label_dict : native :=
  mk_native ["u1"; "u2"] (λ key,
    match key with
    | VStr uid => rbind (or_KeyError (labels uid)) (λ l, Ok (VList l))
    | _ => Err KeyError
    end).

Definition npy_scp : native :=
  mk_native ["u1"; "u2"] (λ key,
    match key with
    | VStr uid => rbind (or_KeyError (feats uid)) (λ a, Ok (VNd a))
    | _ => Err KeyError
    end).

Definition empty_scp : native := mk_native [] (λ _, Err KeyError).

Definition open (func : loader_func) (path loader_type : string)
  : result native :=
  match func with
  | sound_loader =>
      if String.eqb path "wav.scp" then Ok sound_scp
      else Err (External "FileNotFoundError")
  | kaldi_loader =>
      if String.eqb path "feats.ark.scp" then Ok ark_scp
      else Err (External "FileNotFoundError")
  | midi_loader =>
      if String.eqb path "midi.scp" then Ok midi_scp
      else Err (External "FileNotFoundError")
  | label_loader =>
      if String.eqb path "label" then Ok label_dict
      else Err (External "FileNotFoundError")
  | NpyScpReader =>
      if String.eqb path "feats.scp" then Ok npy_scp
      else if String.eqb path "empty.scp" then Ok empty_scp
      else Err (External "FileNotFoundError")
  | _ => Err (External "FileNotFoundError")
  end.

Definition dtype_kind (d : string) : option dkind :=
  if String.prefix "float" d then Some KindF
  else if String.prefix "int" d || String.eqb d "long" then Some KindI
  else None.

(** Conversion to a float dtype turns integers into floats; everything else
    is kept. *)
Definition cast (d : string) (x : scalar) : scalar :=
  match dtype_kind d, x with
  | Some KindF, SInt z => SFloat (float_of_Z z)
  | _, _ => x
  end.

Definition leaf_float (t : tree) : float :=
  match t with
  | Leaf (SInt z) => float_of_Z z
  | Leaf (SFloat f) => f
  | _ => nan
  end.

(** The mean of a one-dimensional array. *)
Definition mean (v : pyval) : result float :=
  match v with
  | VNd (mk_ndarray _ (Node ts)) =>
      Ok (fold_left (λ acc t, acc + leaf_float t) ts 0 /
          float_of_Z (Z.of_nat (length ts)))%float
  | _ => Err TypeError
  end.

Definition float32 (v : pyval) : result float :=
  match v with
  | VFloat f => Ok f
  | VInt z => Ok (float_of_Z z)
  | _ => Err ValueError
  end.

Definition eval (s : string) : result pyval :=
  if String.eqb s "63.0" then Ok (VFloat 63)
  else if String.eqb s "58.5" then Ok (VFloat 58.5)
  else if String.eqb s "60" then Ok (VInt 60)
  else Err (External "SyntaxError").

Definition to_float (s : string) : result float :=
  if String.eqb s "63.0" then Ok 63%float
  else if String.eqb s "58.5" then Ok 58.5%float
  else if String.eqb s "60" then Ok 60%float
  else Err ValueError.

(** [int] on a str of ASCII characters: blanks around are dropped, a sign
    may come first, and the digits may be separated by single underscores. *)
Definition is_blank (c : ascii) : bool :=
  let n := nat_of_ascii c in ((9 <=? n)%nat && (n <=? 13)%nat) || (n =? 32)%nat.

Fixpoint drop_blanks (l : list ascii) : list ascii :=
  match l with
  | c :: l' => if is_blank c then drop_blanks l' else l
  | [] => []
  end.

Fixpoint digits_value (acc : Z) (after_digit : bool) (l : list ascii)
  : option Z :=
  match l with
  | [] => if after_digit then Some acc else None
  | c :: l' =>
      if ascii_digit c
      then digits_value (10 * acc + (Z.of_nat (nat_of_ascii c) - 48)) true l'
      else if Ascii.eqb c "_" && after_digit then digits_value acc false l'
      else None
  end.

Definition split_sign (l : list ascii) : bool * list ascii :=
  match l with
  | "-"%char :: l' => (true, l')
  | "+"%char :: l' => (false, l')
  | _ => (false, l)
  end.

Definition to_int (s : string) : result Z :=
  let l := rev (drop_blanks (rev (drop_blanks (list_ascii_of_string s)))) in
  let '(neg, body) := split_sign l in
  match digits_value 0 false body with
  | Some z => Ok (if neg then - z else z)
  | None => Err ValueError
  end.

(** [IntRandomGenerateDataset]: the shapes are read from [shape.scp]; every
    array drawn is taken to be the lower bound repeated. *)
Definition rand_int_scp (path : string) (low high : Z) : result native :=
  if String.eqb path "shape.scp" then
    Ok (mk_native ["u1"; "u2"] (λ key,
          match key with
          | VStr _ => Ok (VNd (ivec [low; low; low]))
          | _ => Err KeyError
          end))
  else Err (External "FileNotFoundError").

Definition env : externals :=
  mk_externals dtype_kind cast
    (λ vs, Ok (mk_ndarray KindStr (Node (map (λ _, Leaf (SStr "")) vs))))
    mean float32 eval to_float
    (λ _, Err (External "InvalidSize"))
    open
    (λ data, 64 * Z.of_nat (length data))
    to_int rand_int_scp (λ _, false).

(** The constructor's defaults, over a given list of modalities. *)
Definition defaults (l : list (string * string * string)) : init_args :=
  mk_init_args l None "float32" "long" (SizeFloat 0) 0 ["text"] "valid"
    0 0 "None" 1 1 false false.

Definition with_mode (a : init_args) (m : string) : init_args :=
  mk_init_args (a_path_name_type_list a) (a_preprocess a) (a_float_dtype a)
    (a_int_dtype a) (a_max_cache_size a) (a_max_cache_fd a) (a_not_align a) m
    (a_pitch_aug_min a) (a_pitch_aug_max a) (a_pitch_mean a)
    (a_time_aug_min a) (a_time_aug_max a) (a_random_crop a) (a_mask_aug a).

Definition with_pitch (a : init_args) (lo hi : Z) (mean : string) : init_args :=
  mk_init_args (a_path_name_type_list a) (a_preprocess a) (a_float_dtype a)
    (a_int_dtype a) (a_max_cache_size a) (a_max_cache_fd a) (a_not_align a)
    (a_mode a) lo hi mean
    (a_time_aug_min a) (a_time_aug_max a) (a_random_crop a) (a_mask_aug a).

Definition with_time (a : init_args) (lo hi : float) : init_args :=
  mk_init_args (a_path_name_type_list a) (a_preprocess a) (a_float_dtype a)
    (a_int_dtype a) (a_max_cache_size a) (a_max_cache_fd a) (a_not_align a)
    (a_mode a) (a_pitch_aug_min a) (a_pitch_aug_max a) (a_pitch_mean a)
    lo hi (a_random_crop a) (a_mask_aug a).

Definition with_crop_mask (a : init_args) (crop mask : bool) : init_args :=
  mk_init_args (a_path_name_type_list a) (a_preprocess a) (a_float_dtype a)
    (a_int_dtype a) (a_max_cache_size a) (a_max_cache_fd a) (a_not_align a)
    (a_mode a) (a_pitch_aug_min a) (a_pitch_aug_max a) (a_pitch_mean a)
    (a_time_aug_min a) (a_time_aug_max a) crop mask.

Definition with_cache_size (a : init_args) (m : size_arg) : init_args :=
  mk_init_args (a_path_name_type_list a) (a_preprocess a) (a_float_dtype a)
    (a_int_dtype a) m (a_max_cache_fd a) (a_not_align a)
    (a_mode a) (a_pitch_aug_min a) (a_pitch_aug_max a) (a_pitch_mean a)
    (a_time_aug_min a) (a_time_aug_max a) (a_random_crop a) (a_mask_aug a).

(** Declarations: the four modalities of a singing corpus; a waveform with
    frame features; the two-modality scenario of the dataset's docstring;
    a list in which the name [input] occurs twice. *)
Definition svs : list (string * string * string) :=
  [("wav.scp", "singing", "sound"); ("midi.scp", "midi", "midi");
   ("label", "label", "duration"); ("feats.scp", "feats", "npy")].

Definition pair : list (string * string * string) :=
  [("wav.scp", "singing", "sound"); ("feats.scp", "feats", "npy")].

Definition scenario : list (string * string * string) :=
  [("wav.scp", "input", "sound"); ("label", "output", "duration")].

Definition twice : list (string * string * string) :=
  [("wav.scp", "input", "sound"); ("feats.scp", "input", "npy")].

(** Training on [pair] with pitch bounds -2 and 2, time factors 1.00 to
    1.10, random crop and mask; the same with a cache of 1000 bytes. *)
Definition pair_train : init_args :=
  with_crop_mask
    (with_time (with_pitch (with_mode (defaults pair) "train") (-2) 2 "None")
               1 1.1)
    true true.

Definition pair_cached : init_args := with_cache_size pair_train (SizeInt 1000).

(** Training on [svs] with the pitch-mean target 63.0. *)
Definition svs_mean : init_args :=
  with_pitch (with_mode (defaults svs) "train") 0 0 "63.0".

(** Pitch bounds in the wrong order. *)
Definition bad_bounds : init_args := with_pitch (defaults pair) 2 (-2) "None".

(** Validation on [pair] with the frame features exempt from alignment. *)
Definition pair_exempt : init_args :=
  mk_init_args pair None "float32" "long" (SizeFloat 0) 0 ["feats"] "valid"
    0 0 "None" 1 1 false false.

(** Training on [svs] with the mask, and with the pitch-mean target [60]. *)
Definition svs_mask : init_args :=
  with_crop_mask (with_mode (defaults svs) "train") false true.

Definition svs_int_mean : init_args :=
  with_pitch (with_mode (defaults svs) "train") 0 0 "60".

(** A text file read as it is: one transcription per utterance; and the
    operations of [env] with a reader for it. *)
Definition text_scp : native :=
  mk_native ["u1"; "u2"] (λ key,
    match key with
    | VStr uid => if String.eqb uid "u1" then Ok (VStr "k a") else Ok (VStr "o")
    | _ => Err KeyError
    end).

Definition env_text : externals :=
  mk_externals dtype_kind cast (np_array env) mean float32 eval to_float
    (parse_size env)
    (λ func path loader_type,
       match func with
       | read_2column_text => Ok text_scp
       | _ => open func path loader_type
       end)
    (get_size env) to_int rand_int_scp (λ _, false).

Definition with_text : list (string * string * string) :=
  [("feats.scp", "feats", "npy"); ("text", "text", "text")].

(** A generator that always draws [k]. *)
Definition const_rng (k : Z) : rng := mk_rng (λ _, k) 0.

(** The first result of a call on a freshly constructed dataset. *)
Definition first_fetch (a : init_args) (g : rng) (uid : uid_arg)
  : result (string * odict pyval) * list event :=
  match __init__ env a with
  | Ok ds =>
      let '(r, w) := __getitem__ env uid (new_world ds g) in (r, w_log w)
  | Err e => (Err e, [])
  end.

(** The two factors a first call samples. *)
Definition first_sample (a : init_args) (g : rng) (uid : string)
  : result (Z * pyval) :=
  match __init__ env a with
  | Ok ds => fst (sample_aug env uid (new_world ds g))
  | Err e => Err e
  end.

End Corpus.

(** * Properties *)

(** ** The definitions on small inputs *)

Example py_slice_negative : py_slice 1 (-1) [10; 20; 30; 40] = [20; 30].
Proof. reflexivity. Qed.

Example py_slice_clamped : py_slice 2 9 [10; 20; 30; 40] = [30; 40].
Proof. reflexivity. Qed.

Example py_slice_fill_span :
  py_slice_fill (λ _, 0) 1 3 [10; 20; 30; 40] = [10; 0; 0; 40].
Proof. reflexivity. Qed.

Example py_index_last : py_index ["u1"; "u2"] (-1) = Ok "u2".
Proof. reflexivity. Qed.

Example py_int_truncates :
  py_int (float_of_Z 7 * 0.8)%float = Ok 5
  ∧ py_int (float_of_Z (-7) * 0.8)%float = Ok (-5)
  ∧ py_int (1.1 * float_of_Z 100 + float_of_Z 1)%float = Ok 111.
Proof. repeat split; vm_compute; reflexivity. Qed.

Example unpack3_bare_id :
  unpack3 (VStr "u1") = Err ValueError
  ∧ unpack3 (VStr "abc") = Ok (VStr "a", VStr "b", VStr "c")
  ∧ unpack3 (VInt 3) = Err TypeError.
Proof. repeat split; reflexivity. Qed.

Example re_match_cases :
  re_match Corpus.env "rand_int_\d+_\d+" "rand_int_3_10" = true
  ∧ re_match Corpus.env "rand_int_\d+_\d+" "rand_int_3_" = false
  ∧ re_match Corpus.env "text" "text_int" = true
  ∧ re_match Corpus.env "sound" "soun" = false.
Proof. repeat split; reflexivity. Qed.

Example gap_list_cases :
  gap_list 0 = [0] ∧ gap_list (-2) = [-2; -1; 0] ∧ gap_list 3 = [0; 1; 2; 3].
Proof. repeat split; reflexivity. Qed.

Example find_speaker_cases :
  find_speaker "kiritan_01" = (1, 2) ∧ find_speaker "u1" = (0, 0)
  ∧ find_speaker "oniku_ofuton" = (2, 1).
Proof. repeat split; reflexivity. Qed.

Example od_set_keeps_position :
  od_set [("a", 1); ("b", 2)] "a" 3 = [("a", 3); ("b", 2)]
  ∧ od_set [("a", 1); ("b", 2)] "c" 3 = [("a", 1); ("b", 2); ("c", 3)].
Proof. repeat split; reflexivity. Qed.

(** ** Results and ordered dictionaries *)

Lemma rbind_Ok {A B} (r : result A) (f : A → result B) (b : B) :
  rbind r f = Ok b → ∃ a, r = Ok a ∧ f a = Ok b.
Proof. destruct r as [a|e]; simpl; [eauto | discriminate]. Qed.

Lemma rmapM_Forall2 {A B} (f : A → result B) (l : list A) (l' : list B) :
  rmapM f l = Ok l' → Forall2 (λ x y, f x = Ok y) l l'.
Proof.
  revert l'. induction l as [|x l IH]; simpl; intros l' H.
  - inversion H. constructor.
  - apply rbind_Ok in H as (y & Hy & H).
    apply rbind_Ok in H as (ys & Hys & H).
    inversion H; subst. constructor; auto.
Qed.

Lemma od_get_set {V} (d : odict V) (k k' : string) (v : V) :
  od_get (od_set d k v) k' = if String.eqb k k' then Some v else od_get d k'.
Proof.
  induction d as [|[k0 v0] d IH]; simpl.
  - reflexivity.
  - destruct (String.eqb_spec k0 k) as [->|Hne]; simpl.
    + destruct (String.eqb_spec k k'); reflexivity.
    + rewrite IH. destruct (String.eqb_spec k0 k') as [->|]; [|reflexivity].
      destruct (String.eqb_spec k k'); [congruence | reflexivity].
Qed.

Lemma od_mem_keys {V} (d : odict V) (k : string) :
  od_mem d k = true ↔ In k (od_keys d).
Proof.
  unfold od_mem. induction d as [|[k0 v0] d IH]; simpl.
  - split; [discriminate | tauto].
  - destruct (String.eqb_spec k0 k) as [->|Hne].
    + split; auto.
    + rewrite IH. split; [auto | intros [?|?]; [congruence | assumption]].
Qed.

Lemma od_keys_set_fresh {V} (d : odict V) (k : string) (v : V) :
  od_mem d k = false → od_keys (od_set d k v) = od_keys d ++ [k].
Proof.
  unfold od_mem. induction d as [|[k0 v0] d IH]; simpl; [reflexivity|].
  destruct (String.eqb k0 k); [discriminate|].
  intros H. simpl. f_equal. apply IH, H.
Qed.

Lemma od_keys_set_present {V} (d : odict V) (k : string) (v v' : V) :
  od_get d k = Some v' → od_keys (od_set d k v) = od_keys d.
Proof.
  induction d as [|[k0 v0] d IH]; simpl; [discriminate|].
  destruct (String.eqb k0 k); simpl; [reflexivity|].
  intros H. f_equal. apply IH, H.
Qed.

(** Two dictionaries related entry by entry, with equal keys, have related
    lookups. *)
Lemma od_get_Forall2 {V W} (R : string → V → W → Prop)
    (d : odict V) (d' : odict W) (k : string) :
  Forall2 (λ kv kv', fst kv = fst kv' ∧ R (fst kv) (snd kv) (snd kv')) d d' →
  match od_get d k, od_get d' k with
  | Some v, Some v' => R k v v'
  | None, None => True
  | _, _ => False
  end.
Proof.
  induction 1 as [|[k0 v0] [k1 v1] d d' [Hk HR] _ IH]; simpl in *; [exact I|].
  subst k1. destruct (String.eqb_spec k0 k) as [->|]; [exact HR | exact IH].
Qed.

(** ** Slices and lengths *)

Lemma slice_bound_range (n i : Z) : 0 ≤ n → 0 ≤ slice_bound n i ≤ n.
Proof. unfold slice_bound. destruct (Z.ltb_spec i 0); lia. Qed.

Lemma length_py_slice {A} (lo hi : Z) (l : list A) :
  Z.of_nat (length (py_slice lo hi l))
  = Z.max 0 (slice_bound (Z.of_nat (length l)) hi
             - slice_bound (Z.of_nat (length l)) lo).
Proof.
  unfold py_slice. rewrite length_take, length_drop.
  pose proof (slice_bound_range (Z.of_nat (length l)) lo ltac:(lia)).
  pose proof (slice_bound_range (Z.of_nat (length l)) hi ltac:(lia)).
  lia.
Qed.

Lemma length_py_slice_fill {A} (zero : A → A) (lo hi : Z) (l : list A) :
  length (py_slice_fill zero lo hi l) = length l.
Proof.
  unfold py_slice_fill.
  rewrite !length_app, length_map, !length_take, !length_drop.
  pose proof (slice_bound_range (Z.of_nat (length l)) lo ltac:(lia)).
  lia.
Qed.

Lemma length_list_ascii_of_string (s : string) :
  length (list_ascii_of_string s) = String.length s.
Proof. induction s; simpl; congruence. Qed.

Lemma length_string_of_list_ascii (l : list ascii) :
  String.length (string_of_list_ascii l) = length l.
Proof. induction l; simpl; congruence. Qed.

(** *** Code points *)

Lemma code_points_head (c : ascii) (l : list ascii) :
  ∃ t cps, code_points (c :: l) = (c :: t) :: cps.
Proof.
  simpl. destruct (code_points l) as [|cp cps]; [eauto|].
  destruct (starts_cont l); eauto.
Qed.

(** The code points of a byte string are well formed, and all but the
    first start with a byte other than a continuation byte. *)
Lemma code_points_good (l : list ascii) :
  Forall cp_ok (code_points l) ∧ Forall cp_lead (tail (code_points l)).
Proof.
  induction l as [|c l [IH1 IH2]]; [split; constructor|].
  destruct l as [|c' l].
  { simpl. split; repeat constructor. }
  destruct (code_points_head c' l) as (t & cps & Hcp).
  change (code_points (c :: c' :: l))
    with (match code_points (c' :: l) with
          | cp :: cps =>
              if is_cont c' then (c :: cp) :: cps else [c] :: cp :: cps
          | [] => [[c]]
          end).
  rewrite Hcp in *. simpl in IH2.
  apply Forall_cons in IH1 as [Hok IH1]. simpl in Hok.
  destruct (is_cont c') eqn:Hc'; simpl.
  - split; [|exact IH2]. constructor; [|exact IH1].
    simpl. constructor; assumption.
  - split.
    + constructor; [simpl; constructor|]. constructor; assumption.
    + constructor; [exact Hc' | exact IH2].
Qed.

Lemma code_points_cons_lead (c : ascii) (cp : list ascii)
    (cps : list (list ascii)) (l : list ascii) :
  code_points l = cp :: cps → starts_cont l = false →
  code_points (c :: l) = [c] :: cp :: cps.
Proof. intros H1 H2. simpl. rewrite H1, H2. reflexivity. Qed.

Lemma code_points_chunk (c : ascii) (t : list ascii)
    (cps : list (list ascii)) :
  Forall (λ c, is_cont c = true) t →
  Forall cp_lead cps →
  code_points (List.concat cps) = cps →
  code_points (c :: t ++ List.concat cps) = (c :: t) :: cps.
Proof.
  intros Ht Hlead Hcps. revert c. induction Ht as [|d t Hd Ht IH]; intros c.
  - simpl app. destruct cps as [|cp cps]; [reflexivity|].
    apply Forall_cons in Hlead as [Hcp _].
    destruct cp as [|c' cp]; [contradiction|]. simpl in Hcp.
    cbn [code_points]. rewrite Hcps. simpl. rewrite Hcp. reflexivity.
  - change (code_points (c :: (d :: t) ++ List.concat cps))
      with (match code_points (d :: t ++ List.concat cps) with
            | cp :: cps0 =>
                if is_cont d then (c :: cp) :: cps0 else [c] :: cp :: cps0
            | [] => [[c]]
            end).
    rewrite (IH d), Hd. reflexivity.
Qed.

(** Putting code points together and splitting again gives them back. *)
Lemma code_points_concat (cps : list (list ascii)) :
  Forall cp_ok cps → Forall cp_lead (tail cps) →
  code_points (List.concat cps) = cps.
Proof.
  induction cps as [|cp cps IH]; intros Hok Hlead; [reflexivity|].
  apply Forall_cons in Hok as [Hcp Hok]. simpl in Hlead.
  destruct cp as [|c t]; [contradiction|]. simpl in Hcp.
  change (List.concat ((c :: t) :: cps)) with (c :: t ++ List.concat cps).
  apply code_points_chunk; [assumption | assumption|].
  apply IH; [assumption|]. destruct cps; [constructor|].
  simpl. apply Forall_cons in Hlead as [_ H]. exact H.
Qed.

(** A character in front of a str is a character of its own, and the
    characters of a str make up its encoding. *)
Lemma code_points_ascii (c : ascii) (l : list ascii) :
  starts_cont l = false → code_points (c :: l) = [c] :: code_points l.
Proof.
  intros H. simpl. destruct (code_points l); [reflexivity|].
  rewrite H. reflexivity.
Qed.

Lemma concat_code_points (l : list ascii) : List.concat (code_points l) = l.
Proof.
  induction l as [|c l IH]; [reflexivity|]. simpl.
  destruct (code_points l) as [|cp cps].
  - simpl in *. subst l. reflexivity.
  - destruct (starts_cont l); simpl in *; rewrite IH; reflexivity.
Qed.

Lemma Forall_tail_drop {A} (P : A → Prop) (n : nat) (l : list A) :
  Forall P (tail l) → Forall P (tail (drop n l)).
Proof.
  revert l. induction n as [|n IH]; intros l H; [exact H|].
  destruct l as [|x l]; [exact H|]. simpl in *. apply IH.
  destruct l; [constructor|]. simpl. apply Forall_cons in H as [_ H].
  exact H.
Qed.

Lemma Forall_tail_take {A} (P : A → Prop) (n : nat) (l : list A) :
  Forall P (tail l) → Forall P (tail (take n l)).
Proof.
  intros H. destruct n as [|n], l as [|x l]; simpl in *; try constructor.
  apply Forall_take, H.
Qed.

Lemma length_code_points_slice (lo hi : Z) (l : list ascii) :
  length (code_points (List.concat (py_slice lo hi (code_points l))))
  = length (py_slice lo hi (code_points l)).
Proof.
  destruct (code_points_good l) as [Hok Hlead].
  rewrite code_points_concat; [reflexivity | |]; unfold py_slice.
  - apply Forall_take, Forall_drop, Hok.
  - apply Forall_tail_take, Forall_tail_drop, Hlead.
Qed.

(** The length of [v[lo:hi]]. *)
Lemma py_len_getslice (lo hi : Z) (v v' : pyval) :
  getslice lo hi v = Ok v' →
  ∃ n, py_len v = Ok n ∧ 0 ≤ n
       ∧ py_len v' = Ok (Z.max 0 (slice_bound n hi - slice_bound n lo)).
Proof.
  destruct v as [| | s | | [k [x|ts]] | [k [x|ts]] | vs | vs | k x]; simpl;
    intros H; inversion H; subst; clear H; simpl.
  - exists (Z.of_nat (str_len s)). split; [reflexivity|]. split; [lia|].
    unfold str_len, chars.
    rewrite !length_map, list_ascii_of_string_of_list_ascii,
      length_code_points_slice, length_py_slice. reflexivity.
  - eexists. split; [reflexivity|]. split; [lia|].
    rewrite length_py_slice. reflexivity.
  - eexists. split; [reflexivity|]. split; [lia|].
    rewrite length_py_slice. reflexivity.
  - eexists. split; [reflexivity|]. split; [lia|].
    rewrite length_py_slice. reflexivity.
  - eexists. split; [reflexivity|]. split; [lia|].
    rewrite length_py_slice. reflexivity.
Qed.

(** Zeroing a span keeps the length. *)
Lemma py_len_setslice_zero (lo hi : Z) (v v' : pyval) :
  setslice_zero lo hi v = Ok v' → py_len v' = py_len v.
Proof.
  destruct v as [| | s | | [k [x|ts]] | [k [x|ts]] | vs | vs | k x]; simpl;
    intros H; inversion H; subst; clear H; simpl;
    rewrite length_py_slice_fill; reflexivity.
Qed.

(** A conversion of dtype keeps the shape. *)
Lemma py_len_astype (E : externals) (d : string) (a a' : ndarray) :
  astype E d a = Ok a' → py_len (VNd a') = py_len (VNd a).
Proof.
  unfold astype. destruct (np_dtype_kind E d) as [k|]; [|discriminate].
  intros H. inversion H; subst; clear H.
  destruct a as [k0 [x|ts]]; simpl; [reflexivity|].
  rewrite length_map. reflexivity.
Qed.

Lemma py_min_spec (l : list Z) (m : Z) :
  py_min l = Ok m → In m l ∧ ∀ x, In x l → m ≤ x.
Proof.
  destruct l as [|x0 l]; simpl; [discriminate|].
  intros H. inversion H; subst; clear H.
  induction l as [|y l IH]; simpl.
  - split; [auto | intros x [->|[]]; lia].
  - destruct IH as [Hin Hle]. split.
    + destruct (Z.min_spec y (foldr Z.min x0 l)) as [[_ ->]|[_ ->]].
      * auto.
      * destruct Hin as [Hin|Hin]; auto.
    + intros x [->|[->|Hx]].
      * specialize (Hle x (or_introl eq_refl)). lia.
      * lia.
      * specialize (Hle x (or_intror Hx)). lia.
Qed.

(** ** Signs of floats *)

Lemma py_int_nonneg (f : float) (z : Z) :
  sf_nonneg (Prim2SF f) → py_int f = Ok z → 0 ≤ z.
Proof.
  unfold py_int. destruct (Prim2SF f) as [s|s| |s m e]; simpl;
    intros Hs H; inversion H; subst; clear H; [lia|].
  destruct s; [contradiction|].
  destruct (0 <=? e).
  - apply Z.shiftl_nonneg. lia.
  - apply Z.shiftr_nonneg. lia.
Qed.

Lemma binary_round_aux_nonneg (m e : Z) (l : location) :
  sf_nonneg (binary_round_aux prec emax false m e l).
Proof.
  unfold binary_round_aux.
  destruct (shr_fexp prec emax m e l) as [mrs1 e1].
  destruct (shr_fexp prec emax _ e1 loc_Exact) as [mrs2 e2].
  destruct (shr_m mrs2); [exact I | | exact I].
  destruct (e2 <=? emax - prec); exact I.
Qed.

Lemma SFmul_nonneg (x y : spec_float) :
  sf_nonneg x → sf_nonneg y → sf_nonneg (SFmul prec emax x y).
Proof.
  destruct x as [sx|sx| |sx mx ex], y as [sy|sy| |sy my ey]; simpl;
    try (intros; exact I).
  destruct sx, sy; try contradiction. intros _ _.
  apply binary_round_aux_nonneg.
Qed.

Lemma float_of_Z_nonneg (z : Z) : 0 ≤ z → sf_nonneg (Prim2SF (float_of_Z z)).
Proof.
  destruct z as [|p|p]; intros Hz; [| |lia].
  - vm_compute. exact I.
  - unfold float_of_Z, float_of_pos. rewrite abs_spec.
    destruct (Prim2SF _) as [s|s| |s m e]; exact I.
Qed.

(** The integer part of a non-negative length scaled by a positive factor
    is not negative. *)
Lemma py_int_scaled_nonneg (z : Z) (c : float) (bound : Z) :
  0 ≤ z → sf_nonneg (Prim2SF c) →
  py_int (float_of_Z z * c)%float = Ok bound → 0 ≤ bound.
Proof.
  intros Hz Hc. apply py_int_nonneg. rewrite mul_spec.
  apply SFmul_nonneg; [apply float_of_Z_nonneg, Hz | exact Hc].
Qed.

(** ** The state monad *)

Lemma bind_Ok {A B} (m : M A) (f : A → M B) (w w' : world) (b : B) :
  bind m f w = (Ok b, w') → ∃ a w1, m w = (Ok a, w1) ∧ f a w1 = (Ok b, w').
Proof. unfold bind. destruct (m w) as [[a|e] w1]; [eauto | discriminate]. Qed.

Lemma lift_Ok {A} (r : result A) (w w' : world) (a : A) :
  lift r w = (Ok a, w') → r = Ok a ∧ w' = w.
Proof. unfold lift. intros H. inversion H. auto. Qed.

Lemma ret_Ok {A} (a b : A) (w w' : world) :
  ret a w = (Ok b, w') → b = a ∧ w' = w.
Proof. unfold ret. intros H. inversion H. auto. Qed.

Lemma get_self_Ok (w w' : world) (ds : MuskitDataset) :
  get_self w = (Ok ds, w') → ds = w_self w ∧ w' = w.
Proof. unfold get_self. intros H. inversion H. auto. Qed.

Lemma randint_range (a b r : Z) (w w' : world) :
  randint a b w = (Ok r, w') → a ≤ r ≤ b.
Proof.
  unfold randint. destruct (Z.leb_spec a b) as [Hab|]; [|discriminate].
  intros H. apply bind_Ok in H as (x & w1 & _ & H).
  apply ret_Ok in H as [-> _].
  pose proof (Z.mod_pos_bound x (b - a + 1) ltac:(lia)). lia.
Qed.

Lemma py_index_In {A} (l : list A) (i : Z) (x : A) :
  py_index l i = Ok x → In x l.
Proof.
  unfold py_index. destruct (_ && _); [|discriminate].
  destruct (l !! _) as [y|] eqn:Hy; [|discriminate].
  intros H. inversion H; subst. apply list_elem_of_In.
  eapply list_elem_of_lookup_2, Hy.
Qed.

Lemma sample1_In {A} (lst : list A) (x : A) (w w' : world) :
  sample1 lst w = (Ok x, w') → In x lst.
Proof.
  unfold sample1. destruct lst as [|y lst]; [discriminate|].
  intros H. apply bind_Ok in H as (d & w1 & _ & H).
  apply lift_Ok in H as [H _]. eapply py_index_In, H.
Qed.

(** *** Frames: what a computation leaves as it was *)

Section Frames.

Context (R : world → world → Prop) `{!PreOrder R}.

Lemma pres_ret {A} (a : A) : pres R (ret a).
Proof. intros w. reflexivity. Qed.

Lemma pres_raise {A} (e : exn) : pres R (@raise A e).
Proof. intros w. reflexivity. Qed.

Lemma pres_lift {A} (r : result A) : pres R (lift r).
Proof. intros w. reflexivity. Qed.

Lemma pres_get_self : pres R get_self.
Proof. intros w. reflexivity. Qed.

Lemma pres_bind {A B} (m : M A) (f : A → M B) :
  pres R m → (∀ a, pres R (f a)) → pres R (bind m f).
Proof.
  intros Hm Hf w. unfold bind. specialize (Hm w).
  destruct (m w) as [[a|e] w1]; simpl in *; [|assumption].
  etransitivity; [exact Hm | apply Hf].
Qed.

Lemma pres_randint (a b : Z) : pres R draw → pres R (randint a b).
Proof.
  intros Hd. unfold randint. destruct (a <=? b); [|apply pres_raise].
  apply pres_bind; [assumption | intros; apply pres_ret].
Qed.

Lemma pres_sample1 {A} (lst : list A) : pres R draw → pres R (sample1 lst).
Proof.
  intros Hd. unfold sample1. destruct lst; [apply pres_raise|].
  apply pres_bind; [assumption | intros; apply pres_lift].
Qed.

End Frames.

#[local] Instance stable_preorder : PreOrder stable.
Proof.
  split.
  - intros w. split; reflexivity.
  - intros a b c [H1 H2] [H3 H4]. split; congruence.
Qed.

#[local] Instance quiet_preorder : PreOrder quiet.
Proof.
  split.
  - intros w. split; reflexivity.
  - intros a b c [H1 H2] [H3 H4]. split; congruence.
Qed.

Lemma quiet_stable (w w' : world) : quiet w w' → stable w w'.
Proof. intros [H _]. unfold stable. rewrite H. split; reflexivity. Qed.

Lemma pres_quiet_stable {A} (m : M A) : pres quiet m → pres stable m.
Proof. intros H w. apply quiet_stable, H. Qed.

Lemma stable_proj {A} (f : MuskitDataset → A) (w w' : world) :
  (∀ ds ld, f (with_loader_dict ds ld) = f ds) →
  stable w w' → f (w_self w') = f (w_self w).
Proof.
  intros Hf [H _]. rewrite <- (Hf (w_self w') []), H. apply Hf.
Qed.

Lemma quiet_draw : pres quiet draw.
Proof. intros w. split; reflexivity. Qed.

Lemma stable_draw : pres stable draw.
Proof. intros w. split; reflexivity. Qed.

Lemma stable_log (ev : event) : pres stable (log ev).
Proof. intros w. split; reflexivity. Qed.

Lemma stable_query (E : externals) (name : string) (key : pyval) :
  pres stable (query E name key).
Proof.
  intros w. unfold query.
  destruct (od_get (loader_dict (w_self w)) name) as [l|] eqn:Hl;
    [|reflexivity].
  destruct (loader_getitem E l key) as [r l']. split; simpl; [reflexivity|].
  eapply od_keys_set_present, Hl.
Qed.

Ltac pres_tac :=
  repeat first
    [ match goal with |- PreOrder _ => exact _ end
    | apply pres_ret | apply pres_raise | apply pres_lift | apply pres_get_self
    | apply quiet_draw | apply stable_draw | apply stable_log
    | apply stable_query
    | apply pres_randint | apply pres_sample1
    | apply pres_bind; [ .. | intros ? ]
    | match goal with
      | |- pres _ (match ?x with _ => _ end) => destruct x
      end ].

(** ** The stages of [__getitem__] and the state *)

Section Stages.

Context (E : externals).

Lemma stable_pitch_gap (uid : string) : pres stable (pitch_gap E uid).
Proof. unfold pitch_gap. pres_tac. Qed.

Lemma stable_sample_pitch_aug (uid : string) :
  pres stable (sample_pitch_aug E uid).
Proof.
  unfold sample_pitch_aug. pres_tac.
Qed.

Lemma stable_sample_aug (uid : string) : pres stable (sample_aug E uid).
Proof.
  unfold sample_aug. pres_tac.
Qed.

Lemma stable_load_value (uid : string) (p : Z) (name : string) :
  pres stable (load_value E uid p name).
Proof. unfold load_value. pres_tac. Qed.

Lemma stable_load_data (uid : string) (p : Z) (names : list string)
    (data : odict pyval) :
  pres stable (load_data E uid p names data).
Proof.
  revert data. induction names as [|name rest IH]; intros data; simpl.
  - pres_tac.
  - apply pres_bind; [exact _ | apply stable_load_value | intros; apply IH].
Qed.

Lemma stable_apply_preprocess (uid : string) (data : odict pyval) (t : pyval) :
  pres stable (apply_preprocess uid data t).
Proof. unfold apply_preprocess. pres_tac. Qed.

Lemma stable_assemble (uid : string) : pres stable (assemble E uid).
Proof.
  unfold assemble. pres_tac. apply stable_load_data.
Qed.

Lemma quiet_choose_mask (length : Z) : pres quiet (choose_mask length).
Proof. unfold choose_mask. pres_tac. Qed.

Lemma quiet_choose_crop (length : Z) : pres quiet (choose_crop length).
Proof. unfold choose_crop. pres_tac. Qed.

Lemma quiet_align (data : odict pyval) : pres quiet (align data).
Proof.
  unfold align. pres_tac.
Qed.

Lemma resolve_uid_world (uid : uid_arg) (w : world) :
  snd (resolve_uid uid w) = w.
Proof.
  destruct uid as [s|i]; simpl; [reflexivity|].
  unfold bind, get_self. destruct (od_values _); reflexivity.
Qed.

End Stages.

(** ** Alignment *)

Lemma slice_len_inside (n lo hi : Z) :
  0 ≤ lo → lo ≤ hi → hi ≤ n → slice_len n lo hi = hi - lo.
Proof.
  intros. unfold slice_len, slice_bound.
  destruct (Z.ltb_spec hi 0), (Z.ltb_spec lo 0); lia.
Qed.

Lemma py_len_nonneg (v : pyval) (n : Z) : py_len v = Ok n → 0 ≤ n.
Proof.
  destruct v as [| | s | | [k [x|ts]] | [k [x|ts]] | vs | vs | k x]; simpl;
    intros H; inversion H; lia.
Qed.

Lemma align_value_len (length n : Z) (mask crop : option (Z * Z)) (v v' : pyval) :
  align_value length mask crop v = Ok v' →
  py_len v = Ok n → 0 ≤ length ≤ n →
  py_len v' = Ok (final_length length crop).
Proof.
  unfold align_value. intros H Hn Hlen.
  apply rbind_Ok in H as (v1 & H1 & H).
  apply rbind_Ok in H as (v2 & H2 & H).
  apply py_len_getslice in H1 as (n1 & Hn1 & _ & Hv1).
  rewrite Hn in Hn1. inversion Hn1; subst n1; clear Hn1.
  assert (Hv1' : py_len v1 = Ok length).
  { rewrite Hv1. f_equal. unfold slice_bound.
    destruct (Z.ltb_spec length 0); simpl; lia. }
  assert (Hv2 : py_len v2 = Ok length).
  { destruct mask as [[b e]|].
    - apply py_len_setslice_zero in H2. congruence.
    - inversion H2; subst. assumption. }
  destruct crop as [[b e]|]; simpl in *.
  - apply py_len_getslice in H as (n3 & Hn3 & _ & Hv3).
    rewrite Hv2 in Hn3. inversion Hn3; subst n3; clear Hn3.
    rewrite Hv3. reflexivity.
  - inversion H; subst. assumption.
Qed.

Lemma Forall2_with_Forall {A B} (P : A → Prop) (Q : A → B → Prop)
    (l : list A) (l' : list B) :
  Forall P l → Forall2 Q l l' → Forall2 (λ x y, P x ∧ Q x y) l l'.
Proof.
  intros HP HQ. induction HQ; inversion HP; subst; constructor; auto.
Qed.

Lemma aligned_lengths_spec (nal : list string) (data : odict pyval)
    (lens : list Z) :
  aligned_lengths nal data = Ok lens →
  Forall (λ kv, str_in (fst kv) nal = false →
                ∃ n, py_len (snd kv) = Ok n ∧ In n lens) data.
Proof.
  unfold aligned_lengths. revert lens.
  induction data as [|[k v] data IH]; intros lens H; [constructor|].
  simpl in H. destruct (str_in k nal) eqn:Hk; simpl in H.
  - constructor; [simpl; congruence | apply IH, H].
  - apply rbind_Ok in H as (n & Hn & H).
    apply rbind_Ok in H as (ns & Hns & H). inversion H; subst; clear H.
    constructor.
    + simpl. intros _. exists n. split; [assumption | left; reflexivity].
    + eapply Forall_impl; [apply IH, Hns|].
      simpl. intros kv Hkv Hne. destruct (Hkv Hne) as (n' & ? & ?).
      exists n'. split; [assumption | right; assumption].
Qed.

Lemma aligned_lengths_nonneg (nal : list string) (data : odict pyval)
    (lens : list Z) :
  aligned_lengths nal data = Ok lens → Forall (λ n, 0 ≤ n) lens.
Proof.
  unfold aligned_lengths. intros H. apply rmapM_Forall2 in H.
  induction H as [|kv n l l' Hn _ IH]; constructor; [|exact IH].
  eapply py_len_nonneg, Hn.
Qed.

(** After the loop over [data.items()], every value whose key is not exempt
    has the final length. *)
Lemma align_loop_len (nal : list string) (data data' : odict pyval)
    (lens : list Z) (m : Z) (mask crop : option (Z * Z)) :
  aligned_lengths nal data = Ok lens →
  py_min lens = Ok m →
  rmapM (align_entry nal m mask crop) data = Ok data' →
  od_keys data' = od_keys data
  ∧ ∀ k v', str_in k nal = false → od_get data' k = Some v' →
            py_len v' = Ok (final_length m crop).
Proof.
  intros Hlens Hmin Hloop.
  apply py_min_spec in Hmin as [Hin Hle].
  apply rmapM_Forall2 in Hloop.
  pose proof (aligned_lengths_spec _ _ _ Hlens) as Hall.
  assert (Hm : 0 ≤ m).
  { pose proof (aligned_lengths_nonneg _ _ _ Hlens) as Hnn.
    rewrite Forall_forall in Hnn. apply Hnn, list_elem_of_In, Hin. }
  pose proof (Forall2_with_Forall _ _ _ _ Hall Hloop) as HF.
  assert (HF' : Forall2 (λ kv kv', fst kv = fst kv'
             ∧ (λ k (v v' : pyval), str_in k nal = false →
                  py_len v' = Ok (final_length m crop))
                 (fst kv) (snd kv) (snd kv')) data data').
  { eapply Forall2_impl; [exact HF|].
    intros [k v] [k' v'] [HP HQ]. simpl in *.
    unfold align_entry in HQ. simpl in HQ.
    destruct (str_in k nal) eqn:Hk.
    - inversion HQ; subst. split; [reflexivity | discriminate].
    - apply rbind_Ok in HQ as (v2 & Hv2 & HQ). inversion HQ; subst.
      split; [reflexivity|]. intros _.
      destruct (HP eq_refl) as (n & Hn & Hnin).
      eapply align_value_len; eauto. }
  split.
  - clear -HF'. induction HF' as [|[k v] [k' v'] d d' [Hk _] _ IH]; simpl in *;
      [reflexivity | congruence].
  - intros k v' Hk Hget.
    pose proof (od_get_Forall2 _ data data' k HF') as Hrel. simpl in Hrel.
    rewrite Hget in Hrel. destruct (od_get data k); [auto | contradiction].
Qed.

Lemma choose_crop_Ok (length : Z) (w w' : world) (crop : option (Z * Z)) :
  0 ≤ length →
  choose_crop length w = (Ok crop, w') →
  match crop with
  | Some (crop_index_begin, crop_index_end) =>
      (String.eqb (mode (w_self w)) "train" && random_crop (w_self w) = true)
      ∧ 0 ≤ crop_index_begin ∧ crop_index_begin ≤ crop_index_end
      ∧ crop_index_end ≤ length
      ∧ ∃ bound, py_int (float_of_Z length * 0.8)%float = Ok bound
                 ∧ bound ≤ crop_index_end - crop_index_begin ≤ length
  | None =>
      String.eqb (mode (w_self w)) "train" && random_crop (w_self w) = false
  end.
Proof.
  unfold choose_crop. intros Hlen H.
  apply bind_Ok in H as (ds & w0 & Hds & H).
  apply get_self_Ok in Hds as [-> ->].
  destruct (String.eqb (mode (w_self w)) "train" && random_crop (w_self w)).
  - apply bind_Ok in H as (bound & w1 & Hb & H).
    apply lift_Ok in Hb as [Hb ->].
    apply bind_Ok in H as (crop_length & w2 & Hc & H).
    apply bind_Ok in H as (b & w3 & Hbeg & H).
    apply ret_Ok in H as [-> _].
    apply randint_range in Hc. apply randint_range in Hbeg.
    assert (0 ≤ bound).
    { eapply py_int_scaled_nonneg; [exact Hlen | | exact Hb].
      vm_compute. exact I. }
    split; [reflexivity|]. split; [lia|]. split; [lia|]. split; [lia|].
    exists bound. split; [assumption | lia].
  - apply ret_Ok in H as [-> _]. reflexivity.
Qed.

Lemma align_Ok (data data' : odict pyval) (w w' : world) :
  align data w = (Ok data', w') →
  ∃ lens m mask crop w1,
    aligned_lengths (not_align (w_self w)) data = Ok lens
    ∧ py_min lens = Ok m
    ∧ choose_mask m w = (Ok mask, w1)
    ∧ choose_crop m w1 = (Ok crop, w')
    ∧ rmapM (align_entry (not_align (w_self w)) m mask crop) data = Ok data'.
Proof.
  unfold align. intros H.
  apply bind_Ok in H as (ds & w0 & Hds & H).
  apply get_self_Ok in Hds as [-> ->].
  apply bind_Ok in H as (lens & w0 & Hl & H). apply lift_Ok in Hl as [Hl ->].
  apply bind_Ok in H as (m & w0 & Hm & H). apply lift_Ok in Hm as [Hm ->].
  apply bind_Ok in H as (mask & w1 & Hmask & H).
  apply bind_Ok in H as (crop & w2 & Hcrop & H).
  apply lift_Ok in H as [H ->].
  exists lens, m, mask, crop, w1. auto.
Qed.

(** ** Precision *)

Section Precision.

Context (E : externals).

Lemma force_value_key_len (ds : MuskitDataset) (kv kv' : string * pyval) :
  force_value E ds kv = Ok kv' →
  fst kv' = fst kv ∧ py_len (snd kv') = py_len (snd kv).
Proof.
  destruct kv as [k v]. unfold force_value.
  destruct (negb _); [discriminate|].
  destruct v as [| | | | a | | | |];
    try (intros H; inversion H; subst; split; reflexivity).
  destruct (nd_kind a); try discriminate.
  - destruct (astype E (float_dtype ds) a) as [a'|] eqn:Ha; [|discriminate].
    simpl. intros H. inversion H; subst. simpl. split; [reflexivity|].
    eapply py_len_astype, Ha.
  - destruct (astype E (int_dtype ds) a) as [a'|] eqn:Ha; [|discriminate].
    simpl. intros H. inversion H; subst. simpl. split; [reflexivity|].
    eapply py_len_astype, Ha.
Qed.

Lemma force_precision_get (ds : MuskitDataset) (data rec : odict pyval)
    (k : string) :
  force_precision E ds data = Ok rec →
  match od_get data k, od_get rec k with
  | Some v, Some v' => force_value E ds (k, v) = Ok (k, v')
  | None, None => True
  | _, _ => False
  end.
Proof.
  unfold force_precision. intros H. apply rmapM_Forall2 in H.
  apply (od_get_Forall2 (λ k v v', force_value E ds (k, v) = Ok (k, v'))).
  eapply Forall2_impl; [exact H|].
  intros [k0 v0] [k1 v1] Hf. simpl.
  pose proof (force_value_key_len _ _ _ Hf) as [Hk _]. simpl in Hk. subst k1.
  auto.
Qed.

End Precision.

(** ** Building a record *)

Section Records.

Context (E : externals).

Lemma stable_frozen (w w' : world) :
  stable w w' →
  frozen (w_self w') = frozen (w_self w)
  ∧ cache (w_self w') = cache (w_self w).
Proof.
  intros [H _]. split.
  - unfold frozen. rewrite H. reflexivity.
  - apply (f_equal cache) in H. exact H.
Qed.

Lemma assemble_Ok (uid : string) (w w1 : world) (p : Z) (t : pyval)
    (data : odict pyval) :
  assemble E uid w = (Ok (p, t, data), w1) →
  ∃ w0 raw w2,
    sample_aug E uid w = (Ok (p, t), w0)
    ∧ load_data E uid p (od_keys (loader_dict (w_self w0))) [] w0 = (Ok raw, w2)
    ∧ apply_preprocess uid raw t w2 = (Ok data, w1).
Proof.
  unfold assemble. intros H.
  apply bind_Ok in H as ([p0 t0] & w0 & Hs & H).
  apply bind_Ok in H as (ds & w0' & Hds & H).
  apply get_self_Ok in Hds as [-> ->].
  apply bind_Ok in H as (raw & w2 & Hl & H).
  apply bind_Ok in H as (data0 & w3 & Hp & H).
  apply ret_Ok in H as [H ->]. inversion H; subst.
  exists w0, raw, w2. auto.
Qed.

Lemma build_record_Ok (uid : string) (w w' : world) (rec : odict pyval) :
  build_record E uid w = (Ok rec, w') →
  ∃ p t data w1 data2 w2,
    assemble E uid w = (Ok (p, t, data), w1)
    ∧ align data w1 = (Ok data2, w2)
    ∧ force_precision E (w_self w2) (attach_aug data2 p t) = Ok rec
    ∧ cache_store E uid rec w2 = (Ok tt, w').
Proof.
  unfold build_record. intros H.
  apply bind_Ok in H as ([[p t] data] & w1 & Ha & H).
  apply bind_Ok in H as (data2 & w2 & Hal & H).
  apply bind_Ok in H as (ds & w2' & Hds & H).
  apply get_self_Ok in Hds as [-> ->].
  apply bind_Ok in H as (rec0 & w3 & Hf & H).
  apply lift_Ok in Hf as [Hf ->].
  apply bind_Ok in H as ([] & w4 & Hc & H).
  apply ret_Ok in H as [-> ->].
  exists p, t, data, w1, data2, w2. auto.
Qed.

(** What a call that builds a record does to the dataset: the configuration
    stays, and the cache either stays or receives the record returned. *)
Lemma build_record_world (uid : string) (w : world) :
  frozen (w_self (snd (build_record E uid w))) = frozen (w_self w)
  ∧ (cache (w_self (snd (build_record E uid w))) = cache (w_self w)
     ∨ ∃ c rec,
         fst (build_record E uid w) = Ok rec
         ∧ cache (w_self w) = Some c
         ∧ cache (w_self (snd (build_record E uid w)))
           = Some (sd_setitem E c uid rec)).
Proof.
  unfold build_record, bind.
  pose proof (stable_assemble E uid w) as H1.
  destruct (assemble E uid w) as [[[[p t] data]|e] w1]; simpl in H1;
    apply stable_frozen in H1 as [Hf1 Hc1]; [|simpl; auto].
  pose proof (quiet_align data w1) as H2.
  destruct (align data w1) as [[data2|e] w2]; simpl in H2;
    destruct H2 as [Hs2 _]; [|simpl; rewrite Hs2; auto].
  unfold get_self, lift.
  destruct (force_precision E (w_self w2) (attach_aug data2 p t)) as [rec|e];
    [|simpl; rewrite Hs2; auto].
  unfold cache_store.
  destruct (cache (w_self w2)) as [c|] eqn:Hc; [|simpl; rewrite Hs2; auto].
  destruct (Z_lt_num (sd_size c) (max_cache_size (w_self w2)));
    [|simpl; rewrite Hs2; auto].
  simpl. split.
  - unfold frozen. simpl. rewrite Hs2. exact Hf1.
  - right. exists c, rec. rewrite Hs2 in Hc. split; [reflexivity|].
    split; [congruence | reflexivity].
Qed.

Lemma getitem_world (uid : uid_arg) (w : world) :
  frozen (w_self (snd (__getitem__ E uid w))) = frozen (w_self w)
  ∧ (cache (w_self (snd (__getitem__ E uid w))) = cache (w_self w)
     ∨ ∃ s c rec w',
         build_record E s w = (Ok rec, w')
         ∧ cache (w_self w) = Some c
         ∧ cache (w_self (snd (__getitem__ E uid w)))
           = Some (sd_setitem E c s rec)).
Proof.
  unfold __getitem__, bind.
  pose proof (resolve_uid_world uid w) as Hr.
  destruct (resolve_uid uid w) as [[s|e] w0]; simpl in Hr; subst w0;
    [|simpl; auto].
  unfold get_self.
  destruct (cache_lookup (w_self w) s) as [data|]; [simpl; auto|].
  pose proof (build_record_world s w) as [Hf Hc].
  destruct (build_record E s w) as [[rec|e] w'] eqn:Hb; simpl in *.
  - split; [assumption|]. destruct Hc as [Hc|(c & rec0 & Hrec & Hc & Hc')].
    + auto.
    + inversion Hrec; subst rec0. right. exists s, c, rec, w'. auto.
  - split; [assumption|]. destruct Hc as [Hc|(c & rec0 & Hrec & _)];
      [auto | discriminate].
Qed.

Lemma init_Ok (a : init_args) (ds : MuskitDataset) :
  __init__ E a = Ok ds →
  ∃ ld di mcs,
    init_loaders E (a_float_dtype a) (a_path_name_type_list a) [] [] = Ok (ld, di)
    ∧ parse_max_cache_size E (a_max_cache_size a) = Ok mcs
    ∧ init_asserts a = Ok tt
    ∧ ds = mk_MuskitDataset (a_preprocess a) (a_float_dtype a) (a_int_dtype a)
             (a_max_cache_fd a) ld di mcs
             (if Z_lt_num 0 mcs then Some sd_empty else None)
             (a_not_align a) (a_mode a) (a_pitch_aug_min a) (a_pitch_aug_max a)
             (a_pitch_mean a) (a_time_aug_min a) (a_time_aug_max a)
             (a_random_crop a) (a_mask_aug a).
Proof.
  unfold __init__. destruct (_ =? _)%nat; [discriminate|]. intros H.
  apply rbind_Ok in H as ([ld di] & Hl & H).
  apply rbind_Ok in H as (mcs & Hm & H).
  apply rbind_Ok in H as ([] & Ha & H). inversion H; subst.
  exists ld, di, mcs. auto.
Qed.

Lemma init_cache_empty (a : init_args) (ds : MuskitDataset) (s : string) :
  __init__ E a = Ok ds → cache_lookup ds s = None.
Proof.
  intros H. apply init_Ok in H as (ld & di & mcs & _ & _ & _ & ->).
  unfold cache_lookup. simpl. destruct (Z_lt_num 0 mcs); [|reflexivity].
  simpl. apply lookup_empty.
Qed.

(** A property of records that every record built under a configuration
    has holds of every record a reachable cache contains. *)
Lemma reachable_cache (P : MuskitDataset → odict pyval → Prop)
    (a : init_args) (w : world) :
  (∀ s w0 rec w1,
      build_record E s w0 = (Ok rec, w1) → P (frozen (w_self w0)) rec) →
  reachable E a w →
  ∃ ds0,
    __init__ E a = Ok ds0
    ∧ frozen (w_self w) = frozen ds0
    ∧ ∀ s rec, cache_lookup (w_self w) s = Some rec → P (frozen ds0) rec.
Proof.
  intros Hbuild Hreach.
  induction Hreach as [ds g Hinit | w uid g Hreach (ds0 & Hinit & Hfr & Hc)].
  - exists ds. split; [assumption|]. split; [reflexivity|].
    intros s rec Hl. simpl in Hl.
    rewrite (init_cache_empty _ _ s Hinit) in Hl. discriminate.
  - exists ds0. split; [assumption|].
    set (w1 := mk_world (w_self w) g (w_log w)).
    pose proof (getitem_world uid w1) as [Hf Hcache]. simpl in Hf.
    split; [congruence|].
    intros s rec Hl. unfold cache_lookup in Hl.
    destruct Hcache as [Heq|(s0 & c & rec0 & w' & Hb & Hc0 & Hc1)].
    + rewrite Heq in Hl. apply (Hc s). exact Hl.
    + rewrite Hc1 in Hl. simpl in Hl.
      destruct (decide (s0 = s)) as [->|Hne].
      * rewrite lookup_insert_eq in Hl. inversion Hl; subst rec0.
        rewrite <- Hfr. apply (Hbuild _ _ _ _ Hb).
      * rewrite lookup_insert_ne in Hl by assumption.
        apply (Hc s). unfold cache_lookup. simpl in Hc0. rewrite Hc0. exact Hl.
Qed.

Lemma attach_aug_pitch (data : odict pyval) (p : Z) (t : pyval) :
  od_get (attach_aug data p t) "pitch_aug" = Some (VNd (np_array1 (VInt p))).
Proof. unfold attach_aug. rewrite !od_get_set. reflexivity. Qed.

Lemma attach_aug_time (data : odict pyval) (p : Z) (t : pyval) :
  od_get (attach_aug data p t) "time_aug" = Some (VNd (np_array1 t)).
Proof. unfold attach_aug. rewrite !od_get_set. reflexivity. Qed.

Lemma attach_aug_other (data : odict pyval) (p : Z) (t : pyval) (k : string) :
  k ≠ "pitch_aug" → k ≠ "time_aug" →
  od_get (attach_aug data p t) k = od_get data k.
Proof.
  intros Hp Ht. unfold attach_aug. rewrite !od_get_set.
  destruct (String.eqb_spec "time_aug" k) as [<-|_]; [congruence|].
  destruct (String.eqb_spec "pitch_aug" k) as [<-|_]; [congruence|].
  reflexivity.
Qed.

(** The lengths in a record that was just built. *)
Lemma build_record_lengths (uid : string) (w w' : world) (rec : odict pyval) :
  build_record E uid w = (Ok rec, w') →
  ∃ p t data w1 lens m crop,
    assemble E uid w = (Ok (p, t, data), w1)
    ∧ aligned_lengths (not_align (w_self w)) data = Ok lens
    ∧ py_min lens = Ok m
    ∧ match crop with
      | Some (b, e) =>
          (String.eqb (mode (w_self w)) "train" && random_crop (w_self w) = true)
          ∧ 0 ≤ b ∧ b ≤ e ∧ e ≤ m
          ∧ ∃ bound, py_int (float_of_Z m * 0.8)%float = Ok bound
                     ∧ bound ≤ e - b ≤ m
      | None =>
          String.eqb (mode (w_self w)) "train" && random_crop (w_self w) = false
      end
    ∧ ∀ k v, str_in k (not_align (w_self w)) = false →
             k ≠ "pitch_aug" → k ≠ "time_aug" →
             od_get rec k = Some v → py_len v = Ok (final_length m crop).
Proof.
  intros H.
  apply build_record_Ok in H as (p & t & data & w1 & data2 & w2 & Ha & Hal & Hf & _).
  pose proof (stable_assemble E uid w) as Hst. rewrite Ha in Hst. simpl in Hst.
  pose proof (stable_proj not_align _ _ ltac:(reflexivity) Hst) as Hna.
  pose proof (stable_proj mode _ _ ltac:(reflexivity) Hst) as Hmode.
  pose proof (stable_proj random_crop _ _ ltac:(reflexivity) Hst) as Hrc.
  apply align_Ok in Hal as (lens & m & mask & crop & w3 & Hl & Hm & Hmask & Hcrop & Hloop).
  pose proof (quiet_choose_mask m w1) as Hq. rewrite Hmask in Hq.
  destruct Hq as [Hq _]. simpl in Hq.
  assert (Hm0 : 0 ≤ m).
  { pose proof (aligned_lengths_nonneg _ _ _ Hl) as Hnn.
    rewrite Forall_forall in Hnn.
    apply Hnn, list_elem_of_In, (py_min_spec _ _ Hm). }
  apply choose_crop_Ok in Hcrop; [|exact Hm0]. rewrite Hq, Hmode, Hrc in Hcrop.
  rewrite Hna in Hl, Hloop.
  exists p, t, data, w1, lens, m, crop.
  split; [assumption|]. split; [assumption|]. split; [assumption|].
  split; [exact Hcrop|].
  intros k v Hk Hp Ht Hget.
  pose proof (align_loop_len _ _ _ _ _ _ _ Hl Hm Hloop) as [_ Hlen].
  pose proof (force_precision_get E _ _ _ k Hf) as Hrel.
  rewrite Hget, attach_aug_other in Hrel by assumption.
  destruct (od_get data2 k) as [v0|] eqn:Hv0; [|contradiction].
  apply force_value_key_len in Hrel as [_ Hrel]. simpl in Hrel.
  rewrite Hrel. eapply Hlen; eassumption.
Qed.




(** The two augmentation fields of a record that was just built. *)
Lemma build_record_aug (uid : string) (w w' : world) (rec : odict pyval) :
  build_record E uid w = (Ok rec, w') →
  ∃ p t w0 vp vt,
    sample_aug E uid w = (Ok (p, t), w0)
    ∧ od_get rec "pitch_aug" = Some vp
    ∧ od_get rec "time_aug" = Some vt
    ∧ force_value E (w_self w) ("pitch_aug", VNd (np_array1 (VInt p)))
      = Ok ("pitch_aug", vp)
    ∧ force_value E (w_self w) ("time_aug", VNd (np_array1 t))
      = Ok ("time_aug", vt).
Proof.
  intros H.
  apply build_record_Ok in H as (p & t & data & w1 & data2 & w2 & Ha & Hal & Hf & _).
  pose proof (stable_assemble E uid w) as Hst. rewrite Ha in Hst. simpl in Hst.
  pose proof (quiet_align data w1) as Hq. rewrite Hal in Hq.
  destruct Hq as [Hq _]. simpl in Hq.
  assert (Hfv : ∀ kv, force_value E (w_self w2) kv = force_value E (w_self w) kv).
  { intros [k v]. unfold force_value. rewrite Hq.
    rewrite (stable_proj float_dtype _ _ ltac:(reflexivity) Hst).
    rewrite (stable_proj int_dtype _ _ ltac:(reflexivity) Hst). reflexivity. }
  apply assemble_Ok in Ha as (w0 & raw & w3 & Hs & _).
  pose proof (force_precision_get E _ _ _ "pitch_aug" Hf) as Hp.
  pose proof (force_precision_get E _ _ _ "time_aug" Hf) as Ht.
  rewrite attach_aug_pitch in Hp. rewrite attach_aug_time in Ht.
  destruct (od_get rec "pitch_aug") as [vp|]; [|contradiction].
  destruct (od_get rec "time_aug") as [vt|]; [|contradiction].
  rewrite Hfv in Hp, Ht.
  exists p, t, w0, vp, vt. auto.
Qed.

End Records.

(** ** Records and the cache *)

Section Claims.

Context (E : externals).

(** The configuration of a reachable dataset is the one it was given. *)
Lemma reachable_config (a : init_args) (w : world) :
  reachable E a w →
  mode (w_self w) = a_mode a
  ∧ not_align (w_self w) = a_not_align a
  ∧ int_dtype (w_self w) = a_int_dtype a
  ∧ random_crop (w_self w) = a_random_crop a
  ∧ pitch_aug_min (w_self w) = a_pitch_aug_min a
  ∧ pitch_aug_max (w_self w) = a_pitch_aug_max a
  ∧ pitch_mean (w_self w) = a_pitch_mean a.
Proof.
  intros H.
  destruct (reachable_cache E (λ _ _, True) a w (λ _ _ _ _ _, I) H)
    as (ds0 & Hinit & Hfr & _).
  apply init_Ok in Hinit as (ld & di & mcs & _ & _ & _ & ->).
  repeat split.
  - apply (f_equal mode) in Hfr. exact Hfr.
  - apply (f_equal not_align) in Hfr. exact Hfr.
  - apply (f_equal int_dtype) in Hfr. exact Hfr.
  - apply (f_equal random_crop) in Hfr. exact Hfr.
  - apply (f_equal pitch_aug_min) in Hfr. exact Hfr.
  - apply (f_equal pitch_aug_max) in Hfr. exact Hfr.
  - apply (f_equal pitch_mean) in Hfr. exact Hfr.
Qed.

(** A successful call either found the record in the cache and left the
    world alone, or built it. *)
Lemma getitem_Ok (uid : uid_arg) (w w' : world) (s : string)
    (rec : odict pyval) :
  __getitem__ E uid w = (Ok (s, rec), w') →
  fst (resolve_uid uid w) = Ok s
  ∧ ((cache_lookup (w_self w) s = Some rec ∧ w' = w)
     ∨ (cache_lookup (w_self w) s = None
        ∧ build_record E s w = (Ok rec, w'))).
Proof.
  unfold __getitem__. intros H.
  apply bind_Ok in H as (s0 & w0 & Hr & H).
  pose proof (resolve_uid_world uid w) as Hw. rewrite Hr in Hw. simpl in Hw.
  subst w0. rewrite Hr. simpl.
  apply bind_Ok in H as (ds & w0 & Hds & H).
  apply get_self_Ok in Hds as [-> ->].
  destruct (cache_lookup (w_self w) s0) as [data|] eqn:Hc.
  - apply ret_Ok in H as [H ->]. inversion H; subst. auto.
  - apply bind_Ok in H as (data & w1 & Hb & H).
    apply ret_Ok in H as [H ->]. inversion H; subst. auto.
Qed.

(** C10. When the requested id is in the cache, [__getitem__] returns the
    cached record and leaves the world as it found it: the random generator
    has not advanced (no sampling), no loader was queried and no
    preprocessing ran (the log and the loaders are unchanged), and the cache
    is unchanged.  Hence once a fetch has stored its record (the cache
    exists and is under its budget), every later fetch of that id returns
    that very record, with the same [pitch_aug] and [time_aug], whatever the
    random generator then holds, in training mode too. *)
Theorem C10_cache_short_circuit :
  (∀ uid w s rec,
      fst (resolve_uid uid w) = Ok s →
      cache_lookup (w_self w) s = Some rec →
      __getitem__ E uid w = (Ok (s, rec), w))
  ∧ (∀ uid w s rec w' c g,
        __getitem__ E uid w = (Ok (s, rec), w') →
        cache (w_self w) = Some c →
        Z_lt_num (sd_size c) (max_cache_size (w_self w)) = true →
        __getitem__ E (UidStr s) (mk_world (w_self w') g (w_log w'))
        = (Ok (s, rec), mk_world (w_self w') g (w_log w'))).
Proof.
  assert (Hhit : ∀ uid w s rec,
      fst (resolve_uid uid w) = Ok s →
      cache_lookup (w_self w) s = Some rec →
      __getitem__ E uid w = (Ok (s, rec), w)).
  { intros uid w s rec Hr Hc. unfold __getitem__, bind.
    pose proof (resolve_uid_world uid w) as Hw.
    destruct (resolve_uid uid w) as [r w0]. simpl in *. subst r w0.
    unfold get_self. rewrite Hc. reflexivity. }
  split; [exact Hhit|].
  intros uid w s rec w' c g H Hc Hlt.
  apply Hhit; [reflexivity|]. simpl.
  apply getitem_Ok in H as [_ [[Hl ->]|[_ Hb]]]; [exact Hl|].
  apply build_record_Ok in Hb
    as (p & t & data & w1 & data2 & w2 & Ha & Hal & _ & Hst).
  pose proof (stable_assemble E s w) as H1. rewrite Ha in H1. simpl in H1.
  pose proof (quiet_align data w1) as H2. rewrite Hal in H2.
  destruct H2 as [H2 _]. simpl in H2.
  pose proof (stable_proj max_cache_size _ _ ltac:(reflexivity) H1) as Hmax.
  apply stable_frozen in H1 as [_ Hcache].
  unfold cache_store in Hst. rewrite H2, Hcache, Hc, Hmax, Hlt in Hst.
  inversion Hst; subst w'. unfold cache_lookup. simpl.
  apply lookup_insert_eq.
Qed.

(** C3. Outside training mode, every record [__getitem__] returns carries
    [pitch_aug] = the array [0] and [time_aug] = the array [1], each
    converted to the dataset's integer dtype; the pitch and time bounds and
    the random generator play no part.  The elements are 0 and 1 themselves
    as soon as the conversion keeps these two integers. *)
Theorem C3_identity_augmentation (a : init_args) (w w' : world)
    (uid : uid_arg) (s : string) (rec : odict pyval) :
  reachable E a w →
  a_mode a ≠ "train" →
  __getitem__ E uid w = (Ok (s, rec), w') →
  ∃ a0 a1,
    astype E (a_int_dtype a) (np_array1 (VInt 0)) = Ok a0
    ∧ astype E (a_int_dtype a) (np_array1 (VInt 1)) = Ok a1
    ∧ od_get rec "pitch_aug" = Some (VNd a0)
    ∧ od_get rec "time_aug" = Some (VNd a1)
    ∧ (np_cast E (a_int_dtype a) (SInt 0) = SInt 0 →
       nd_body a0 = Node [Leaf (SInt 0)])
    ∧ (np_cast E (a_int_dtype a) (SInt 1) = SInt 1 →
       nd_body a1 = Node [Leaf (SInt 1)]).
Proof.
  intros Hreach Hmode Hget.
  set (P := λ (ds : MuskitDataset) (rec : odict pyval),
         mode ds ≠ "train" →
         ∃ a0 a1,
           astype E (int_dtype ds) (np_array1 (VInt 0)) = Ok a0
           ∧ astype E (int_dtype ds) (np_array1 (VInt 1)) = Ok a1
           ∧ od_get rec "pitch_aug" = Some (VNd a0)
           ∧ od_get rec "time_aug" = Some (VNd a1)).
  assert (Hbuild : ∀ s w0 rec w1,
             build_record E s w0 = (Ok rec, w1) → P (frozen (w_self w0)) rec).
  { clear. intros s w0 rec w1 Hb Hm. simpl in Hm.
    apply build_record_aug in Hb as (p & t & w2 & vp & vt & Hs & Hp & Ht & Hfp & Hft).
    unfold sample_aug in Hs.
    apply bind_Ok in Hs as (ds & w3 & Hds & Hs).
    apply get_self_Ok in Hds as [-> ->].
    destruct (String.eqb_spec (mode (w_self w0)) "train") as [|_];
      [contradiction|].
    apply ret_Ok in Hs as [Hs _]. inversion Hs; subst p t.
    unfold force_value in Hfp, Hft. simpl in Hfp, Hft.
    apply rbind_Ok in Hfp as (a0 & Ha0 & Hfp).
    apply rbind_Ok in Hft as (a1 & Ha1 & Hft).
    inversion Hfp; inversion Hft; subst.
    exists a0, a1. auto. }
  destruct (reachable_cache E P a w Hbuild Hreach) as (ds0 & Hinit & Hfr & Hc).
  pose proof (reachable_config a w Hreach) as (Hm & _ & Hid & _).
  assert (HP : P (frozen ds0) rec).
  { apply getitem_Ok in Hget as [_ [[Hl _]|[_ Hb]]].
    - eapply Hc, Hl.
    - rewrite <- Hfr. eapply Hbuild, Hb. }
  assert (Hm0 : mode (frozen ds0) ≠ "train").
  { rewrite <- Hfr. simpl. congruence. }
  destruct (HP Hm0) as (a0 & a1 & Ha0 & Ha1 & Hp & Ht).
  assert (Hd : int_dtype (frozen ds0) = a_int_dtype a).
  { rewrite <- Hfr. exact Hid. }
  rewrite Hd in Ha0, Ha1.
  exists a0, a1. repeat split; try assumption.
  - intros Hk. unfold astype in Ha0.
    destruct (np_dtype_kind E (a_int_dtype a)); [|discriminate].
    inversion Ha0; subst. simpl. rewrite Hk. reflexivity.
  - intros Hk. unfold astype in Ha1.
    destruct (np_dtype_kind E (a_int_dtype a)); [|discriminate].
    inversion Ha1; subst. simpl. rewrite Hk. reflexivity.
Qed.


(** ** Loader queries *)

Lemma query_log (name : string) (key v : pyval) (w w' : world) :
  query E name key w = (Ok v, w') →
  w_log w' = w_log w ++ [EvQuery name key].
Proof.
  unfold query. destruct (od_get _ name) as [l|]; [|discriminate].
  destruct (loader_getitem E l key) as [r l']. intros H. inversion H. reflexivity.
Qed.

Lemma quiet_Ok {A} (m : M A) (w w' : world) (a : A) :
  pres quiet m → m w = (Ok a, w') → w_log w' = w_log w ∧ w_self w' = w_self w.
Proof. intros H Hm. specialize (H w). rewrite Hm in H. destruct H. auto. Qed.

Lemma pitch_gap_log (uid : string) (gap : Z) (w w' : world) :
  pitch_gap E uid w = (Ok gap, w') →
  w_log w' = w_log w ++ [EvQuery "midi" (VTuple [VStr uid; VInt 0; VInt 1])].
Proof.
  unfold pitch_gap. intros H.
  apply bind_Ok in H as (ds & w0 & Hds & H).
  apply get_self_Ok in Hds as [-> ->].
  apply bind_Ok in H as (value & w1 & Hq & H).
  apply query_log in Hq. rewrite <- Hq.
  eapply (quiet_Ok _ w1 w' gap); [|exact H]. pres_tac.
Qed.

Lemma sample_pitch_aug_log (uid : string) (p : Z) (w w' : world) :
  sample_pitch_aug E uid w = (Ok p, w') →
  w_log w' = w_log w
    ++ (if negb (String.eqb (pitch_mean (w_self w)) "None")
        then [EvQuery "midi" (VTuple [VStr uid; VInt 0; VInt 1])] else []).
Proof.
  unfold sample_pitch_aug. intros H.
  apply bind_Ok in H as (ds & w0 & Hds & H).
  apply get_self_Ok in Hds as [-> ->].
  destruct (negb (String.eqb (pitch_mean (w_self w)) "None")).
  - apply bind_Ok in H as (gap & w1 & Hg & H).
    apply pitch_gap_log in Hg. rewrite <- Hg.
    eapply (quiet_Ok _ w1 w' p); [|exact H]. pres_tac.
  - rewrite app_nil_r. eapply (quiet_Ok _ w w' p); [|exact H]. pres_tac.
Qed.

Lemma sample_aug_log (uid : string) (p : Z) (t : pyval) (w w' : world) :
  sample_aug E uid w = (Ok (p, t), w') →
  w_log w' = w_log w
    ++ (if String.eqb (mode (w_self w)) "train"
           && negb (String.eqb (pitch_mean (w_self w)) "None")
        then [EvQuery "midi" (VTuple [VStr uid; VInt 0; VInt 1])] else []).
Proof.
  unfold sample_aug. intros H.
  apply bind_Ok in H as (ds & w0 & Hds & H).
  apply get_self_Ok in Hds as [-> ->].
  destruct (String.eqb (mode (w_self w)) "train"); simpl.
  - apply bind_Ok in H as (p0 & w1 & Hp & H).
    apply sample_pitch_aug_log in Hp. rewrite <- Hp.
    eapply (quiet_Ok _ w1 w' (p, t)); [|exact H]. pres_tac.
  - apply ret_Ok in H as [_ ->]. rewrite app_nil_r. reflexivity.
Qed.

Lemma load_value_log (uid : string) (p : Z) (name : string) (v : pyval)
    (w w' : world) :
  load_value E uid p name w = (Ok v, w') →
  w_log w' = w_log w ++ [EvQuery name (query_key name uid p)].
Proof.
  unfold load_value. intros H.
  apply bind_Ok in H as (value & w1 & Hq & H).
  apply query_log in Hq. rewrite <- Hq.
  eapply (quiet_Ok _ w1 w' v); [|exact H]. pres_tac.
Qed.

Lemma load_data_log (uid : string) (p : Z) (names : list string)
    (data data' : odict pyval) (w w' : world) :
  load_data E uid p names data w = (Ok data', w') →
  w_log w' = w_log w ++ map (λ name, EvQuery name (query_key name uid p)) names.
Proof.
  revert data w. induction names as [|name rest IH]; intros data w H; simpl in *.
  - apply ret_Ok in H as [_ ->]. rewrite app_nil_r. reflexivity.
  - apply bind_Ok in H as (v & w1 & Hv & H).
    apply load_value_log in Hv. apply IH in H. rewrite H, Hv.
    rewrite <- app_assoc. reflexivity.
Qed.

Lemma apply_preprocess_log (uid : string) (data data' : odict pyval)
    (t : pyval) (w w' : world) :
  apply_preprocess uid data t w = (Ok data', w') →
  w_log w' = w_log w
    ++ match preprocess (w_self w) with
       | Some _ => [EvPreprocess uid t]
       | None => []
       end.
Proof.
  unfold apply_preprocess. intros H.
  apply bind_Ok in H as (ds & w0 & Hds & H).
  apply get_self_Ok in Hds as [-> ->].
  destruct (preprocess (w_self w)) as [f|].
  - apply bind_Ok in H as ([] & w1 & Hl & H).
    unfold log in Hl. inversion Hl; subst w1.
    apply lift_Ok in H as [_ ->]. reflexivity.
  - apply ret_Ok in H as [_ ->]. rewrite app_nil_r. reflexivity.
Qed.

Lemma cache_store_log (uid : string) (data : odict pyval) (w : world) :
  w_log (snd (cache_store E uid data w)) = w_log w.
Proof.
  unfold cache_store. destruct (cache (w_self w)) as [c|]; [|reflexivity].
  destruct (Z_lt_num _ _); reflexivity.
Qed.

(** C4, as the code has it.  A call that builds a record queries every
    loader once, in the order of declaration, after the two factors are
    sampled.  The loaders named [midi] and [singing] are queried with the
    triple (id, pitch factor, 1): the time factor is pinned to 1 for both,
    in every mode.  All other loaders are queried with the bare id.  The
    sampled time factor goes to the preprocessing function only.  Outside
    training mode the pitch factor is 0, the time factor is 1 and sampling
    queries nothing. *)
Theorem C4_loader_queries (uid : uid_arg) (w w' : world) (s : string)
    (rec : odict pyval) :
  __getitem__ E uid w = (Ok (s, rec), w') →
  cache_lookup (w_self w) s = None →
  ∃ p t w0,
    sample_aug E s w = (Ok (p, t), w0)
    ∧ w_log w' =
        w_log w0
        ++ map (λ name, EvQuery name (query_key name s p)) (names (w_self w))
        ++ match preprocess (w_self w) with
           | Some _ => [EvPreprocess s t]
           | None => []
           end
    ∧ query_key "singing" s p = VTuple [VStr s; VInt p; VInt 1]
    ∧ query_key "midi" s p = VTuple [VStr s; VInt p; VInt 1]
    ∧ (∀ name, name ≠ "midi" → name ≠ "singing" → query_key name s p = VStr s)
    ∧ (mode (w_self w) ≠ "train" → p = 0 ∧ t = VInt 1 ∧ w_log w0 = w_log w).
Proof.
  intros H Hmiss.
  apply getitem_Ok in H as [_ [[Hl _]|[_ Hb]]]; [congruence|].
  apply build_record_Ok in Hb
    as (p & t & data & w1 & data2 & w2 & Ha & Hal & _ & Hst).
  apply assemble_Ok in Ha as (w0 & raw & w3 & Hs & Hld & Hpre).
  exists p, t, w0. split; [exact Hs|].
  pose proof (stable_sample_aug E s w) as Hst0. rewrite Hs in Hst0.
  simpl in Hst0.
  pose proof (stable_load_data E s p (od_keys (loader_dict (w_self w0))) [] w0)
    as Hst1. rewrite Hld in Hst1. simpl in Hst1.
  assert (Hpp : preprocess (w_self w3) = preprocess (w_self w)).
  { rewrite (stable_proj preprocess _ _ ltac:(reflexivity) Hst1).
    apply (stable_proj preprocess _ _ ltac:(reflexivity) Hst0). }
  apply load_data_log in Hld. apply apply_preprocess_log in Hpre.
  apply (quiet_Ok _ _ _ _ (quiet_align data)) in Hal as [Hal _].
  pose proof (cache_store_log s rec w2) as Hcs. rewrite Hst in Hcs.
  simpl in Hcs.
  split.
  { rewrite Hcs, Hal, Hpre, Hld, Hpp. unfold names.
    destruct Hst0 as [_ ->]. rewrite <- app_assoc. reflexivity. }
  split; [reflexivity|]. split; [reflexivity|].
  split.
  { intros name Hm Hsg. unfold query_key.
    destruct (String.eqb_spec name "midi"); [contradiction|].
    destruct (String.eqb_spec name "singing"); [contradiction|].
    reflexivity. }
  intros Hmode. unfold sample_aug in Hs.
  apply bind_Ok in Hs as (ds & w4 & Hds & Hs).
  apply get_self_Ok in Hds as [-> ->].
  destruct (String.eqb_spec (mode (w_self w)) "train"); [contradiction|].
  apply ret_Ok in Hs as [Hs ->]. inversion Hs; subst. auto.
Qed.

(** ** Pitch sampling *)

Lemma gap_list_spec (gap v : Z) :
  In v (gap_list gap) ↔ Z.min 0 gap ≤ v ≤ Z.max 0 gap.
Proof.
  unfold gap_list, py_range. rewrite <- list_elem_of_In.
  destruct (Z.eqb_spec gap 0) as [->|Hne].
  - rewrite list_elem_of_singleton. lia.
  - destruct (Z.ltb_spec gap 0); rewrite elem_of_seqZ; lia.
Qed.

Lemma randint_attain (a b v : Z) (ds : MuskitDataset) (lg : list event) :
  a ≤ v ≤ b →
  ∃ g w', randint a b (mk_world ds g lg) = (Ok v, w').
Proof.
  intros Hv. exists (mk_rng (λ _, v - a) 0). eexists.
  unfold randint. destruct (Z.leb_spec a b); [|lia].
  unfold bind, draw, ret. simpl.
  rewrite Z.mod_small by lia. replace (a + (v - a)) with v by lia.
  reflexivity.
Qed.

Lemma sample1_attain {A} (lst : list A) (v : A) (ds : MuskitDataset)
    (lg : list event) :
  In v lst →
  ∃ g w', sample1 lst (mk_world ds g lg) = (Ok v, w').
Proof.
  intros Hin. apply list_elem_of_In, list_elem_of_lookup in Hin as [i Hi].
  pose proof (lookup_lt_Some _ _ _ Hi) as Hlt.
  exists (mk_rng (λ _, Z.of_nat i) 0). eexists.
  unfold sample1. destruct lst as [|x lst]; [simpl in Hlt; lia|].
  unfold bind, draw, lift. simpl w_rng. simpl draws. simpl pos.
  unfold py_index. rewrite Z.mod_small by lia.
  destruct (Z.ltb_spec (Z.of_nat i) 0); [lia|].
  destruct (Z.leb_spec 0 (Z.of_nat i)); [|lia].
  destruct (Z.ltb_spec (Z.of_nat i) (Z.of_nat (length (x :: lst)))); [|lia].
  simpl andb. cbv iota. rewrite Nat2Z.id, Hi. reflexivity.
Qed.

(** C6. In training mode the pitch factor of a record is the one
    [sample_pitch_aug] draws.  With the pitch-mean target disabled it is an
    integer of [pitch_aug_min..pitch_aug_max], and every integer of that
    range is drawn for some state of the random generator (with bounds -2
    and 2: always within [-2, 2], and not always 0).  With a target
    configured it is an integer between 0 and [gap], whichever of the two is
    smaller coming first, every such integer being drawn for some state of
    the generator; for a scalar target, [gap] is
    [int(float(pitch_mean) - np.mean(note_seq))], where [note_seq] is what
    the MIDI loader returns for pitch factor 0 and time factor 1. *)
Theorem C6_pitch_factor (uid : string) (w w' : world) (p : Z) (t : pyval) :
  mode (w_self w) = "train" →
  sample_aug E uid w = (Ok (p, t), w') →
  (∃ w1, sample_pitch_aug E uid w = (Ok p, w1))
  ∧ (pitch_mean (w_self w) = "None" →
     pitch_aug_min (w_self w) ≤ p ≤ pitch_aug_max (w_self w)
     ∧ ∀ v, pitch_aug_min (w_self w) ≤ v ≤ pitch_aug_max (w_self w) →
            ∃ g w2, sample_pitch_aug E uid (mk_world (w_self w) g (w_log w))
                    = (Ok v, w2))
  ∧ (pitch_mean (w_self w) ≠ "None" →
     ∃ gap w1,
       pitch_gap E uid w = (Ok gap, w1)
       ∧ Z.min 0 gap ≤ p ≤ Z.max 0 gap
       ∧ (∀ v, Z.min 0 gap ≤ v ≤ Z.max 0 gap →
               ∃ g w2, sample1 (gap_list gap)
                         (mk_world (w_self w1) g (w_log w1)) = (Ok v, w2))
       ∧ (∀ x, py_eval E (pitch_mean (w_self w)) = Ok (VFloat x) →
               ∃ value note_seq tempo_seq mean target,
                 fst (query E "midi" (VTuple [VStr uid; VInt 0; VInt 1]) w)
                 = Ok value
                 ∧ unpack2 value = Ok (note_seq, tempo_seq)
                 ∧ np_mean E note_seq = Ok mean
                 ∧ py_float E (pitch_mean (w_self w)) = Ok target
                 ∧ py_int (target - mean)%float = Ok gap)).
Proof.
  intros Hmode Hs. unfold sample_aug in Hs.
  apply bind_Ok in Hs as (ds & w0 & Hds & Hs).
  apply get_self_Ok in Hds as [-> ->].
  rewrite Hmode in Hs. simpl in Hs.
  apply bind_Ok in Hs as (p0 & w1 & Hp & Hs).
  apply bind_Ok in Hs as (tl & w2 & _ & Hs).
  apply bind_Ok in Hs as (t0 & w3 & _ & Hs).
  apply ret_Ok in Hs as [Hs _]. inversion Hs; subst p0 t. clear Hs.
  split; [eauto|].
  unfold sample_pitch_aug in Hp.
  apply bind_Ok in Hp as (ds & w4 & Hds & Hp).
  apply get_self_Ok in Hds as [-> ->].
  split.
  - intros Hnone. rewrite Hnone in Hp. simpl in Hp.
    split; [eapply randint_range, Hp|].
    intros v Hv.
    destruct (randint_attain _ _ v (w_self w) (w_log w) Hv) as (g & w5 & Hr).
    exists g, w5. unfold sample_pitch_aug, bind, get_self. simpl.
    rewrite Hnone. simpl. exact Hr.
  - intros Hsome.
    destruct (String.eqb_spec (pitch_mean (w_self w)) "None") as [|_];
      [contradiction|].
    simpl in Hp. apply bind_Ok in Hp as (gap & w5 & Hg & Hp).
    exists gap, w5. split; [exact Hg|].
    split; [eapply gap_list_spec, sample1_In, Hp|].
    split.
    + intros v Hv. apply sample1_attain, gap_list_spec, Hv.
    + intros x Hx. unfold pitch_gap in Hg.
      apply bind_Ok in Hg as (ds & w6 & Hds & Hg).
      apply get_self_Ok in Hds as [-> ->].
      apply bind_Ok in Hg as (value & w7 & Hq & Hg).
      apply bind_Ok in Hg as ([note_seq tempo_seq] & w8 & Hu & Hg).
      apply lift_Ok in Hu as [Hu ->].
      apply bind_Ok in Hg as (mean & w8 & Hmean & Hg).
      apply lift_Ok in Hmean as [Hmean ->].
      apply bind_Ok in Hg as (target & w8 & Ht & Hg).
      apply lift_Ok in Ht as [Ht ->].
      rewrite Hx in Ht. inversion Ht; subst target. clear Ht.
      apply bind_Ok in Hg as (gpm & w8 & Hgpm & Hg).
      apply bind_Ok in Hgpm as (f & w9 & Hf & Hgpm).
      apply lift_Ok in Hf as [Hf ->].
      apply ret_Ok in Hgpm as [-> ->].
      apply bind_Ok in Hg as (diff & w8 & Hd & Hg).
      apply lift_Ok in Hd as [Hd ->]. simpl in Hd. inversion Hd; subst diff.
      apply lift_Ok in Hg as [Hg _].
      exists value, note_seq, tempo_seq, mean, f.
      rewrite Hq. auto.
Qed.

End Claims.

(** ** Construction *)

Section Construction.

Context (E : externals).

Lemma init_loaders_app (fd : string) (l1 l2 : list (string * string * string))
    (ld : odict loader) (di : odict (string * string)) :
  init_loaders E fd (l1 ++ l2) ld di
  = rbind (init_loaders E fd l1 ld di)
          (λ r, init_loaders E fd l2 (fst r) (snd r)).
Proof.
  revert ld di. induction l1 as [|[[path name] t] l1 IH]; intros ld di; simpl.
  - reflexivity.
  - destruct (od_mem ld name); [reflexivity|].
    destruct (_build_loader E fd path t) as [l|e]; simpl; [|reflexivity].
    destruct (loader_len l =? 0); [reflexivity|]. apply IH.
Qed.

Lemma init_loaders_keys (fd : string) (l : list (string * string * string))
    (ld ld' : odict loader) (di di' : odict (string * string)) :
  init_loaders E fd l ld di = Ok (ld', di') →
  od_keys ld' = od_keys ld ++ map decl_name l
  ∧ (NoDup (od_keys ld) → NoDup (od_keys ld')).
Proof.
  revert ld di. induction l as [|[[path name] t] l IH]; intros ld di H;
    simpl in H.
  - inversion H; subst. rewrite app_nil_r. auto.
  - destruct (od_mem ld name) eqn:Hmem; [discriminate|].
    apply rbind_Ok in H as (lo & Hlo & H).
    destruct (loader_len lo =? 0); [discriminate|].
    apply IH in H as [Hk Hnd].
    rewrite (od_keys_set_fresh _ _ _ Hmem) in Hk, Hnd.
    split.
    + rewrite Hk, <- app_assoc. reflexivity.
    + intros Hld. apply Hnd. apply NoDup_app. split; [exact Hld|].
      split.
      * intros x Hx Hx'. apply list_elem_of_singleton in Hx'. subst x.
        apply list_elem_of_In, od_mem_keys in Hx. congruence.
      * apply NoDup_singleton.
Qed.

(** The first entry of [loader_dict] stays the first. *)
Lemma init_loaders_head (fd : string) (l : list (string * string * string))
    (k : string) (v : loader) (ld ld' : odict loader)
    (di di' : odict (string * string)) :
  init_loaders E fd l ((k, v) :: ld) di = Ok (ld', di') →
  ∃ tl, ld' = (k, v) :: tl.
Proof.
  revert ld di. induction l as [|[[path name] t] l IH]; intros ld di H;
    simpl in H.
  - inversion H; subst. eauto.
  - unfold od_mem in H. simpl in H.
    destruct (String.eqb k name) eqn:Hk; [discriminate|].
    destruct (od_get ld name); [discriminate|].
    apply rbind_Ok in H as (lo & Hlo & H).
    destruct (loader_len lo =? 0); [discriminate|].
    eapply IH, H.
Qed.

Lemma build_loader_sound (fd path : string) :
  _build_loader E fd path "sound"
  = rbind (open_native E sound_loader path "sound") (λ n,
      Ok (AdapterForSoundScpReader n (Some fd) None)).
Proof. reflexivity. Qed.

Lemma build_loader_duration (fd path : string) :
  _build_loader E fd path "duration"
  = rbind (open_native E label_loader path "duration") (λ n,
      Ok (AdapterForLabelScpReader n)).
Proof. reflexivity. Qed.

Lemma init_asserts_spec (a : init_args) :
  init_asserts a = Ok tt
  ↔ a_pitch_aug_min a ≤ a_pitch_aug_max a
    ∧ PrimFloat.leb (a_time_aug_min a) (a_time_aug_max a) = true
    ∧ (a_pitch_mean a ≠ "None" →
       a_pitch_aug_min a = 0 ∧ a_pitch_aug_max a = 0).
Proof.
  unfold init_asserts.
  destruct (Z.leb_spec (a_pitch_aug_min a) (a_pitch_aug_max a)); simpl;
    [|split; [discriminate | lia]].
  destruct (PrimFloat.leb (a_time_aug_min a) (a_time_aug_max a)); simpl;
    [|split; [discriminate | intros (_ & ? & _); discriminate]].
  destruct (String.eqb_spec (a_pitch_mean a) "None") as [Hn|Hn]; simpl.
  - split; [|reflexivity]. intros _. split; [assumption|].
    split; [reflexivity | contradiction].
  - destruct (Z.eqb_spec (a_pitch_aug_min a) 0); simpl;
      [|split; [discriminate | intros (_ & _ & Hz); destruct (Hz Hn); lia]].
    destruct (Z.eqb_spec (a_pitch_aug_max a) 0); simpl;
      [|split; [discriminate | intros (_ & _ & Hz); destruct (Hz Hn); lia]].
    split; [|reflexivity]. intros _. auto.
Qed.

Lemma init_asserts_Err (a : init_args) (e : exn) :
  init_asserts a = Err e → e = AssertionError.
Proof.
  unfold init_asserts.
  repeat match goal with
         | |- context [if ?b then _ else _] => destruct b
         end; intros H; inversion H; reflexivity.
Qed.

(** C8. A list of declarations in which a modality name occurs twice never
    yields a dataset: [__init__] raises, so no record can ever be fetched.
    When the declarations before the second occurrence of the name load
    (each has a registered type and a non-empty index), the exception is the
    one for the duplicated key. *)
Theorem C8_duplicate_name (a : init_args) :
  ¬ NoDup (map decl_name (a_path_name_type_list a)) →
  (∃ e, __init__ E a = Err e)
  ∧ (∀ w, ¬ reachable E a w)
  ∧ (∀ pre path name _type post,
       a_path_name_type_list a = pre ++ (path, name, _type) :: post →
       In name (map decl_name pre) →
       is_ok (init_loaders E (a_float_dtype a) pre [] []) = true →
       __init__ E a = Err (DuplicatedDataKey name)).
Proof.
  intros Hdup.
  assert (Hfail : ∀ ds, __init__ E a ≠ Ok ds).
  { intros ds H. apply init_Ok in H as (ld & di & mcs & Hl & _).
    apply init_loaders_keys in Hl as [Hk Hnd]. simpl in Hk.
    apply Hdup. rewrite <- Hk. apply Hnd. constructor. }
  split; [|split].
  - destruct (__init__ E a) as [ds|e] eqn:H; [|eauto].
    exfalso. exact (Hfail ds eq_refl).
  - intros w Hw.
    destruct (reachable_cache E (λ _ _, True) a w (λ _ _ _ _ _, I) Hw)
      as (ds0 & Hinit & _).
    eapply Hfail, Hinit.
  - intros pre path name t post Hl Hin Hok.
    unfold __init__. rewrite Hl.
    destruct (length _ =? 0)%nat eqn:Hlen.
    { apply Nat.eqb_eq in Hlen. rewrite length_app in Hlen. simpl in Hlen. lia. }
    rewrite init_loaders_app.
    destruct (init_loaders E (a_float_dtype a) pre [] []) as [[ld di]|e] eqn:Hpre;
      [|discriminate].
    apply init_loaders_keys in Hpre as [Hk _]. simpl in Hk.
    simpl. rewrite <- Hk in Hin. apply od_mem_keys in Hin. rewrite Hin.
    reflexivity.
Qed.

(** C9. Construction succeeds only if [pitch_aug_min <= pitch_aug_max],
    [time_aug_min <= time_aug_max] and, when a pitch-mean target is given
    ([pitch_mean != "None"]), both pitch bounds are 0.  When one of the
    three fails, construction fails; it fails by assertion when it gets as
    far as the checks (the list of declarations is not empty, the loaders
    are built and the cache size is read). *)
Theorem C9_constructor_asserts (a : init_args) :
  (∀ ds, __init__ E a = Ok ds →
     a_pitch_aug_min a ≤ a_pitch_aug_max a
     ∧ PrimFloat.leb (a_time_aug_min a) (a_time_aug_max a) = true
     ∧ (a_pitch_mean a ≠ "None" →
        a_pitch_aug_min a = 0 ∧ a_pitch_aug_max a = 0))
  ∧ (¬ (a_pitch_aug_min a ≤ a_pitch_aug_max a
        ∧ PrimFloat.leb (a_time_aug_min a) (a_time_aug_max a) = true
        ∧ (a_pitch_mean a ≠ "None" →
           a_pitch_aug_min a = 0 ∧ a_pitch_aug_max a = 0)) →
     (∃ e, __init__ E a = Err e)
     ∧ (a_path_name_type_list a ≠ [] →
        is_ok (init_loaders E (a_float_dtype a) (a_path_name_type_list a) [] [])
        = true →
        is_ok (parse_max_cache_size E (a_max_cache_size a)) = true →
        __init__ E a = Err AssertionError)).
Proof.
  split.
  - intros ds H. apply init_Ok in H as (ld & di & mcs & _ & _ & Ha & _).
    apply init_asserts_spec, Ha.
  - intros Hbad.
    assert (Ha : init_asserts a = Err AssertionError).
    { destruct (init_asserts a) as [[]|e] eqn:Ha.
      - exfalso. apply Hbad, init_asserts_spec, Ha.
      - f_equal. eapply init_asserts_Err, Ha. }
    split.
    + destruct (__init__ E a) as [ds|e] eqn:H; [|eauto].
      apply init_Ok in H as (ld & di & mcs & _ & _ & Ha' & _). congruence.
    + intros Hne Hl Hp. unfold __init__.
      destruct (length _ =? 0)%nat eqn:Hlen.
      { apply Nat.eqb_eq in Hlen.
        destruct (a_path_name_type_list a); [contradiction | discriminate]. }
      destruct (init_loaders _ _ _ _ _) as [[ld di]|e]; [|discriminate].
      destruct (parse_max_cache_size _ _) as [mcs|e]; [|discriminate].
      simpl. rewrite Ha. reflexivity.
Qed.

End Construction.

(** ** The consumer interface *)

Section Interface.

Context (E : externals).

(** C5, as the code has it.  For a constructed dataset, [names()] is the
    list of declared modality names in the order of declaration, so every
    declared name is in it, and iterating the dataset yields the ids of the
    loader of the first declaration, which has at least one entry.  No class
    of the dataset defines [__len__]: [len(dataset)] raises [TypeError]. *)
Theorem C5_names_and_iteration (a : init_args) (ds : MuskitDataset) :
  __init__ E a = Ok ds →
  find_method "__len__" = None
  ∧ dataset_len ds = Err TypeError
  ∧ names ds = map decl_name (a_path_name_type_list a)
  ∧ (∀ x, In x (a_path_name_type_list a) → has_name ds (decl_name x) = true)
  ∧ ∃ path name _type rest loader,
      a_path_name_type_list a = (path, name, _type) :: rest
      ∧ _build_loader E (a_float_dtype a) path _type = Ok loader
      ∧ __iter__ ds = Ok (loader_keys loader)
      ∧ 0 < loader_len loader.
Proof.
  intros H.
  pose proof H as H0. unfold __init__ in H0.
  apply init_Ok in H as (ld & di & mcs & Hl & _ & _ & ->).
  pose proof (init_loaders_keys E _ _ _ _ _ _ Hl) as [Hk _]. simpl in Hk.
  split; [reflexivity|]. split; [reflexivity|]. split; [exact Hk|]. split.
  - intros x Hx. unfold has_name. simpl. apply od_mem_keys. rewrite Hk.
    apply in_map, Hx.
  - destruct (a_path_name_type_list a) as [|[[path name] t] rest];
      [discriminate|].
    simpl in Hl. apply rbind_Ok in Hl as (lo & Hlo & Hl).
    destruct (Z.eqb_spec (loader_len lo) 0) as [|Hne]; [discriminate|].
    apply init_loaders_head in Hl as [tl ->].
    exists path, name, t, rest, lo.
    split; [reflexivity|]. split; [exact Hlo|]. split; [reflexivity|].
    unfold loader_len in *. lia.
Qed.

(** C7, at the failing input.  When the native loader returns the pair
    (waveform, rate), the audio adapter raises the unexpected-type error
    and keeps the rate it remembered: the second test of the tuple repeats
    the first, so the branch that would swap the pair is never taken. *)
Theorem C7_waveform_first_rejected (loader : native) (dtype : option string)
    (rate : option pyval) (key k p t : pyval) (array : ndarray) (r : Z) :
  unpack3 key = Ok (k, p, t) →
  nat_get loader (VTuple [k; p; t]) = Ok (VTuple [VNd array; VInt r]) →
  AdapterForSoundScpReader_getitem E loader dtype rate key
  = (Err UnexpectedType, rate).
Proof.
  intros Hk Hget. unfold AdapterForSoundScpReader_getitem.
  rewrite Hk. simpl. rewrite Hget. reflexivity.
Qed.

(** The order (rate, waveform) is accepted: the waveform is returned alone
    and the rate remembered, unless it differs from the remembered one. *)
Lemma sound_adapter_rate_first (loader : native) (rate : option pyval)
    (key k p t : pyval) (array : ndarray) (r : Z) :
  unpack3 key = Ok (k, p, t) →
  nat_get loader (VTuple [k; p; t]) = Ok (VTuple [VInt r; VNd array]) →
  AdapterForSoundScpReader_getitem E loader None rate key
  = match rate with
    | Some old =>
        if rate_eqb old (VInt r) then (Ok (VNd array), Some (VInt r))
        else (Err RateMismatch, rate)
    | None => (Ok (VNd array), Some (VInt r))
    end.
Proof.
  intros Hk Hget. unfold AdapterForSoundScpReader_getitem.
  rewrite Hk. simpl. rewrite Hget. simpl.
  destruct rate as [old|]; [|reflexivity].
  destruct (rate_eqb old (VInt r)); reflexivity.
Qed.

Lemma sample_aug_not_train (uid : string) (w : world) :
  mode (w_self w) ≠ "train" → sample_aug E uid w = (Ok (0, VInt 1), w).
Proof.
  intros H. unfold sample_aug, bind, get_self.
  destruct (String.eqb_spec (mode (w_self w)) "train");
    [contradiction | reflexivity].
Qed.

Lemma getitem_miss (s : string) (w : world) :
  cache_lookup (w_self w) s = None →
  __getitem__ E (UidStr s) w
  = bind (build_record E s) (λ data, ret (s, data)) w.
Proof.
  intros H. unfold __getitem__. simpl resolve_uid.
  unfold bind at 1, ret at 1. unfold bind at 1, get_self at 1.
  rewrite H. reflexivity.
Qed.

(** C2, at the failing input.  With the modalities
    [("wav.scp", "input", "sound")] and [("label", "output", "duration")]
    and a mode other than training, the first fetch of ["u1"] raises
    [ValueError]: the loader of [input] is the audio adapter, it is queried
    with the bare id because its name is neither [midi] nor [singing], and
    the adapter unpacks its key into three. *)
Theorem C2_bare_id_rejected (a : init_args) (ds : MuskitDataset) (g : rng) :
  a_path_name_type_list a
  = [("wav.scp", "input", "sound"); ("label", "output", "duration")] →
  a_mode a ≠ "train" →
  __init__ E a = Ok ds →
  fst (__getitem__ E (UidStr "u1") (new_world ds g)) = Err ValueError
  ∧ w_log (snd (__getitem__ E (UidStr "u1") (new_world ds g)))
    = [EvQuery "input" (VStr "u1")].
Proof.
  intros Hl Hmode Hinit.
  pose proof (init_cache_empty E a ds "u1" Hinit) as Hc.
  apply init_Ok in Hinit as (ld & di & mcs & Hld & _ & _ & Hds).
  rewrite Hl in Hld. simpl in Hld.
  rewrite build_loader_sound in Hld.
  apply rbind_Ok in Hld as (lo & Hlo & Hld).
  apply rbind_Ok in Hlo as (n & _ & Hlo). inversion Hlo; subst lo. clear Hlo.
  destruct (loader_len _ =? 0); [discriminate|].
  change (od_mem _ "output") with false in Hld. cbv iota in Hld.
  rewrite build_loader_duration in Hld.
  apply rbind_Ok in Hld as (lo & Hlo & Hld).
  apply rbind_Ok in Hlo as (n' & _ & Hlo). inversion Hlo; subst lo. clear Hlo.
  destruct (loader_len _ =? 0); [discriminate|].
  inversion Hld; subst ld di. clear Hld.
  assert (Hm : mode (w_self (new_world ds g)) ≠ "train").
  { rewrite Hds. exact Hmode. }
  rewrite (getitem_miss "u1" (new_world ds g) Hc).
  unfold bind, build_record, bind, assemble, bind.
  rewrite (sample_aug_not_train "u1" (new_world ds g) Hm).
  rewrite Hds. split; reflexivity.
Qed.

End Interface.

(** ** The properties at work on the small corpus *)

Import Corpus.

(** Runs the definitions: each component of the goal is an equation between
    closed terms, or fixes an unknown by evaluation. *)
Ltac run :=
  repeat match goal with
         | |- ∃ _, _ => eexists
         | |- _ ∧ _ => split
         end;
  lazymatch goal with
  | |- _ ≠ _ => discriminate
  | |- _ => vm_compute; reflexivity
  end.



Lemma C3_witness :
  ∃ ds rec w' a0 a1,
    __init__ env (defaults svs) = Ok ds
    ∧ __getitem__ env (UidInt 1) (new_world ds (const_rng 7))
      = (Ok ("u2", rec), w')
    ∧ od_get rec "pitch_aug" = Some (VNd a0)
    ∧ od_get rec "time_aug" = Some (VNd a1)
    ∧ nd_body a0 = Node [Leaf (SInt 0)]
    ∧ nd_body a1 = Node [Leaf (SInt 1)].
Proof.
  cut (∃ ds rec w',
          __init__ env (defaults svs) = Ok ds
          ∧ __getitem__ env (UidInt 1) (new_world ds (const_rng 7))
            = (Ok ("u2", rec), w')).
  { intros (ds & rec & w' & Hi & Hg).
    destruct (C3_identity_augmentation env (defaults svs) _ _ _ _ _
                (reach_init env (defaults svs) ds (const_rng 7) Hi)
                ltac:(discriminate) Hg)
      as (a0 & a1 & _ & _ & Hp & Ht & H0 & H1).
    exists ds, rec, w', a0, a1.
    repeat split; try assumption; [apply H0 | apply H1]; reflexivity. }
  run.
Defined.

Lemma C4_witness :
  ∃ ds rec w' w0,
    __init__ env pair_train = Ok ds
    ∧ __getitem__ env (UidStr "u1") (new_world ds (const_rng 7))
      = (Ok ("u1", rec), w')
    ∧ w_log w'
      = w_log w0
        ++ [EvQuery "singing" (VTuple [VStr "u1"; VInt 0; VInt 1]);
            EvQuery "feats" (VStr "u1")].
Proof.
  cut (∃ ds rec w',
          (__init__ env pair_train = Ok ds
           ∧ __getitem__ env (UidStr "u1") (new_world ds (const_rng 7))
             = (Ok ("u1", rec), w'))
          ∧ cache_lookup ds "u1" = None
          ∧ preprocess ds = None
          ∧ names ds = ["singing"; "feats"]
          ∧ sample_aug env "u1" (new_world ds (const_rng 7))
            = (Ok (0, VFloat 1.07), mk_world ds (mk_rng (λ _, 7) 2) [])).
  { intros (ds & rec & w' & [Hi Hg] & Hc & Hpre & Hn & Hs).
    destruct (C4_loader_queries env _ _ _ _ _ Hg Hc)
      as (p & t & w0 & Hs' & Hlog & _).
    simpl in Hs', Hlog. rewrite Hs in Hs'. inversion Hs'; subst p t w0.
    rewrite Hpre, Hn in Hlog.
    exists ds, rec, w', (mk_world ds (mk_rng (λ _, 7) 2) []).
    split; [exact Hi|]. split; [exact Hg|]. exact Hlog. }
  run.
Defined.

(** C4 as stated fails: in training mode the time factor 1.07 is sampled
    (the record carries it in [time_aug]), and the loader of the audio
    modality [singing] is queried with the time factor 1. *)
Lemma C4_counterexample :
  first_sample pair_train (const_rng 7) "u1" = Ok (0, VFloat 1.07)
  ∧ ∃ rec,
      first_fetch pair_train (const_rng 7) (UidStr "u1")
      = (Ok ("u1", rec),
         [EvQuery "singing" (VTuple [VStr "u1"; VInt 0; VInt 1]);
          EvQuery "feats" (VStr "u1")])
      ∧ od_get rec "time_aug" = Some (VNd (fvec [1.07%float]))
      ∧ VInt 1 ≠ VFloat 1.07.
Proof.
  split; [vm_compute; reflexivity|].
  eexists. split; [vm_compute; reflexivity|].
  split; [vm_compute; reflexivity | discriminate].
Qed.

Lemma C5_witness :
  ∃ ds,
    __init__ env (defaults svs) = Ok ds
    ∧ names ds = ["singing"; "midi"; "label"; "feats"]
    ∧ __iter__ ds = Ok ["u1"; "u2"]
    ∧ dataset_len ds = Err TypeError.
Proof.
  cut (∃ ds, __init__ env (defaults svs) = Ok ds
             ∧ __iter__ ds = Ok ["u1"; "u2"]).
  { intros (ds & Hi & Hit).
    destruct (C5_names_and_iteration env (defaults svs) ds Hi)
      as (_ & Hlen & Hn & _).
    exists ds. auto. }
  run.
Defined.

(** C5 as stated fails: the first-declared loader has two entries, and
    [len(dataset)] raises [TypeError]. *)
Lemma C5_counterexample :
  ∃ ds loader,
    __init__ env (defaults svs) = Ok ds
    ∧ od_values (loader_dict ds) !! 0%nat = Some loader
    ∧ loader_len loader = 2
    ∧ dataset_len ds ≠ Ok (loader_len loader).
Proof.
  eexists _, _. split; [vm_compute; reflexivity|].
  split; [reflexivity|]. split; [reflexivity | discriminate].
Qed.

Lemma C6_witness :
  (∃ ds,
     __init__ env pair_train = Ok ds
     ∧ (∃ p t w',
          sample_aug env "u1" (new_world ds (const_rng 7)) = (Ok (p, t), w')
          ∧ -2 ≤ p ≤ 2)
     ∧ (∃ g w2,
          sample_pitch_aug env "u1" (mk_world ds g []) = (Ok 1, w2)))
  ∧ (∃ ds gap w1,
       __init__ env svs_mean = Ok ds
       ∧ pitch_gap env "u1" (new_world ds (const_rng 3)) = (Ok gap, w1)
       ∧ gap = 1
       ∧ ∃ p t w',
           sample_aug env "u1" (new_world ds (const_rng 3)) = (Ok (p, t), w')
           ∧ Z.min 0 gap ≤ p ≤ Z.max 0 gap).
Proof.
  split.
  - cut (∃ ds p t w',
            (__init__ env pair_train = Ok ds
             ∧ sample_aug env "u1" (new_world ds (const_rng 7))
               = (Ok (p, t), w'))
            ∧ mode ds = "train" ∧ pitch_mean ds = "None"
            ∧ pitch_aug_min ds = -2 ∧ pitch_aug_max ds = 2).
    { intros (ds & p & t & w' & [Hi Hs] & Hm & Hn & Hlo & Hhi).
      destruct (C6_pitch_factor env "u1" (new_world ds (const_rng 7)) _ _ _
                  Hm Hs) as (_ & Hrange & _).
      destruct (Hrange Hn) as [Hp Hall]. simpl in Hp, Hall.
      rewrite Hlo, Hhi in Hp, Hall.
      exists ds. split; [exact Hi|]. split.
      - exists p, t, w'. auto.
      - apply (Hall 1). lia. }
    run.
  - cut (∃ ds p t w' w1,
            (__init__ env svs_mean = Ok ds
             ∧ sample_aug env "u1" (new_world ds (const_rng 3))
               = (Ok (p, t), w')
             ∧ pitch_gap env "u1" (new_world ds (const_rng 3)) = (Ok 1, w1))
            ∧ mode ds = "train" ∧ pitch_mean ds ≠ "None").
    { intros (ds & p & t & w' & w1 & (Hi & Hs & Hg) & Hm & Hn).
      destruct (C6_pitch_factor env "u1" (new_world ds (const_rng 3)) _ _ _
                  Hm Hs) as (_ & _ & Htarget).
      destruct (Htarget Hn) as (gap & w2 & Hg' & Hp & _).
      rewrite Hg in Hg'. inversion Hg'; subst gap w2.
      exists ds, 1, w1. split; [exact Hi|]. split; [exact Hg|].
      split; [reflexivity|]. exists p, t, w'. auto. }
    run.
Defined.

Lemma C7_witness :
  AdapterForSoundScpReader_getitem env ark_scp None (Some (VInt 16000))
    (VTuple [VStr "u1"; VInt 0; VInt 1])
  = (Err UnexpectedType, Some (VInt 16000)).
Proof.
  eapply (C7_waveform_first_rejected env ark_scp None (Some (VInt 16000))
            (VTuple [VStr "u1"; VInt 0; VInt 1]));
    vm_compute; reflexivity.
Defined.

Lemma C2_witness :
  ∃ ds,
    __init__ env (defaults scenario) = Ok ds
    ∧ fst (__getitem__ env (UidStr "u1") (new_world ds (const_rng 7)))
      = Err ValueError.
Proof.
  cut (∃ ds, __init__ env (defaults scenario) = Ok ds).
  { intros (ds & Hi).
    destruct (C2_bare_id_rejected env (defaults scenario) ds (const_rng 7)
                eq_refl ltac:(discriminate) Hi) as [Hr _].
    exists ds. auto. }
  run.
Defined.

Lemma twice_not_NoDup : ¬ NoDup (map decl_name (a_path_name_type_list (defaults twice))).
Proof.
  simpl. intros H. apply NoDup_cons in H as [H _].
  apply H. left.
Qed.

Lemma C8_witness :
  __init__ env (defaults twice) = Err (DuplicatedDataKey "input")
  ∧ ∀ w, ¬ reachable env (defaults twice) w.
Proof.
  destruct (C8_duplicate_name env (defaults twice) twice_not_NoDup)
    as (_ & Hnever & Hdup).
  split; [|exact Hnever].
  apply (Hdup [("wav.scp", "input", "sound")] "feats.scp" "input" "npy" []).
  - reflexivity.
  - simpl. auto.
  - vm_compute. reflexivity.
Defined.

Lemma C9_witness :
  (∃ ds, __init__ env pair_train = Ok ds
         ∧ a_pitch_aug_min pair_train ≤ a_pitch_aug_max pair_train
         ∧ PrimFloat.leb (a_time_aug_min pair_train) (a_time_aug_max pair_train)
           = true)
  ∧ __init__ env bad_bounds = Err AssertionError.
Proof.
  split.
  - cut (∃ ds, __init__ env pair_train = Ok ds).
    { intros (ds & Hi).
      destruct (proj1 (C9_constructor_asserts env pair_train) ds Hi)
        as (Hp & Ht & _).
      exists ds. auto. }
    run.
  - apply (proj2 (C9_constructor_asserts env bad_bounds)).
    + vm_compute. intros (H & _). apply H. reflexivity.
    + discriminate.
    + vm_compute. reflexivity.
    + vm_compute. reflexivity.
Defined.

Lemma C10_witness :
  ∃ ds rec w',
    __init__ env pair_cached = Ok ds
    ∧ __getitem__ env (UidStr "u1") (new_world ds (const_rng 7))
      = (Ok ("u1", rec), w')
    ∧ ∀ g, __getitem__ env (UidStr "u1") (mk_world (w_self w') g (w_log w'))
           = (Ok ("u1", rec), mk_world (w_self w') g (w_log w')).
Proof.
  cut (∃ ds rec w',
          (__init__ env pair_cached = Ok ds
           ∧ __getitem__ env (UidStr "u1") (new_world ds (const_rng 7))
             = (Ok ("u1", rec), w'))
          ∧ cache ds = Some sd_empty
          ∧ max_cache_size ds = VInt 1000).
  { intros (ds & rec & w' & [Hi Hg] & Hc & Hmax).
    exists ds, rec, w'. split; [exact Hi|]. split; [exact Hg|].
    intros g.
    apply (proj2 (C10_cache_short_circuit env) _ _ _ _ _ sd_empty g Hg Hc).
    simpl. rewrite Hmax. reflexivity. }
  run.
Defined.

(** * The adapters and the registry *)

Section Adapters.

Context (E : externals).

Lemma rate_eqb_eq (a b : pyval) :
  rate_eqb a b = true → a = b ∧ ∃ r, b = VInt r.
Proof.
  destruct a, b; simpl; try discriminate.
  intros H. apply Z.eqb_eq in H. subst. eauto.
Qed.

Lemma assert_array_or_list_Ok (v v' : pyval) :
  assert_array_or_list v = Ok v' →
  v' = v ∧ isinstance_ndarray v || isinstance_list v = true.
Proof.
  unfold assert_array_or_list.
  destruct (isinstance_ndarray v || isinstance_list v); [|discriminate].
  intros H. inversion H. auto.
Qed.

Lemma cast_then_assert_Ok (dtype : option string) (v v' : pyval) :
  rbind (cast_if E dtype v) assert_array_or_list = Ok v' →
  isinstance_ndarray v' || isinstance_list v' = true.
Proof.
  intros H. apply rbind_Ok in H as (v1 & _ & H).
  apply assert_array_or_list_Ok in H as [-> H]. exact H.
Qed.

(** X1. The sampling rate an audio adapter remembers never changes once it
    is set: whatever the key and whatever the reader returns, an adapter
    that remembers the rate [r] still remembers [r] after the call.  A call
    that returns gives an array or a list, and leaves the remembered rate as
    it was unless there was none, in which case an integer rate is now
    remembered.  A reader that reports another rate than the remembered one
    makes the call raise the rate-mismatch error. *)
Theorem X1_sound_rate_invariant (loader : native) (dtype : option string) :
  (∀ r key,
     snd (AdapterForSoundScpReader_getitem E loader dtype (Some (VInt r)) key)
     = Some (VInt r))
  ∧ (∀ rate key v rate',
       AdapterForSoundScpReader_getitem E loader dtype rate key = (Ok v, rate') →
       isinstance_ndarray v || isinstance_list v = true
       ∧ (rate' = rate ∨ (rate = None ∧ ∃ r, rate' = Some (VInt r))))
  ∧ (∀ r r' key k p t array,
       unpack3 key = Ok (k, p, t) →
       nat_get loader (VTuple [k; p; t]) = Ok (VTuple [VInt r'; VNd array]) →
       r' ≠ r →
       AdapterForSoundScpReader_getitem E loader dtype (Some (VInt r)) key
       = (Err RateMismatch, Some (VInt r))).
Proof.
  split; [|split].
  - intros r key. unfold AdapterForSoundScpReader_getitem.
    destruct (rbind (unpack3 key) _) as [retval|e]; [|reflexivity].
    destruct retval as [| | | | a | a | vs | vs | k x]; try reflexivity.
    destruct vs as [|r0 [|r1 [|r2 vs]]]; try reflexivity.
    cbn [isinstance_tuple].
    destruct (isinstance_int r0 && isinstance_ndarray r1); [|reflexivity].
    destruct (rate_eqb (VInt r) r0) eqn:Hr; [|reflexivity].
    apply rate_eqb_eq in Hr as [<- _]. reflexivity.
  - intros rate key v rate'. unfold AdapterForSoundScpReader_getitem.
    destruct (rbind (unpack3 key) _) as [retval|e]; [|discriminate].
    destruct retval as [| | | | a | a | vs | vs | k x]; try discriminate.
    + cbn [isinstance_tuple isinstance_list isinstance_ndarray].
      intros H. inversion H; subst rate'. split; [|auto].
      eapply cast_then_assert_Ok; eassumption.
    + destruct vs as [|r0 [|r1 [|r2 vs]]]; try discriminate.
      cbn [isinstance_tuple].
      destruct (isinstance_int r0 && isinstance_ndarray r1) eqn:Hi;
        [|discriminate].
      destruct rate as [old|].
      * destruct (rate_eqb old r0) eqn:Hr; [|discriminate].
        apply rate_eqb_eq in Hr as [-> _]. simpl negb. cbv iota.
        intros H. inversion H; subst rate'. split; [|auto].
        eapply cast_then_assert_Ok; eassumption.
      * intros H. inversion H; subst rate'. split.
        { eapply cast_then_assert_Ok; eassumption. }
        right. split; [reflexivity|].
        destruct r0; try discriminate. eauto.
    + cbn [isinstance_tuple isinstance_list].
      intros H. inversion H; subst. auto.
  - intros r r' key k p t array Hk Hget Hne.
    unfold AdapterForSoundScpReader_getitem. rewrite Hk. simpl.
    rewrite Hget. simpl.
    destruct (Z.eqb_spec r r') as [->|_]; [contradiction | reflexivity].
Qed.

Lemma unpack3_str (s : string) :
  str_len s ≠ 3%nat → unpack3 (VStr s) = Err ValueError.
Proof.
  unfold str_len, unpack3. simpl. intros H.
  destruct (chars s) as [|a [|b [|c [|d l]]]]; simpl in *;
    try reflexivity. contradiction.
Qed.

(** X2. The audio adapter and the MIDI adapter unpack their key into three
    parts before they consult the reader.  A bare string id is therefore
    rejected with [ValueError] unless it has exactly three characters (code
    points, not bytes of the encoding), and then its three characters are
    taken for the id, the pitch factor and the time factor; a number or
    [None] as key raises [TypeError].  The audio adapter keeps its
    remembered rate in each of these cases. *)
Theorem X2_bare_id_unpacked (loader : native) (dtype : option string)
    (rate : option pyval) :
  (∀ s, str_len s ≠ 3%nat →
        AdapterForSoundScpReader_getitem E loader dtype rate (VStr s)
        = (Err ValueError, rate)
        ∧ AdapterForMIDIScpReader_getitem loader (VStr s) = Err ValueError)
  ∧ (∀ s a b c,
       chars s = [a; b; c] →
       AdapterForSoundScpReader_getitem E loader dtype rate (VStr s)
       = AdapterForSoundScpReader_getitem E loader dtype rate
           (VTuple [VStr a; VStr b; VStr c])
       ∧ AdapterForMIDIScpReader_getitem loader (VStr s)
         = AdapterForMIDIScpReader_getitem loader
             (VTuple [VStr a; VStr b; VStr c]))
  ∧ (∀ key, py_iter key = Err TypeError →
       AdapterForSoundScpReader_getitem E loader dtype rate key
       = (Err TypeError, rate)
       ∧ AdapterForMIDIScpReader_getitem loader key = Err TypeError).
Proof.
  split; [|split].
  - intros s Hs. apply unpack3_str in Hs.
    unfold AdapterForSoundScpReader_getitem, AdapterForMIDIScpReader_getitem.
    rewrite Hs. split; reflexivity.
  - intros s a b c Hs.
    assert (Hu : unpack3 (VStr s) = unpack3 (VTuple [VStr a; VStr b; VStr c])).
    { unfold unpack3. simpl. rewrite Hs. reflexivity. }
    unfold AdapterForSoundScpReader_getitem, AdapterForMIDIScpReader_getitem.
    rewrite Hu. split; reflexivity.
  - intros key Hk.
    unfold AdapterForSoundScpReader_getitem, AdapterForMIDIScpReader_getitem,
      unpack3.
    rewrite Hk. split; reflexivity.
Qed.

Lemma py_len_iter (v : pyval) (vs : list pyval) :
  py_iter v = Ok vs → py_len v = Ok (Z.of_nat (length vs)).
Proof.
  destruct v as [| | s | | [k [x|ts]] | [k [x|ts]] | vs0 | vs0 | k x]; simpl;
    intros H; inversion H; subst; clear H;
    rewrite ?length_map; try reflexivity.
Qed.

Lemma py_getitem_int_iter (v : pyval) (vs : list pyval) (i : Z) :
  py_iter v = Ok vs → py_getitem_int v i = py_index vs i.
Proof.
  intros H. unfold py_getitem_int.
  destruct v as [| | s | | [k [x|ts]] | [k [x|ts]] | vs0 | vs0 | k x];
    try discriminate; rewrite H; reflexivity.
Qed.

(** X3. The MIDI adapter returns exactly when its key unpacks into three
    parts, the reader answers the triple with a value of two elements, and
    both elements are arrays; the result is then the pair (note array,
    tempo array) in this order.  The two elements of a one-dimensional
    array are numpy scalars, not arrays: such an answer is rejected with
    the unexpected-type error. *)
Theorem X3_midi_adapter_result (loader : native) (key : pyval) :
  (∀ v, AdapterForMIDIScpReader_getitem loader key = Ok v
        ↔ ∃ k p t retval note tempo,
            unpack3 key = Ok (k, p, t)
            ∧ nat_get loader (VTuple [k; p; t]) = Ok retval
            ∧ py_iter retval = Ok [VNd note; VNd tempo]
            ∧ v = VTuple [VNd note; VNd tempo])
  ∧ (∀ k p t kind x y,
       unpack3 key = Ok (k, p, t) →
       nat_get loader (VTuple [k; p; t])
       = Ok (VNd (mk_ndarray kind (Node [Leaf x; Leaf y]))) →
       AdapterForMIDIScpReader_getitem loader key = Err UnexpectedType).
Proof.
  unfold AdapterForMIDIScpReader_getitem. split; [intros v; split|].
  - intros H.
    apply rbind_Ok in H as ([[k p] t] & Hk & H).
    apply rbind_Ok in H as (retval & Hget & H).
    apply rbind_Ok in H as (n & Hn & H).
    destruct (negb (n =? 2)); [discriminate|].
    apply rbind_Ok in H as (r0 & Hr0 & H).
    apply rbind_Ok in H as (r1 & Hr1 & H).
    destruct (isinstance_ndarray r0 && isinstance_ndarray r1) eqn:Hi;
      [|discriminate].
    apply rbind_Ok in H as ([note tempo] & Hu & H).
    inversion H; subst v; clear H.
    unfold unpack2 in Hu. apply rbind_Ok in Hu as (vs & Hvs & Hu).
    destruct vs as [|a [|b [|c vs]]]; try discriminate.
    inversion Hu; subst a b; clear Hu.
    rewrite (py_getitem_int_iter _ _ _ Hvs) in Hr0.
    rewrite (py_getitem_int_iter _ _ _ Hvs) in Hr1.
    vm_compute in Hr0, Hr1. inversion Hr0; inversion Hr1; subst r0 r1.
    destruct note as [| | | | note | | | |]; try discriminate.
    destruct tempo as [| | | | tempo | | | |]; try discriminate.
    exists k, p, t, retval, note, tempo. auto.
  - intros (k & p & t & retval & note & tempo & Hk & Hget & Hvs & ->).
    rewrite Hk. simpl. rewrite Hget. simpl.
    rewrite (py_len_iter _ _ Hvs). simpl.
    rewrite (py_getitem_int_iter _ _ 0 Hvs), (py_getitem_int_iter _ _ 1 Hvs).
    unfold unpack2. rewrite Hvs. reflexivity.
  - intros k p t kind x y Hk Hget.
    rewrite Hk. simpl. rewrite Hget. simpl.
    unfold py_getitem_int, py_iter, np_row, np_item. simpl.
    destruct kind, x, y; reflexivity.
Qed.

(** X4. When the label adapter returns, the reader answered the key (passed
    on as it is, a bare id included) with a list of [n] items, and the
    result is the pair of an [n x 2] float array and a list of [n] symbols:
    row [i] holds the first two fields of item [i] as 32-bit floats and
    symbol [i] is its third field. *)
Theorem X4_label_adapter_result (loader : native) (key v : pyval) :
  AdapterForLabelScpReader_getitem E loader key = Ok v →
  ∃ items rows labels,
    nat_get loader key = Ok (VList items)
    ∧ v = VTuple [VNd (mk_ndarray KindF (Node rows)); VList labels]
    ∧ length rows = length items
    ∧ length labels = length items
    ∧ ∀ i item, items !! i = Some item →
        ∃ x0 x1 t0 t1 phone,
          py_getitem_int item 0 = Ok x0 ∧ np_float32 E x0 = Ok t0
          ∧ py_getitem_int item 1 = Ok x1 ∧ np_float32 E x1 = Ok t1
          ∧ py_getitem_int item 2 = Ok phone
          ∧ rows !! i = Some (Node [Leaf (SFloat t0); Leaf (SFloat t1)])
          ∧ labels !! i = Some phone.
Proof.
  unfold AdapterForLabelScpReader_getitem. intros H.
  apply rbind_Ok in H as (retval & Hget & H).
  destruct retval as [| | | | | | |items|]; try discriminate.
  apply rbind_Ok in H as (pairs & Hpairs & H). inversion H; subst v; clear H.
  apply rmapM_Forall2 in Hpairs.
  exists items, (map fst pairs), (map snd pairs).
  split; [exact Hget|]. split; [reflexivity|].
  pose proof (Forall2_length _ _ _ Hpairs) as Hlen.
  split; [rewrite length_map; auto|]. split; [rewrite length_map; auto|].
  intros i item Hi.
  destruct (Forall2_lookup_l _ _ _ _ _ Hpairs Hi) as ([row phone] & Hrow & Hf).
  apply rbind_Ok in Hf as (x0 & Hx0 & Hf).
  apply rbind_Ok in Hf as (t0 & Ht0 & Hf).
  apply rbind_Ok in Hf as (x1 & Hx1 & Hf).
  apply rbind_Ok in Hf as (t1 & Ht1 & Hf).
  apply rbind_Ok in Hf as (phone0 & Hph & Hf).
  inversion Hf; subst row phone0; clear Hf.
  exists x0, x1, t0, t1, phone.
  change (map fst pairs) with (fst <$> pairs).
  change (map snd pairs) with (snd <$> pairs).
  rewrite !list_lookup_fmap, Hrow. simpl. auto 10.
Qed.

End Adapters.

(** ** The registry *)

Section Registry.

Context (E : externals).

(** X5. The type tag of a declaration is matched at its start against the
    keys of the registry in their order, so a tag need only begin with a
    key: every tag that begins with [sound] builds the audio adapter with
    the dataset's float dtype, [midi] the MIDI adapter, [duration] the label
    adapter, [kaldi_ark] the audio adapter without a dtype; a tag that
    begins with [text_int] or [text_float] goes to the numeric reader, not
    to the text reader whose key [text] comes later.  The empty tag, and a
    tag whose first character starts no key, raise the unsupported-type
    error without opening anything. *)
Theorem X5_registry_dispatch (fd path : string) :
  (∀ rest, let t := "sound" +:+ rest in
     _build_loader E fd path t
     = rbind (open_native E sound_loader path t) (λ n,
         Ok (AdapterForSoundScpReader n (Some fd) None)))
  ∧ (∀ rest, let t := "midi" +:+ rest in
       _build_loader E fd path t
       = rbind (open_native E midi_loader path t) (λ n,
           Ok (AdapterForMIDIScpReader n)))
  ∧ (∀ rest, let t := "duration" +:+ rest in
       _build_loader E fd path t
       = rbind (open_native E label_loader path t) (λ n,
           Ok (AdapterForLabelScpReader n)))
  ∧ (∀ rest, let t := "kaldi_ark" +:+ rest in
       _build_loader E fd path t
       = rbind (open_native E kaldi_loader path t) (λ n,
           Ok (AdapterForSoundScpReader n None None)))
  ∧ (∀ rest, let t := "text_int" +:+ rest in
       _build_loader E fd path t
       = rbind (open_native E (load_num_sequence_text "text_int") path t)
           (λ n, Ok (PlainLoader n)))
  ∧ (∀ rest, let t := "text_float" +:+ rest in
       _build_loader E fd path t
       = rbind (open_native E (load_num_sequence_text "text_float") path t)
           (λ n, Ok (PlainLoader n)))
  ∧ _build_loader E fd path "" = Err (NotSupportedLoaderType "")
  ∧ (∀ c rest,
       existsb (λ k, Ascii.eqb k c) (list_ascii_of_string "smdkntchr") = false →
       _build_loader E fd path (String c rest)
       = Err (NotSupportedLoaderType (String c rest))).
Proof.
  repeat split; try reflexivity.
  intros c rest H. cbv [existsb list_ascii_of_string] in H.
  repeat (apply orb_false_elim in H as [? H]).
  cbv [_build_loader DATA_TYPES build_loader_from re_match match_toks
       re_compile list_ascii_of_string].
  repeat match goal with
         | Hc : Ascii.eqb _ c = false |- _ => rewrite Hc; clear Hc
         end.
  reflexivity.
Qed.

Lemma starts_cont_conts (t X : list ascii) :
  Forall (λ x, is_cont x = true) t → starts_cont X = false →
  conts_of (t ++ X) = t ∧ after_conts (t ++ X) = X.
Proof.
  intros Ht HX. induction Ht as [|d t Hd Ht [IH1 IH2]].
  - destruct X as [|x X]; [split; reflexivity|].
    simpl in *. rewrite HX. split; reflexivity.
  - simpl. rewrite Hd, IH1, IH2. split; reflexivity.
Qed.

Lemma utf8_cp_shape (cp : list ascii) :
  utf8_cp cp →
  ∃ c t, cp = c :: t ∧ is_cont c = false
         ∧ Forall (λ x, is_cont x = true) t.
Proof.
  destruct cp as [|c [|d t]]; simpl; [contradiction | |].
  - intros H. exists c, []. split; [reflexivity|]. split; [|constructor].
    unfold is_cont. destruct (Nat.leb_spec 128 (nat_of_ascii c)); [lia|].
    reflexivity.
  - intros [H Ht]. exists c, (d :: t). split; [reflexivity|].
    split; [|exact Ht].
    unfold is_cont. destruct (Nat.ltb_spec (nat_of_ascii c) 192); [lia|].
    apply andb_false_r.
Qed.

Lemma starts_cont_digits (E0 : externals) (ds : list (list ascii))
    (rest : list ascii) :
  Forall (decimal_digit E0) ds → starts_cont rest = false →
  starts_cont (List.concat ds ++ rest) = false.
Proof.
  intros Hds Hrest. destruct Hds as [|d ds [Hd _] _]; [exact Hrest|].
  apply utf8_cp_shape in Hd as (c & t & -> & Hc & _). exact Hc.
Qed.

(** A run of digits followed by what the rest of the pattern matches. *)
Lemma match_digits (ds : list (list ascii)) (rest : list ascii)
    (toks : list re_tok) :
  ds ≠ [] → Forall (decimal_digit E) ds → starts_cont rest = false →
  (∀ f, (length rest < f)%nat → match_toks E f toks rest = true) →
  ∀ fuel, (length (List.concat ds ++ rest) < fuel)%nat →
  match_toks E fuel (Digits :: toks) (List.concat ds ++ rest) = true.
Proof.
  intros Hne Hds Hrest Htoks.
  induction ds as [|d ds IH]; [contradiction|]. intros fuel Hfuel.
  apply Forall_cons in Hds as [[Hd Hdig] Hds].
  pose proof (starts_cont_digits E ds rest Hds Hrest) as HX.
  destruct (utf8_cp_shape d Hd) as (c & t & -> & Hc & Ht).
  destruct (starts_cont_conts t _ Ht HX) as [H1 H2].
  destruct fuel as [|fuel]; [lia|].
  assert (Heq : List.concat ((c :: t) :: ds) ++ rest
                = c :: t ++ (List.concat ds ++ rest)).
  { simpl. rewrite <- app_assoc. reflexivity. }
  rewrite Heq in *.
  cbn [match_toks]. rewrite H1, H2, Hdig. cbn [andb].
  simpl in Hfuel. rewrite length_app in Hfuel.
  destruct ds as [|d' ds].
  - simpl. rewrite Htoks; [reflexivity|]. simpl in Hfuel. lia.
  - rewrite (IH ltac:(discriminate) Hds fuel); [apply orb_true_r|]. lia.
Qed.

Lemma split_on_one (sep : ascii) (a : list ascii) :
  ¬ In sep a → split_on sep a = [a].
Proof.
  induction a as [|c a IH]; intros H; [reflexivity|]. simpl.
  destruct (Ascii.eqb_spec c sep) as [->|_]; [exfalso; apply H; left; reflexivity|].
  rewrite IH; [reflexivity|]. intros Hin. apply H. right. exact Hin.
Qed.

Lemma split_on_app (sep : ascii) (a l : list ascii) :
  ¬ In sep a →
  ∃ parts, split_on sep l = hd [] (split_on sep l) :: parts
           ∧ split_on sep (a ++ sep :: l) = a :: split_on sep l.
Proof.
  intros H.
  assert (Hne : ∀ l0, ∃ p ps, split_on sep l0 = p :: ps).
  { intros l0. induction l0 as [|c l0 (p & ps & IH)]; simpl; [eauto|].
    destruct (Ascii.eqb c sep); [eauto|]. rewrite IH. eauto. }
  destruct (Hne l) as (p & ps & Hl). exists ps. split.
  { rewrite Hl. reflexivity. }
  induction a as [|c a IH].
  - simpl. rewrite Ascii.eqb_refl. reflexivity.
  - simpl. destruct (Ascii.eqb_spec c sep) as [->|_];
      [exfalso; apply H; left; reflexivity|].
    rewrite IH; [reflexivity|]. intros Hin. apply H. right. exact Hin.
Qed.

Lemma split_on_two (sep : ascii) (l : list ascii) :
  In sep l → ∃ p q more, split_on sep l = p :: q :: more.
Proof.
  induction l as [|c l IH]; intros H; [destruct H|]. simpl.
  destruct (Ascii.eqb_spec c sep) as [->|Hne].
  - destruct l as [|c' l]; simpl; [eauto|].
    destruct (Ascii.eqb c' sep); [eauto|].
    destruct (split_on sep l); eauto.
  - destruct H as [H|H]; [congruence|].
    destruct (IH H) as (p & q & more & ->). eauto.
Qed.

Lemma digits_no_sep (ds : list (list ascii)) :
  Forall (decimal_digit E) ds → ¬ In "_"%char (List.concat ds).
Proof.
  induction 1 as [|d ds [Hd Hdig] _ IH]; [intros []|].
  simpl. intros Hin. apply in_app_or in Hin as [Hin|Hin]; [|auto].
  destruct d as [|c [|d' t]]; simpl in Hd; [contradiction | |].
  - destruct Hin as [->|[]]. unfold is_digit in Hdig.
    vm_compute in Hdig. discriminate.
  - destruct Hd as [Hc Ht]. destruct Hin as [->|Hin].
    + change (nat_of_ascii "_") with 95%nat in Hc. lia.
    + rewrite List.Forall_forall in Ht. apply Ht in Hin.
      vm_compute in Hin. discriminate.
Qed.

(** X6. The last key of the registry is a pattern: a tag made of
    [rand_int_], one or more decimal digits, an underscore and one or more
    decimal digits goes to [rand_int_loader], whatever follows the second
    run of digits.  The loader reads its two bounds off the tag: when the
    text after the second run of digits has another underscore it raises
    its format error; else the bounds are what [int] makes of the two
    parts, trailing text included, and the format error is raised when
    [int] rejects one of them. *)
Theorem X6_rand_int_pattern (fd path t : string) (lo hi : list (list ascii))
    (rest : list ascii) :
  lo ≠ [] → hi ≠ [] →
  Forall (decimal_digit E) lo → Forall (decimal_digit E) hi →
  starts_cont rest = false →
  (∀ s e, py_int_of_str E s = Err e → e = ValueError) →
  list_ascii_of_string t
  = list_ascii_of_string "rand_int_"
    ++ List.concat lo ++ "_"%char :: List.concat hi ++ rest →
  _build_loader E fd path t
  = rbind (rand_int_loader_call E path t) (λ n, Ok (PlainLoader n))
  ∧ (In "_"%char rest →
     rand_int_loader_call E path t = Err (BadRandIntType t))
  ∧ (¬ In "_"%char rest →
     rand_int_loader_call E path t
     = match py_int_of_str E (string_of_list_ascii (List.concat lo)),
             py_int_of_str E (string_of_list_ascii (List.concat hi ++ rest))
       with
       | Ok low, Ok high => IntRandomGenerateDataset E path low high
       | _, _ => Err (BadRandIntType t)
       end).
Proof.
  intros Hlo Hhi Hdlo Hdhi Hrest Hint Ht.
  assert (Hm : re_match E "rand_int_\d+_\d+" t = true).
  { unfold re_match. rewrite Ht.
    change (match_toks E
              (S (length (list_ascii_of_string "rand_int_"
                          ++ List.concat lo
                          ++ "_"%char :: List.concat hi ++ rest)))
              (re_compile (list_ascii_of_string "rand_int_\d+_\d+"))
              (list_ascii_of_string "rand_int_"
               ++ List.concat lo ++ "_"%char :: List.concat hi ++ rest))
      with (match_toks E
              (S (length (List.concat lo
                          ++ "_"%char :: List.concat hi ++ rest)))
              [Digits; Lit "_"; Digits]
              (List.concat lo ++ "_"%char :: List.concat hi ++ rest)).
    apply match_digits; [assumption | assumption | reflexivity | | lia].
    intros f Hf. destruct f as [|f]; [lia|].
    cbn [match_toks]. rewrite Ascii.eqb_refl. cbn [andb].
    apply match_digits; [assumption | assumption | assumption | |].
    - intros f' Hf'. destruct f' as [|f']; [lia | reflexivity].
    - simpl in Hf. lia. }
  assert (Hfrom : str_from 9 t
                  = string_of_list_ascii
                      (List.concat lo ++ "_"%char :: List.concat hi ++ rest)).
  { unfold str_from. rewrite Ht. f_equal.
    assert (HX : starts_cont
                   (List.concat lo ++ "_"%char :: List.concat hi ++ rest)
                 = false).
    { apply (starts_cont_digits E); [assumption | reflexivity]. }
    change (list_ascii_of_string "rand_int_" ++ ?X)
      with ("r" :: "a" :: "n" :: "d" :: "_" :: "i" :: "n" :: "t" :: "_"
            :: X)%char.
    rewrite !code_points_ascii by (first [exact HX | reflexivity]).
    simpl drop. apply concat_code_points. }
  pose proof (digits_no_sep lo Hdlo) as Hnlo.
  pose proof (digits_no_sep hi Hdhi) as Hnhi.
  assert (Hparts : py_split "_" (str_from 9 t)
                   = string_of_list_ascii (List.concat lo)
                     :: map string_of_list_ascii
                          (split_on "_" (List.concat hi ++ rest))).
  { unfold py_split. rewrite Hfrom, list_ascii_of_string_of_list_ascii.
    destruct (split_on_app "_" (List.concat lo) (List.concat hi ++ rest) Hnlo)
      as (parts & _ & ->).
    reflexivity. }
  split; [|split].
  - unfold _build_loader, DATA_TYPES, build_loader_from.
    rewrite Hm.
    unfold re_match. rewrite Ht. simpl. reflexivity.
  - intros Hin. unfold rand_int_loader_call. rewrite Hparts.
    destruct (split_on_two "_" (List.concat hi ++ rest))
      as (p & q & more & ->).
    { apply in_or_app. right. exact Hin. }
    simpl.
    destruct (py_int_of_str E (string_of_list_ascii (List.concat lo)))
      as [low|e] eqn:H1; simpl; [|rewrite (Hint _ _ H1); reflexivity].
    destruct (py_int_of_str E (string_of_list_ascii p))
      as [high|e] eqn:H2; simpl; [|rewrite (Hint _ _ H2); reflexivity].
    destruct (py_int_of_str E (string_of_list_ascii q))
      as [z|e] eqn:H3; simpl; [reflexivity|].
    rewrite (Hint _ _ H3). reflexivity.
  - intros Hnot. unfold rand_int_loader_call. rewrite Hparts.
    rewrite split_on_one.
    2:{ intros Hin. apply in_app_or in Hin as [Hin|Hin]; auto. }
    simpl.
    destruct (py_int_of_str E (string_of_list_ascii (List.concat lo)))
      as [low|e] eqn:H1; simpl; [|rewrite (Hint _ _ H1); reflexivity].
    destruct (py_int_of_str E (string_of_list_ascii (List.concat hi ++ rest)))
      as [high|e] eqn:H2; simpl; [reflexivity|].
    rewrite (Hint _ _ H2). reflexivity.
Qed.

End Registry.

Lemma X4_witness :
  ∃ rows labels,
    AdapterForLabelScpReader_getitem env label_dict (VStr "u1")
    = Ok (VTuple [VNd (mk_ndarray KindF (Node rows)); VList labels])
    ∧ length rows = 3%nat ∧ length labels = 3%nat.
Proof.
  cut (∃ v items,
          AdapterForLabelScpReader_getitem env label_dict (VStr "u1") = Ok v
          ∧ nat_get label_dict (VStr "u1") = Ok (VList items)
          ∧ length items = 3%nat).
  { intros (v & items & Hv & Hn & Hlen).
    destruct (X4_label_adapter_result env label_dict (VStr "u1") v Hv)
      as (items' & rows & labels & Hget & Hv' & Hr & Hl & _).
    rewrite Hn in Hget. inversion Hget; subst items'.
    exists rows, labels. rewrite Hv, Hv', Hr, Hl. auto. }
  run.
Defined.

Lemma to_int_error (s : string) (e : exn) :
  Corpus.to_int s = Err e → e = ValueError.
Proof.
  unfold Corpus.to_int. cbv zeta.
  destruct (Corpus.split_sign _) as [neg body].
  destruct (Corpus.digits_value _ _ _); intros H; [discriminate|].
  congruence.
Qed.

Lemma ascii_decimal_digit (E : externals) (c : ascii) :
  ascii_digit c = true → decimal_digit E [c].
Proof.
  intros H. split; [|exact H]. unfold ascii_digit in H. simpl.
  apply andb_true_iff in H as [_ H]. apply Nat.leb_le in H. lia.
Qed.

Lemma X6_witness :
  _build_loader env "float32" "shape.scp" "rand_int_3_10_5"
  = Err (BadRandIntType "rand_int_3_10_5")
  ∧ _build_loader env "float32" "shape.scp" "rand_int_3_10"
    = rbind (Corpus.rand_int_scp "shape.scp" 3 10)
        (λ n, Ok (PlainLoader n))
  ∧ _build_loader env "float32" "shape.scp" "rand_int_3_10x"
    = Err (BadRandIntType "rand_int_3_10x").
Proof.
  assert (Hlo : Forall (decimal_digit env) [["3"%char]]).
  { repeat constructor; apply ascii_decimal_digit; reflexivity. }
  assert (Hhi : Forall (decimal_digit env) [["1"%char]; ["0"%char]]).
  { repeat constructor; apply ascii_decimal_digit; reflexivity. }
  pose proof (X6_rand_int_pattern env "float32" "shape.scp" "rand_int_3_10_5"
                [["3"%char]] [["1"%char]; ["0"%char]]
                (list_ascii_of_string "_5")
                ltac:(discriminate) ltac:(discriminate) Hlo Hhi eq_refl
                to_int_error eq_refl) as (H1 & H2 & _).
  pose proof (X6_rand_int_pattern env "float32" "shape.scp" "rand_int_3_10"
                [["3"%char]] [["1"%char]; ["0"%char]] []
                ltac:(discriminate) ltac:(discriminate) Hlo Hhi eq_refl
                to_int_error eq_refl) as (H3 & _ & H4).
  pose proof (X6_rand_int_pattern env "float32" "shape.scp" "rand_int_3_10x"
                [["3"%char]] [["1"%char]; ["0"%char]]
                (list_ascii_of_string "x")
                ltac:(discriminate) ltac:(discriminate) Hlo Hhi eq_refl
                to_int_error eq_refl) as (H5 & _ & H6).
  rewrite H1, H2 by (left; reflexivity).
  rewrite H3, H4 by (intros []).
  rewrite H5, H6 by (intros [H|[]]; discriminate).
  repeat split.
Defined.

(** * The constructed dataset *)

Section Constructed.

Context (E : externals).

Lemma od_set_fresh {V} (d : odict V) (k : string) (v : V) :
  od_mem d k = false → od_set d k v = d ++ [(k, v)].
Proof.
  unfold od_mem. induction d as [|[k0 v0] d IH]; simpl; [reflexivity|].
  destruct (String.eqb k0 k); [discriminate|].
  intros H. f_equal. apply IH, H.
Qed.

Lemma od_get_In {V} (d : odict V) (k : string) (v : V) :
  od_get d k = Some v → In (k, v) d.
Proof.
  induction d as [|[k0 v0] d IH]; simpl; [discriminate|].
  destruct (String.eqb_spec k0 k) as [->|_].
  - intros H. inversion H. auto.
  - auto.
Qed.

Lemma od_mem_same_keys {V W} (d : odict V) (d' : odict W) (k : string) :
  od_keys d = od_keys d' → od_mem d k = od_mem d' k.
Proof.
  intros Hk.
  destruct (od_mem d k) eqn:H1, (od_mem d' k) eqn:H2; try reflexivity.
  - apply od_mem_keys in H1. rewrite Hk in H1. apply od_mem_keys in H1.
    congruence.
  - apply od_mem_keys in H2. rewrite <- Hk in H2. apply od_mem_keys in H2.
    congruence.
Qed.

(** Every loader the loop of [__init__] files was built from a declaration
    of its name and is not empty, and [debug_info] has the same keys. *)
Lemma init_loaders_inv (fd : string) (all l : list (string * string * string))
    (ld ld' : odict loader) (di di' : odict (string * string)) :
  let good := λ kv : string * loader,
    ∃ path t, In (path, fst kv, t) all
              ∧ _build_loader E fd path t = Ok (snd kv)
              ∧ 0 < loader_len (snd kv) in
  (∀ x, In x l → In x all) →
  init_loaders E fd l ld di = Ok (ld', di') →
  Forall good ld → od_keys di = od_keys ld →
  Forall good ld' ∧ od_keys di' = od_keys ld'.
Proof.
  intros good. revert ld di.
  induction l as [|[[path name] t] l IH]; intros ld di Hall H Hgood Hkeys;
    simpl in H.
  - inversion H; subst. auto.
  - destruct (od_mem ld name) eqn:Hmem; [discriminate|].
    apply rbind_Ok in H as (lo & Hlo & H).
    destruct (Z.eqb_spec (loader_len lo) 0) as [|Hne]; [discriminate|].
    apply IH in H; [exact H | | |].
    + intros x Hx. apply Hall. right. exact Hx.
    + rewrite (od_set_fresh _ _ _ Hmem). apply Forall_app. split; [exact Hgood|].
      constructor; [|constructor].
      exists path, t. simpl. split; [apply Hall; left; reflexivity|].
      split; [exact Hlo|]. unfold loader_len in *. lia.
    + rewrite (od_keys_set_fresh _ _ _ Hmem).
      rewrite od_keys_set_fresh; [congruence|].
      rewrite (od_mem_same_keys di ld name Hkeys). exact Hmem.
Qed.

(** X7. A constructed dataset has at least one modality, no two modalities
    of the same name, and [has_name] holds of exactly the declared names.
    Every loader it holds was built by [_build_loader] from a declaration of
    its name and has at least one entry, and [debug_info] is keyed by the
    modality names in the same order. *)
Theorem X7_constructed_dataset (a : init_args) (ds : MuskitDataset) :
  __init__ E a = Ok ds →
  names ds ≠ []
  ∧ NoDup (names ds)
  ∧ (∀ n, has_name ds n = true
          ↔ In n (map decl_name (a_path_name_type_list a)))
  ∧ od_keys (debug_info ds) = names ds
  ∧ ∀ n l, od_get (loader_dict ds) n = Some l →
      ∃ path t,
        In (path, n, t) (a_path_name_type_list a)
        ∧ _build_loader E (a_float_dtype a) path t = Ok l
        ∧ 0 < loader_len l.
Proof.
  intros H. pose proof H as H0. unfold __init__ in H0.
  apply init_Ok in H as (ld & di & mcs & Hl & _ & _ & ->).
  pose proof (init_loaders_keys E _ _ _ _ _ _ Hl) as [Hk Hnd]. simpl in Hk.
  pose proof (init_loaders_inv _ (a_path_name_type_list a) _ _ _ _ _
                (λ x Hx, Hx) Hl (Forall_nil_2 _) eq_refl) as [Hgood Hdi].
  unfold names, has_name. simpl.
  split.
  { rewrite Hk. destruct (a_path_name_type_list a); [discriminate|].
    discriminate. }
  split; [apply Hnd; constructor|].
  split; [intros n; rewrite od_mem_keys, Hk; reflexivity|].
  split; [exact Hdi|].
  intros n l Hget. apply od_get_In in Hget.
  rewrite Forall_forall in Hgood.
  apply list_elem_of_In, Hgood in Hget. exact Hget.
Qed.

(** X8. Construction fails at the first declaration that does not load.
    An empty list of declarations is rejected first.  Otherwise, once the
    declarations before one of a new name have loaded, an exception raised
    while its loader is built is the exception of [__init__], and a loader
    without any entry makes [__init__] raise the no-samples error for its
    path; the declarations after it, the cache size and the augmentation
    bounds are not looked at. *)
Theorem X8_construction_fails_fast (a : init_args) :
  (a_path_name_type_list a = [] → __init__ E a = Err EmptyPathNameTypeList)
  ∧ ∀ pre path name t post ld di,
      a_path_name_type_list a = pre ++ (path, name, t) :: post →
      init_loaders E (a_float_dtype a) pre [] [] = Ok (ld, di) →
      ¬ In name (map decl_name pre) →
      match _build_loader E (a_float_dtype a) path t with
      | Err e => __init__ E a = Err e
      | Ok l => loader_len l = 0 → __init__ E a = Err (NoSamples path)
      end.
Proof.
  split.
  - intros H. unfold __init__. rewrite H. reflexivity.
  - intros pre path name t post ld di Hl Hpre Hnew.
    assert (Hmem : od_mem ld name = false).
    { destruct (od_mem ld name) eqn:Hm; [|reflexivity].
      apply od_mem_keys in Hm.
      apply init_loaders_keys in Hpre as [Hk _]. simpl in Hk.
      rewrite Hk in Hm. contradiction. }
    assert (Hlen : (length (a_path_name_type_list a) =? 0)%nat = false).
    { rewrite Hl, length_app. simpl. apply Nat.eqb_neq. lia. }
    unfold __init__. rewrite Hlen, Hl, init_loaders_app, Hpre. simpl.
    rewrite Hmem.
    destruct (_build_loader E (a_float_dtype a) path t) as [l|e];
      [|reflexivity].
    intros Hz. simpl. rewrite Hz. reflexivity.
Qed.

End Constructed.

Lemma X7_witness :
  ∃ ds,
    __init__ env (defaults svs) = Ok ds
    ∧ NoDup (names ds)
    ∧ has_name ds "midi" = true
    ∧ od_keys (debug_info ds) = names ds.
Proof.
  cut (∃ ds, __init__ env (defaults svs) = Ok ds).
  { intros (ds & Hi).
    destruct (X7_constructed_dataset env (defaults svs) ds Hi)
      as (_ & Hnd & Hhas & Hdi & _).
    exists ds. split; [exact Hi|]. split; [exact Hnd|].
    split; [|exact Hdi]. apply Hhas. simpl. auto. }
  run.
Defined.

Lemma X8_witness :
  __init__ env (defaults [("feats.scp", "feats", "npy");
                          ("empty.scp", "more", "npy");
                          ("nowhere", "rest", "unknown")])
  = Err (NoSamples "empty.scp").
Proof.
  cut (∃ ld di,
          init_loaders env "float32" [("feats.scp", "feats", "npy")] [] []
          = Ok (ld, di)).
  { intros (ld & di & Hpre).
    apply (proj2 (X8_construction_fails_fast env
                    (defaults [("feats.scp", "feats", "npy");
                               ("empty.scp", "more", "npy");
                               ("nowhere", "rest", "unknown")]))
             [("feats.scp", "feats", "npy")] "empty.scp" "more" "npy"
             [("nowhere", "rest", "unknown")] ld di eq_refl Hpre).
    - simpl. intros [H|[]]. discriminate.
    - reflexivity. }
  run.
Defined.

(** * Fetching and the cache *)

Section Fetching.

Context (E : externals).

Lemma py_index_inside {A} (l : list A) (i : Z) :
  - Z.of_nat (length l) ≤ i < Z.of_nat (length l) →
  ∃ x, l !! Z.to_nat (i mod Z.of_nat (length l)) = Some x
       ∧ py_index l i = Ok x.
Proof.
  intros Hi. unfold py_index. cbv zeta.
  set (n := Z.of_nat (length l)) in *.
  assert (Hj : (if i <? 0 then i + n else i) = i mod n).
  { destruct (Z.ltb_spec i 0).
    - apply (Z.mod_unique i n (-1)); lia.
    - symmetry. apply Z.mod_small. lia. }
  rewrite Hj.
  pose proof (Z.mod_pos_bound i n ltac:(lia)) as Hb.
  destruct (Z.leb_spec 0 (i mod n)); [|lia].
  destruct (Z.ltb_spec (i mod n) n); [|lia]. simpl.
  destruct (l !! Z.to_nat (i mod n)) as [x|] eqn:Hx; [eauto|].
  apply lookup_ge_None in Hx. lia.
Qed.

Lemma py_index_outside {A} (l : list A) (i : Z) :
  ¬ (- Z.of_nat (length l) ≤ i < Z.of_nat (length l)) →
  py_index l i = Err IndexError.
Proof.
  intros Hi. unfold py_index. cbv zeta.
  set (n := Z.of_nat (length l)) in *.
  destruct (Z.ltb_spec i 0).
  - destruct (Z.leb_spec 0 (i + n)); [|reflexivity].
    destruct (Z.ltb_spec (i + n) n); [lia | reflexivity].
  - destruct (Z.leb_spec 0 i); [|reflexivity].
    destruct (Z.ltb_spec i n); [lia | reflexivity].
Qed.

(** X10. Fetching by an integer is fetching by the id at that position of
    the iteration order: with [n] ids, [dataset[i]] for [-n <= i < n] is
    [dataset[ids[i mod n]]], so negative integers count from the end; any
    other integer raises [IndexError], and a dataset without loaders raises
    what its iteration raises.  In both failures nothing has changed. *)
Theorem X10_integer_index (i : Z) (w : world) :
  match __iter__ (w_self w) with
  | Ok ids =>
      (- Z.of_nat (length ids) ≤ i < Z.of_nat (length ids) →
       ∃ s, ids !! Z.to_nat (i mod Z.of_nat (length ids)) = Some s
            ∧ __getitem__ E (UidInt i) w = __getitem__ E (UidStr s) w)
      ∧ (¬ (- Z.of_nat (length ids) ≤ i < Z.of_nat (length ids)) →
         __getitem__ E (UidInt i) w = (Err IndexError, w))
  | Err e => __getitem__ E (UidInt i) w = (Err e, w)
  end.
Proof.
  cbv [__iter__ __getitem__ resolve_uid bind get_self raise lift ret].
  destruct (od_values (loader_dict (w_self w))) as [|d rest]; [reflexivity|].
  split.
  - intros Hi. destruct (py_index_inside _ _ Hi) as (s & Hs & Hidx).
    exists s. split; [exact Hs|]. rewrite Hidx. reflexivity.
  - intros Hi. rewrite (py_index_outside _ _ Hi). reflexivity.
Qed.

Lemma reachable_cache_kind (a : init_args) (w : world) :
  reachable E a w →
  ∃ ds0, __init__ E a = Ok ds0
         ∧ (cache (w_self w) = None ↔ cache ds0 = None).
Proof.
  induction 1 as [ds g Hinit | w uid g Hreach (ds0 & Hinit & Hc)].
  - exists ds. split; [assumption | reflexivity].
  - exists ds0. split; [assumption|].
    pose proof (getitem_world E uid (mk_world (w_self w) g (w_log w)))
      as [_ [Heq|(s & c & rec & w' & _ & Hc0 & Hc1)]]; simpl in *.
    + rewrite Heq. exact Hc.
    + rewrite Hc1. rewrite Hc0 in Hc. rewrite <- Hc.
      split; discriminate.
Qed.

(** X9. Whether a dataset caches is settled at construction and never
    changes: with a cache budget above 0 every reachable dataset has a
    cache; with a budget of 0 or less (the default is 0.0) it has none,
    however many records were fetched, so that every fetch that returns has
    built its record from the loaders. *)
Theorem X9_cache_budget (a : init_args) (w : world) (m : pyval) :
  reachable E a w →
  parse_max_cache_size E (a_max_cache_size a) = Ok m →
  (Z_lt_num 0 m = true → ∃ c, cache (w_self w) = Some c)
  ∧ (Z_lt_num 0 m = false →
     cache (w_self w) = None
     ∧ ∀ uid s rec w',
         __getitem__ E uid w = (Ok (s, rec), w') →
         build_record E s w = (Ok rec, w') ∧ cache (w_self w') = None).
Proof.
  intros Hreach Hm.
  destruct (reachable_cache_kind a w Hreach) as (ds0 & Hinit & Hc).
  apply init_Ok in Hinit as (ld & di & mcs & _ & Hm' & _ & ->).
  rewrite Hm in Hm'. inversion Hm'; subst mcs. simpl in Hc.
  split.
  - intros Hlt. rewrite Hlt in Hc.
    destruct (cache (w_self w)) as [c|]; [eauto|].
    destruct Hc as [Hc _]. specialize (Hc eq_refl). discriminate.
  - intros Hlt. rewrite Hlt in Hc.
    assert (Hnone : cache (w_self w) = None) by (apply Hc; reflexivity).
    split; [exact Hnone|].
    intros uid s rec w' Hget.
    pose proof (getitem_world E uid w) as [_ Hw]. rewrite Hget in Hw.
    simpl in Hw.
    apply getitem_Ok in Hget as [_ [[Hl _]|[_ Hb]]].
    + unfold cache_lookup in Hl. rewrite Hnone in Hl. discriminate.
    + split; [exact Hb|].
      destruct Hw as [->|(s0 & c & rec0 & w0 & _ & Hc0 & _)];
        [exact Hnone | congruence].
Qed.

(** What a call does to the cache: nothing, or it files the record it
    returns under an id that was not cached, the cache being under its
    budget. *)
Lemma getitem_cache_step (uid : uid_arg) (w : world) :
  cache (w_self (snd (__getitem__ E uid w))) = cache (w_self w)
  ∨ ∃ s c rec,
      fst (__getitem__ E uid w) = Ok (s, rec)
      ∧ cache_lookup (w_self w) s = None
      ∧ cache (w_self w) = Some c
      ∧ Z_lt_num (sd_size c) (max_cache_size (w_self w)) = true
      ∧ cache (w_self (snd (__getitem__ E uid w)))
        = Some (sd_setitem E c s rec).
Proof.
  unfold __getitem__, bind.
  pose proof (resolve_uid_world uid w) as Hr.
  destruct (resolve_uid uid w) as [[s|e] w0]; simpl in Hr; subst w0;
    [|simpl; auto].
  unfold get_self.
  destruct (cache_lookup (w_self w) s) as [data|] eqn:Hmiss; [simpl; auto|].
  unfold build_record, bind.
  pose proof (stable_assemble E s w) as H1.
  destruct (assemble E s w) as [[[[p t] data]|e] w1]; simpl in H1;
    [|apply stable_frozen in H1 as [_ Hc1]; simpl; auto].
  pose proof (stable_proj max_cache_size _ _ ltac:(reflexivity) H1) as Hmax.
  apply stable_frozen in H1 as [_ Hc1].
  pose proof (quiet_align data w1) as H2.
  destruct (align data w1) as [[data2|e] w2]; simpl in H2;
    destruct H2 as [Hs2 _]; [|simpl; rewrite Hs2; auto].
  unfold get_self, lift.
  destruct (force_precision E (w_self w2) (attach_aug data2 p t)) as [rec|e];
    [|simpl; rewrite Hs2; auto].
  unfold cache_store.
  destruct (cache (w_self w2)) as [c|] eqn:Hc; [|simpl; rewrite Hs2; auto].
  destruct (Z_lt_num (sd_size c) (max_cache_size (w_self w2))) eqn:Hlt;
    [|simpl; rewrite Hs2; auto].
  simpl. right. exists s, c, rec. rewrite Hs2 in Hc, Hlt.
  split; [reflexivity|]. split; [exact Hmiss|].
  split; [congruence|]. split; [congruence | reflexivity].
Qed.

(** X12. The cache only grows: a record that is cached stays cached,
    unchanged, through any later call, whether that call returns or raises
    and whatever it fetches; and once the size of the cache has reached the
    budget no call changes the cache any more. *)
Theorem X12_cache_only_grows (uid : uid_arg) (w : world) :
  (∀ s rec,
     cache_lookup (w_self w) s = Some rec →
     cache_lookup (w_self (snd (__getitem__ E uid w))) s = Some rec)
  ∧ (∀ c,
       cache (w_self w) = Some c →
       Z_lt_num (sd_size c) (max_cache_size (w_self w)) = false →
       cache (w_self (snd (__getitem__ E uid w))) = Some c).
Proof.
  pose proof (getitem_cache_step uid w)
    as [Heq|(s0 & c0 & rec0 & _ & Hmiss & Hc0 & Hlt & Hc1)].
  - split.
    + intros s rec H. unfold cache_lookup. rewrite Heq. exact H.
    + intros c Hc _. congruence.
  - split.
    + intros s rec H. unfold cache_lookup in *. rewrite Hc1. simpl.
      rewrite Hc0 in H, Hmiss.
      destruct (decide (s0 = s)) as [->|Hne]; [congruence|].
      rewrite lookup_insert_ne by assumption. exact H.
    + intros c Hc Hge. congruence.
Qed.

End Fetching.

Lemma X9_witness :
  ∃ ds rec w',
    __init__ env (defaults pair) = Ok ds
    ∧ __getitem__ env (UidStr "u1") (new_world ds (const_rng 7))
      = (Ok ("u1", rec), w')
    ∧ cache ds = None ∧ cache (w_self w') = None.
Proof.
  cut (∃ ds rec w',
          __init__ env (defaults pair) = Ok ds
          ∧ __getitem__ env (UidStr "u1") (new_world ds (const_rng 7))
            = (Ok ("u1", rec), w')).
  { intros (ds & rec & w' & Hi & Hg).
    destruct (X9_cache_budget env (defaults pair) _ (VFloat 0)
                (reach_init env (defaults pair) ds (const_rng 7) Hi) eq_refl)
      as [_ Hnone].
    destruct (Hnone eq_refl) as [Hc Hall].
    destruct (Hall _ _ _ _ Hg) as [_ Hc'].
    exists ds, rec, w'. auto. }
  run.
Defined.

Lemma X10_witness :
  ∃ ds,
    __init__ env (defaults pair) = Ok ds
    ∧ __getitem__ env (UidInt (-1)) (new_world ds (const_rng 7))
      = __getitem__ env (UidStr "u2") (new_world ds (const_rng 7))
    ∧ __getitem__ env (UidInt 2) (new_world ds (const_rng 7))
      = (Err IndexError, new_world ds (const_rng 7)).
Proof.
  cut (∃ ds, __init__ env (defaults pair) = Ok ds
             ∧ __iter__ ds = Ok ["u1"; "u2"]).
  { intros (ds & Hi & Hit).
    pose proof (X10_integer_index env (-1) (new_world ds (const_rng 7))) as H1.
    pose proof (X10_integer_index env 2 (new_world ds (const_rng 7))) as H2.
    simpl w_self in H1, H2. rewrite Hit in H1, H2.
    destruct H1 as [H1 _]. destruct H2 as [_ H2].
    destruct (H1 ltac:(simpl; lia)) as (s & Hs & Hg).
    inversion Hs; subst s.
    exists ds. split; [exact Hi|]. split; [exact Hg|].
    apply H2. simpl. lia. }
  run.
Defined.

Lemma X12_witness :
  ∃ ds rec w1,
    __init__ env pair_cached = Ok ds
    ∧ __getitem__ env (UidStr "u1") (new_world ds (const_rng 7))
      = (Ok ("u1", rec), w1)
    ∧ cache_lookup (w_self w1) "u1" = Some rec
    ∧ cache_lookup
        (w_self (snd (__getitem__ env (UidStr "u2") w1))) "u1" = Some rec.
Proof.
  cut (∃ ds rec w1,
          (__init__ env pair_cached = Ok ds
           ∧ __getitem__ env (UidStr "u1") (new_world ds (const_rng 7))
             = (Ok ("u1", rec), w1))
          ∧ cache_lookup (w_self w1) "u1" = Some rec).
  { intros (ds & rec & w1 & [Hi Hg] & Hc).
    exists ds, rec, w1. split; [exact Hi|]. split; [exact Hg|].
    split; [exact Hc|].
    apply (proj1 (X12_cache_only_grows env (UidStr "u2") w1)), Hc. }
  run.
Defined.

(** ** Fetching outside training *)

Section RngFree.

Context (E : externals).

Lemma free_ret {A} (a : A) (w : world) : rng_free_at (ret a) w.
Proof. intros g. reflexivity. Qed.

Lemma free_raise {A} (e : exn) (w : world) : rng_free_at (@raise A e) w.
Proof. intros g. reflexivity. Qed.

Lemma free_lift {A} (r : result A) (w : world) : rng_free_at (lift r) w.
Proof. intros g. reflexivity. Qed.

Lemma free_get_self (w : world) : rng_free_at get_self w.
Proof. intros g. reflexivity. Qed.

Lemma free_log (ev : event) (w : world) : rng_free_at (log ev) w.
Proof. intros g. reflexivity. Qed.

Lemma free_query (name : string) (key : pyval) (w : world) :
  rng_free_at (query E name key) w.
Proof.
  intros g. unfold query, set_rng. simpl.
  destruct (od_get (loader_dict (w_self w)) name) as [l|]; [|reflexivity].
  destruct (loader_getitem E l key) as [r l']. reflexivity.
Qed.

Lemma free_cache_store (uid : string) (data : odict pyval) (w : world) :
  rng_free_at (cache_store E uid data) w.
Proof.
  intros g. unfold cache_store, set_rng. simpl.
  destruct (cache (w_self w)) as [c|]; [|reflexivity].
  destruct (Z_lt_num _ _); reflexivity.
Qed.

Lemma free_bind {A B} (m : M A) (f : A → M B) (w : world) :
  rng_free_at m w →
  (∀ a w1, m w = (Ok a, w1) → rng_free_at (f a) w1) →
  rng_free_at (bind m f) w.
Proof.
  intros Hm Hf g. unfold bind. rewrite Hm.
  destruct (m w) as [[a|e] w1] eqn:Hmw; simpl; [|reflexivity].
  apply (Hf a w1 eq_refl).
Qed.

Ltac free_tac :=
  repeat first
    [ apply free_ret | apply free_raise | apply free_lift | apply free_get_self
    | apply free_log | apply free_query | apply free_cache_store
    | apply free_bind; [ | intros ? ? ? ]
    | match goal with
      | |- rng_free_at (match ?x with _ => _ end) _ => destruct x
      end ].

Lemma free_load_value (uid : string) (p : Z) (name : string) (w : world) :
  rng_free_at (load_value E uid p name) w.
Proof. unfold load_value. free_tac. Qed.

Lemma free_load_data (uid : string) (p : Z) (names : list string)
    (data : odict pyval) (w : world) :
  rng_free_at (load_data E uid p names data) w.
Proof.
  revert data w. induction names as [|name rest IH]; intros data w; simpl.
  - apply free_ret.
  - apply free_bind; [apply free_load_value | intros; apply IH].
Qed.

Lemma free_apply_preprocess (uid : string) (data : odict pyval) (t : pyval)
    (w : world) :
  rng_free_at (apply_preprocess uid data t) w.
Proof. unfold apply_preprocess. free_tac. Qed.

Lemma free_assemble (uid : string) (w : world) :
  mode (w_self w) ≠ "train" → rng_free_at (assemble E uid) w.
Proof.
  intros Hm. unfold assemble. apply free_bind.
  - intros g. rewrite (sample_aug_not_train E uid w Hm).
    apply (sample_aug_not_train E uid (set_rng w g) Hm).
  - intros [p t] w0 _. free_tac. apply free_load_data.
Qed.

Lemma choose_mask_not_train (length : Z) (w : world) :
  mode (w_self w) ≠ "train" → choose_mask length w = (Ok None, w).
Proof.
  intros H. unfold choose_mask, bind, get_self.
  destruct (String.eqb_spec (mode (w_self w)) "train");
    [contradiction | reflexivity].
Qed.

Lemma choose_crop_not_train (length : Z) (w : world) :
  mode (w_self w) ≠ "train" → choose_crop length w = (Ok None, w).
Proof.
  intros H. unfold choose_crop, bind, get_self.
  destruct (String.eqb_spec (mode (w_self w)) "train");
    [contradiction | reflexivity].
Qed.

(** Outside training, alignment is truncation to the minimum length. *)
Lemma align_not_train (data : odict pyval) (w : world) :
  mode (w_self w) ≠ "train" →
  align data w
  = (rbind (aligned_lengths (not_align (w_self w)) data) (λ lens,
     rbind (py_min lens) (λ length,
     rmapM (align_entry (not_align (w_self w)) length None None) data)), w).
Proof.
  intros H. unfold align, bind, get_self, lift.
  destruct (aligned_lengths _ data) as [lens|e]; [|reflexivity]. simpl.
  destruct (py_min lens) as [m|e]; [|reflexivity]. simpl.
  rewrite (choose_mask_not_train m w H), (choose_crop_not_train m w H).
  reflexivity.
Qed.

Lemma free_build_record (uid : string) (w : world) :
  mode (w_self w) ≠ "train" → rng_free_at (build_record E uid) w.
Proof.
  intros Hm. unfold build_record. apply free_bind.
  - apply free_assemble, Hm.
  - intros [[p t] data] w1 Ha.
    pose proof (stable_assemble E uid w) as Hst. rewrite Ha in Hst.
    simpl in Hst.
    pose proof (stable_proj mode _ _ ltac:(reflexivity) Hst) as Hmode.
    assert (Hm1 : mode (w_self w1) ≠ "train") by congruence.
    apply free_bind.
    + intros g. rewrite (align_not_train data w1 Hm1).
      apply (align_not_train data (set_rng w1 g) Hm1).
    + intros data2 w2 _. free_tac.
Qed.

(** X11. Outside training mode a fetch never looks at the random
    generator: started with any other generator it returns the same result
    (the same record or the same exception) and leaves the same dataset and
    the same log, and the generator is left exactly where it was. *)
Theorem X11_no_randomness_outside_training (uid : uid_arg) (w : world) :
  mode (w_self w) ≠ "train" →
  (∀ g, __getitem__ E uid (mk_world (w_self w) g (w_log w))
        = (fst (__getitem__ E uid w),
           mk_world (w_self (snd (__getitem__ E uid w))) g
                    (w_log (snd (__getitem__ E uid w)))))
  ∧ w_rng (snd (__getitem__ E uid w)) = w_rng w.
Proof.
  intros Hm.
  assert (Hfree : rng_free_at (__getitem__ E uid) w).
  { unfold __getitem__. apply free_bind.
    - unfold resolve_uid. free_tac.
    - intros s w0 Hr.
      pose proof (resolve_uid_world uid w) as Hw. rewrite Hr in Hw.
      simpl in Hw. subst w0.
      apply free_bind; [apply free_get_self|].
      intros ds w0 Hds. apply get_self_Ok in Hds as [-> ->].
      destruct (cache_lookup (w_self w) s); [apply free_ret|].
      apply free_bind; [apply free_build_record, Hm|].
      intros; apply free_ret. }
  split; [exact Hfree|].
  specialize (Hfree (w_rng w)). destruct w as [ds g0 lg].
  unfold set_rng in Hfree. simpl in *.
  apply (f_equal snd) in Hfree. simpl in Hfree.
  apply (f_equal w_rng) in Hfree. simpl in Hfree. exact Hfree.
Qed.

End RngFree.

Lemma X11_witness :
  ∃ ds rec w',
    __init__ env (defaults svs) = Ok ds
    ∧ __getitem__ env (UidStr "u1") (new_world ds (const_rng 7))
      = (Ok ("u1", rec), w')
    ∧ w_rng w' = const_rng 7
    ∧ ∀ g, fst (__getitem__ env (UidStr "u1") (new_world ds g))
           = Ok ("u1", rec).
Proof.
  cut (∃ ds rec w',
          __init__ env (defaults svs) = Ok ds
          ∧ __getitem__ env (UidStr "u1") (new_world ds (const_rng 7))
            = (Ok ("u1", rec), w')
          ∧ mode ds = "valid").
  { intros (ds & rec & w' & Hi & Hg & Hm).
    destruct (X11_no_randomness_outside_training env (UidStr "u1")
                (new_world ds (const_rng 7))) as [Hall Hrng].
    { simpl. rewrite Hm. discriminate. }
    rewrite Hg in Hrng. simpl in Hrng.
    exists ds, rec, w'. split; [exact Hi|]. split; [exact Hg|].
    split; [exact Hrng|].
    intros g. specialize (Hall g). simpl w_self in Hall. simpl w_log in Hall.
    unfold new_world. rewrite Hall, Hg. reflexivity. }
  run.
Defined.

(** * The shape of a record *)

Section Shape.

Context (E : externals).

Lemma build_record_keys (s : string) (w : world) :
  od_keys (loader_dict (w_self (snd (build_record E s w))))
  = od_keys (loader_dict (w_self w)).
Proof.
  unfold build_record, bind.
  pose proof (stable_assemble E s w) as [_ H1].
  destruct (assemble E s w) as [[[[p t] data]|e] w1]; simpl in H1;
    [|exact H1].
  pose proof (quiet_align data w1) as [Hs2 _].
  destruct (align data w1) as [[data2|e] w2]; simpl in Hs2;
    [|simpl; rewrite Hs2; exact H1].
  unfold get_self, lift.
  destruct (force_precision E (w_self w2) (attach_aug data2 p t)) as [rec|e];
    [|simpl; rewrite Hs2; exact H1].
  unfold cache_store.
  destruct (cache (w_self w2)) as [c|]; [|simpl; rewrite Hs2; exact H1].
  destruct (Z_lt_num _ _); simpl; rewrite Hs2; exact H1.
Qed.

Lemma getitem_keys (uid : uid_arg) (w : world) :
  od_keys (loader_dict (w_self (snd (__getitem__ E uid w))))
  = od_keys (loader_dict (w_self w)).
Proof.
  unfold __getitem__, bind.
  pose proof (resolve_uid_world uid w) as Hr.
  destruct (resolve_uid uid w) as [[s|e] w0]; simpl in Hr; subst w0;
    [|reflexivity].
  unfold get_self.
  destruct (cache_lookup (w_self w) s) as [data|]; [reflexivity|].
  pose proof (build_record_keys s w) as Hk.
  destruct (build_record E s w) as [[rec|e] w']; exact Hk.
Qed.

(** The modalities of a reachable dataset are the declared ones. *)
Lemma reachable_names (a : init_args) (w : world) :
  reachable E a w →
  names (w_self w) = map decl_name (a_path_name_type_list a)
  ∧ NoDup (names (w_self w)).
Proof.
  unfold names.
  induction 1 as [ds g Hinit | w uid g Hreach [IH1 IH2]].
  - apply init_Ok in Hinit as (ld & di & mcs & Hl & _ & _ & ->).
    apply init_loaders_keys in Hl as [Hk Hnd]. simpl in *.
    split; [exact Hk | apply Hnd; constructor].
  - rewrite getitem_keys. simpl. auto.
Qed.

(** A property of the records built in reachable worlds holds of every
    record a reachable cache contains. *)
Lemma reachable_records (P : odict pyval → Prop) (a : init_args) :
  (∀ s w0 g rec w1,
      reachable E a w0 →
      build_record E s (set_rng w0 g) = (Ok rec, w1) → P rec) →
  ∀ w, reachable E a w →
  ∀ s rec, cache_lookup (w_self w) s = Some rec → P rec.
Proof.
  intros Hbuild w Hreach.
  induction Hreach as [ds g Hinit | w uid g Hreach IH]; intros s rec Hl.
  - simpl in Hl. rewrite (init_cache_empty E _ _ s Hinit) in Hl. discriminate.
  - pose proof (getitem_world E uid (mk_world (w_self w) g (w_log w)))
      as [_ [Heq|(s0 & c & rec0 & w' & Hb & Hc0 & Hc1)]];
      unfold cache_lookup in Hl.
    + rewrite Heq in Hl. apply (IH s). exact Hl.
    + rewrite Hc1 in Hl. simpl in Hl.
      destruct (decide (s0 = s)) as [->|Hne].
      * rewrite lookup_insert_eq in Hl. inversion Hl; subst rec0.
        apply (Hbuild s w g rec w' Hreach Hb).
      * rewrite lookup_insert_ne in Hl by assumption.
        apply (IH s). unfold cache_lookup. simpl in Hc0. rewrite Hc0.
        exact Hl.
Qed.

Lemma set_rng_same (w : world) : set_rng w (w_rng w) = w.
Proof. destruct w. reflexivity. Qed.

Lemma rmapM_keys {V W} (f : string * V → result (string * W))
    (d : odict V) (d' : odict W) :
  (∀ kv kv', f kv = Ok kv' → fst kv' = fst kv) →
  rmapM f d = Ok d' → od_keys d' = od_keys d.
Proof.
  intros Hf H. apply rmapM_Forall2 in H.
  induction H as [|kv kv' l l' Hkv _ IH]; simpl; [reflexivity|].
  rewrite (Hf _ _ Hkv), IH. reflexivity.
Qed.

Lemma align_entry_key (nal : list string) (m : Z) (mask crop : option (Z * Z))
    (kv kv' : string * pyval) :
  align_entry nal m mask crop kv = Ok kv' → fst kv' = fst kv.
Proof.
  unfold align_entry. destruct (str_in (fst kv) nal).
  - intros H. inversion H. reflexivity.
  - intros H. apply rbind_Ok in H as (v & _ & H). inversion H. reflexivity.
Qed.

Lemma load_data_keys (uid : string) (p : Z) (names : list string)
    (data data' : odict pyval) (w w' : world) :
  load_data E uid p names data w = (Ok data', w') →
  NoDup names → (∀ n, In n names → od_mem data n = false) →
  od_keys data' = od_keys data ++ names.
Proof.
  revert data w. induction names as [|name rest IH]; intros data w H Hnd Hnew;
    simpl in H.
  - apply ret_Ok in H as [-> _]. rewrite app_nil_r. reflexivity.
  - apply bind_Ok in H as (v & w1 & _ & H).
    apply NoDup_cons in Hnd as [Hname Hnd].
    apply IH in H; [| exact Hnd |].
    + rewrite H, od_keys_set_fresh by (apply Hnew; left; reflexivity).
      rewrite <- app_assoc. reflexivity.
    + intros n Hn. unfold od_mem. rewrite od_get_set.
      destruct (String.eqb_spec name n) as [->|_].
      * exfalso. apply Hname, list_elem_of_In, Hn.
      * apply (Hnew n). right. exact Hn.
Qed.

Lemma apply_preprocess_None (uid : string) (data : odict pyval) (t : pyval)
    (w : world) :
  preprocess (w_self w) = None → apply_preprocess uid data t w = (Ok data, w).
Proof.
  intros H. unfold apply_preprocess, bind, get_self. rewrite H. reflexivity.
Qed.

Lemma attach_aug_keys (data : odict pyval) (p : Z) (t : pyval) :
  ¬ In "pitch_aug" (od_keys data) → ¬ In "time_aug" (od_keys data) →
  od_keys (attach_aug data p t) = od_keys data ++ ["pitch_aug"; "time_aug"].
Proof.
  intros Hp Ht. unfold attach_aug.
  assert (Hp' : od_mem data "pitch_aug" = false).
  { destruct (od_mem data "pitch_aug") eqn:H; [|reflexivity].
    apply od_mem_keys in H. contradiction. }
  rewrite od_keys_set_fresh.
  - rewrite (od_keys_set_fresh _ _ _ Hp'), <- app_assoc. reflexivity.
  - destruct (od_mem _ "time_aug") eqn:H; [|reflexivity].
    apply od_mem_keys in H. rewrite (od_keys_set_fresh _ _ _ Hp') in H.
    apply in_app_or in H as [H|[H|[]]]; [contradiction | discriminate].
Qed.

(** The keys of a record that was just built without preprocessing. *)
Lemma build_record_names (s : string) (w w' : world) (rec : odict pyval) :
  build_record E s w = (Ok rec, w') →
  preprocess (w_self w) = None →
  NoDup (names (w_self w)) →
  ¬ In "pitch_aug" (names (w_self w)) → ¬ In "time_aug" (names (w_self w)) →
  od_keys rec = names (w_self w) ++ ["pitch_aug"; "time_aug"].
Proof.
  unfold names. intros H Hpre Hnd Hp Ht.
  apply build_record_Ok in H
    as (p & t & data & w1 & data2 & w2 & Ha & Hal & Hf & _).
  apply assemble_Ok in Ha as (w0 & raw & w3 & Hs & Hld & Hpp).
  pose proof (stable_sample_aug E s w) as Hst0. rewrite Hs in Hst0.
  simpl in Hst0.
  pose proof (stable_load_data E s p (od_keys (loader_dict (w_self w0))) [] w0)
    as Hst1. rewrite Hld in Hst1. simpl in Hst1.
  assert (Hpre3 : preprocess (w_self w3) = None).
  { rewrite (stable_proj preprocess _ _ ltac:(reflexivity) Hst1).
    rewrite (stable_proj preprocess _ _ ltac:(reflexivity) Hst0). exact Hpre. }
  rewrite (apply_preprocess_None s raw t w3 Hpre3) in Hpp.
  inversion Hpp; subst data w1. clear Hpp.
  destruct Hst0 as [_ Hk0]. rewrite Hk0 in Hld.
  apply load_data_keys in Hld; [| exact Hnd | reflexivity].
  simpl in Hld.
  apply align_Ok in Hal as (lens & m & mask & crop & w4 & _ & _ & _ & _ & Hloop).
  apply rmapM_keys in Hloop; [|apply align_entry_key].
  unfold force_precision in Hf. apply rmapM_keys in Hf.
  - rewrite Hf, attach_aug_keys; rewrite Hloop, Hld; auto.
  - intros kv kv' Hkv. eapply force_value_key_len, Hkv.
Qed.

(** X13. Without a preprocessing function, and when no modality is itself
    named [pitch_aug] or [time_aug], every record has one entry per declared
    modality, in the order of declaration, followed by [pitch_aug] and
    [time_aug]; this holds of a record served from the cache as well. *)
Theorem X13_record_keys (a : init_args) (w w' : world) (uid : uid_arg)
    (s : string) (rec : odict pyval) :
  reachable E a w →
  a_preprocess a = None →
  ¬ In "pitch_aug" (map decl_name (a_path_name_type_list a)) →
  ¬ In "time_aug" (map decl_name (a_path_name_type_list a)) →
  __getitem__ E uid w = (Ok (s, rec), w') →
  od_keys rec
  = map decl_name (a_path_name_type_list a) ++ ["pitch_aug"; "time_aug"].
Proof.
  intros Hreach Hpre Hp Ht Hget.
  assert (Hbuild : ∀ s w0 g rec w1,
             reachable E a w0 →
             build_record E s (set_rng w0 g) = (Ok rec, w1) →
             od_keys rec
             = map decl_name (a_path_name_type_list a)
               ++ ["pitch_aug"; "time_aug"]).
  { clear - Hpre Hp Ht. intros s w0 g rec w1 Hreach Hb.
    pose proof (reachable_names a w0 Hreach) as [Hn Hnd].
    destruct (reachable_cache E (λ _ _, True) a w0 (λ _ _ _ _ _, I) Hreach)
      as (ds0 & Hinit & Hfr & _).
    apply init_Ok in Hinit as (ld & di & mcs & _ & _ & _ & ->).
    apply (f_equal preprocess) in Hfr. simpl in Hfr.
    rewrite <- Hn.
    apply (build_record_names s (set_rng w0 g) w1 rec Hb); simpl;
      [congruence | exact Hnd | rewrite Hn; exact Hp | rewrite Hn; exact Ht]. }
  apply getitem_Ok in Hget as [_ [[Hl _]|[_ Hb]]].
  - apply (reachable_records _ a Hbuild w Hreach s rec Hl).
  - rewrite <- (set_rng_same w) in Hb. apply (Hbuild _ _ _ _ _ Hreach Hb).
Qed.

Lemma astype_kind (d : string) (a a' : ndarray) :
  astype E d a = Ok a' → np_dtype_kind E d = Some (nd_kind a').
Proof.
  unfold astype. destruct (np_dtype_kind E d) as [k|]; [|discriminate].
  intros H. inversion H. reflexivity.
Qed.

Lemma force_value_kind (ds : MuskitDataset) (k k' : string) (v v' : pyval) :
  force_value E ds (k, v) = Ok (k', v') →
  (isinstance_tuple v' = true ∧ v' = v)
  ∨ ∃ a a', v = VNd a ∧ v' = VNd a'
      ∧ ((nd_kind a = KindF ∧ astype E (float_dtype ds) a = Ok a')
         ∨ (nd_kind a = KindI ∧ astype E (int_dtype ds) a = Ok a')).
Proof.
  unfold force_value.
  destruct v as [| | | | a | | vs | |]; simpl; try discriminate.
  - destruct (nd_kind a) eqn:Hk; try discriminate.
    + intros H. apply rbind_Ok in H as (a' & Ha & H). inversion H; subst.
      right. exists a, a'. auto.
    + intros H. apply rbind_Ok in H as (a' & Ha & H). inversion H; subst.
      right. exists a, a'. auto.
  - intros H. inversion H; subst. left. auto.
Qed.

(** X14. Every value of a record [__getitem__] returns, cached or not, is
    either a tuple (passed through as it is) or an array whose dtype has
    the kind of the configured float dtype or of the configured integer
    dtype: nothing else reaches the caller. *)
Theorem X14_record_values (a : init_args) (w w' : world) (uid : uid_arg)
    (s : string) (rec : odict pyval) :
  reachable E a w →
  __getitem__ E uid w = (Ok (s, rec), w') →
  ∀ k v, od_get rec k = Some v →
    isinstance_tuple v = true
    ∨ ∃ arr, v = VNd arr
        ∧ (np_dtype_kind E (a_float_dtype a) = Some (nd_kind arr)
           ∨ np_dtype_kind E (a_int_dtype a) = Some (nd_kind arr)).
Proof.
  intros Hreach Hget.
  set (P := λ (ds : MuskitDataset) (rec : odict pyval),
         ∀ k v, od_get rec k = Some v →
           isinstance_tuple v = true
           ∨ ∃ arr, v = VNd arr
               ∧ (np_dtype_kind E (float_dtype ds) = Some (nd_kind arr)
                  ∨ np_dtype_kind E (int_dtype ds) = Some (nd_kind arr))).
  assert (Hbuild : ∀ s w0 rec w1,
             build_record E s w0 = (Ok rec, w1) → P (frozen (w_self w0)) rec).
  { clear. intros s w0 rec w1 Hb k v Hv. simpl.
    apply build_record_Ok in Hb
      as (p & t & data & w1' & data2 & w2 & Ha & Hal & Hf & _).
    pose proof (stable_assemble E s w0) as Hst. rewrite Ha in Hst.
    simpl in Hst.
    pose proof (quiet_align data w1') as Hq. rewrite Hal in Hq.
    destruct Hq as [Hq _]. simpl in Hq.
    pose proof (force_precision_get E _ _ _ k Hf) as Hrel.
    rewrite Hv in Hrel.
    destruct (od_get (attach_aug data2 p t) k) as [v0|]; [|contradiction].
    rewrite Hq in Hrel.
    rewrite <- (stable_proj float_dtype _ _ ltac:(reflexivity) Hst).
    rewrite <- (stable_proj int_dtype _ _ ltac:(reflexivity) Hst).
    apply force_value_kind in Hrel
      as [[Ht _]|(arr & arr' & _ & -> & [[_ Hk]|[_ Hk]])].
    - left. exact Ht.
    - right. exists arr'. split; [reflexivity|]. left.
      eapply astype_kind, Hk.
    - right. exists arr'. split; [reflexivity|]. right.
      eapply astype_kind, Hk. }
  destruct (reachable_cache E P a w Hbuild Hreach) as (ds0 & Hinit & Hfr & Hc).
  assert (HP : P (frozen ds0) rec).
  { apply getitem_Ok in Hget as [_ [[Hl _]|[_ Hb]]].
    - eapply Hc, Hl.
    - rewrite <- Hfr. eapply Hbuild, Hb. }
  apply init_Ok in Hinit as (ld & di & mcs & _ & _ & _ & ->).
  exact HP.
Qed.

End Shape.

Lemma X13_witness :
  ∃ ds rec w',
    __init__ env (defaults svs) = Ok ds
    ∧ __getitem__ env (UidStr "u2") (new_world ds (const_rng 7))
      = (Ok ("u2", rec), w')
    ∧ od_keys rec
      = ["singing"; "midi"; "label"; "feats"; "pitch_aug"; "time_aug"].
Proof.
  cut (∃ ds rec w',
          __init__ env (defaults svs) = Ok ds
          ∧ __getitem__ env (UidStr "u2") (new_world ds (const_rng 7))
            = (Ok ("u2", rec), w')).
  { intros (ds & rec & w' & Hi & Hg).
    exists ds, rec, w'. split; [exact Hi|]. split; [exact Hg|].
    apply (X13_record_keys env (defaults svs) (new_world ds (const_rng 7))
             w' (UidStr "u2") "u2" rec
             (reach_init env (defaults svs) ds (const_rng 7) Hi) eq_refl);
      [| | exact Hg]; simpl; intros H;
      repeat (destruct H as [H|H]; [discriminate|]); exact H. }
  run.
Defined.

Lemma X14_witness :
  ∃ ds rec w' v,
    __init__ env pair_train = Ok ds
    ∧ __getitem__ env (UidStr "u1") (new_world ds (const_rng 7))
      = (Ok ("u1", rec), w')
    ∧ od_get rec "singing" = Some v
    ∧ ∃ arr, v = VNd arr ∧ (Some KindF = Some (nd_kind arr)
                           ∨ Some KindI = Some (nd_kind arr)).
Proof.
  cut (∃ ds rec w' arr,
          (__init__ env pair_train = Ok ds
           ∧ __getitem__ env (UidStr "u1") (new_world ds (const_rng 7))
             = (Ok ("u1", rec), w'))
          ∧ od_get rec "singing" = Some (VNd arr)).
  { intros (ds & rec & w' & arr & [Hi Hg] & Hv).
    destruct (X14_record_values env pair_train _ _ _ _ _
                (reach_init env pair_train ds (const_rng 7) Hi) Hg
                "singing" (VNd arr) Hv) as [Ht|Harr]; [discriminate|].
    exists ds, rec, w', (VNd arr). auto. }
  run.
Defined.

(** * Alignment, masking and cropping *)

Section Alignment.

Context (E : externals).

Lemma choose_mask_Ok (length : Z) (w w' : world) (mask : option (Z * Z)) :
  0 ≤ length →
  choose_mask length w = (Ok mask, w') →
  match mask with
  | Some (mask_index_begin, mask_index_end) =>
      (String.eqb (mode (w_self w)) "train" && mask_aug (w_self w) = true)
      ∧ 0 ≤ mask_index_begin ∧ mask_index_begin ≤ mask_index_end
      ∧ mask_index_end ≤ length
      ∧ ∃ bound, py_int (float_of_Z length * 0.2)%float = Ok bound
                 ∧ mask_index_end - mask_index_begin ≤ bound
  | None =>
      String.eqb (mode (w_self w)) "train" && mask_aug (w_self w) = false
  end.
Proof.
  unfold choose_mask. intros Hlen H.
  apply bind_Ok in H as (ds & w0 & Hds & H).
  apply get_self_Ok in Hds as [-> ->].
  destruct (String.eqb (mode (w_self w)) "train" && mask_aug (w_self w)).
  - apply bind_Ok in H as (bound & w1 & Hb & H).
    apply lift_Ok in Hb as [Hb ->].
    apply bind_Ok in H as (mask_length & w2 & Hm & H).
    apply randint_range in Hm.
    destruct (Z.ltb_spec 0 (length - mask_length)).
    + apply bind_Ok in H as (b & w3 & Hbeg & H).
      apply ret_Ok in H as [-> _]. apply randint_range in Hbeg.
      split; [reflexivity|]. split; [lia|]. split; [lia|]. split; [lia|].
      exists bound. split; [assumption | lia].
    + apply ret_Ok in H as [-> _].
      split; [reflexivity|]. split; [lia|]. split; [lia|]. split; [lia|].
      exists bound. split; [assumption | lia].
  - apply ret_Ok in H as [-> _]. reflexivity.
Qed.

Lemma build_record_force (uid : string) (w w' : world) (rec : odict pyval) :
  build_record E uid w = (Ok rec, w') →
  ∃ p t data w1 data2 w2,
    assemble E uid w = (Ok (p, t, data), w1)
    ∧ align data w1 = (Ok data2, w2)
    ∧ not_align (w_self w1) = not_align (w_self w)
    ∧ mode (w_self w1) = mode (w_self w)
    ∧ mask_aug (w_self w1) = mask_aug (w_self w)
    ∧ ∀ k, k ≠ "pitch_aug" → k ≠ "time_aug" →
        match od_get data2 k, od_get rec k with
        | Some v, Some v' => force_value E (w_self w) (k, v) = Ok (k, v')
        | None, None => True
        | _, _ => False
        end.
Proof.
  intros H.
  apply build_record_Ok in H
    as (p & t & data & w1 & data2 & w2 & Ha & Hal & Hf & _).
  pose proof (stable_assemble E uid w) as Hst. rewrite Ha in Hst.
  simpl in Hst.
  pose proof (quiet_align data w1) as Hq. rewrite Hal in Hq.
  destruct Hq as [Hq _]. simpl in Hq.
  exists p, t, data, w1, data2, w2.
  split; [exact Ha|]. split; [exact Hal|].
  split; [apply (stable_proj not_align _ _ ltac:(reflexivity) Hst)|].
  split; [apply (stable_proj mode _ _ ltac:(reflexivity) Hst)|].
  split; [apply (stable_proj mask_aug _ _ ltac:(reflexivity) Hst)|].
  intros k Hp Ht.
  pose proof (force_precision_get E _ _ _ k Hf) as Hrel.
  rewrite attach_aug_other in Hrel by assumption.
  destruct (od_get data2 k) as [v|], (od_get rec k) as [v'|]; try exact Hrel.
  unfold force_value in *. rewrite Hq in Hrel.
  rewrite (stable_proj float_dtype _ _ ltac:(reflexivity) Hst) in Hrel.
  rewrite (stable_proj int_dtype _ _ ltac:(reflexivity) Hst) in Hrel.
  exact Hrel.
Qed.

(** The loop over [data.items()] passes an exempt entry on as it is. *)
Lemma align_loop_exempt (nal : list string) (m : Z) (mask crop : option (Z * Z))
    (data data' : odict pyval) (k : string) :
  rmapM (align_entry nal m mask crop) data = Ok data' →
  str_in k nal = true → od_get data' k = od_get data k.
Proof.
  intros H Hk. apply rmapM_Forall2 in H.
  pose proof (od_get_Forall2
                (λ k (v v' : pyval), str_in k nal = true → v' = v)
                data data' k) as Hrel.
  simpl in Hrel.
  assert (HF : Forall2 (λ kv kv' : string * pyval,
                 fst kv = fst kv'
                 ∧ (str_in (fst kv) nal = true → snd kv' = snd kv))
               data data').
  { eapply Forall2_impl; [exact H|].
    intros kv kv' Hkv. split.
    - symmetry. eapply align_entry_key, Hkv.
    - intros Hin. unfold align_entry in Hkv. rewrite Hin in Hkv.
      inversion Hkv. reflexivity. }
  specialize (Hrel HF).
  destruct (od_get data k) as [v|], (od_get data' k) as [v'|];
    try contradiction; [|reflexivity].
  rewrite (Hrel Hk). reflexivity.
Qed.

(** X15. A modality named in [not_align] is never truncated, masked or
    cropped: in a record that a call builds, its value is the one that came
    out of loading and preprocessing, converted in precision only, so it
    has the length it had, whatever the common length of the other
    modalities. *)
Theorem X15_exempt_untouched (uid : uid_arg) (w w' : world) (s : string)
    (rec : odict pyval) :
  __getitem__ E uid w = (Ok (s, rec), w') →
  cache_lookup (w_self w) s = None →
  ∃ p t data w1,
    assemble E s w = (Ok (p, t, data), w1)
    ∧ ∀ k, str_in k (not_align (w_self w)) = true →
        k ≠ "pitch_aug" → k ≠ "time_aug" →
        match od_get data k, od_get rec k with
        | Some v, Some v' =>
            force_value E (w_self w) (k, v) = Ok (k, v')
            ∧ py_len v' = py_len v
        | None, None => True
        | _, _ => False
        end.
Proof.
  intros H Hmiss.
  apply getitem_Ok in H as [_ [[Hl _]|[_ Hb]]]; [congruence|].
  apply build_record_force in Hb
    as (p & t & data & w1 & data2 & w2 & Ha & Hal & Hna & _ & _ & Hf).
  exists p, t, data, w1. split; [exact Ha|].
  intros k Hk Hp Ht.
  apply align_Ok in Hal as (lens & m & mask & crop & w3 & _ & _ & _ & _ & Hloop).
  rewrite Hna in Hloop.
  specialize (Hf k Hp Ht).
  rewrite (align_loop_exempt _ _ _ _ _ _ k Hloop Hk) in Hf.
  destruct (od_get data k) as [v|], (od_get rec k) as [v'|]; try exact Hf.
  split; [exact Hf|].
  apply force_value_key_len in Hf as [_ Hlen]. exact Hlen.
Qed.

(** X16. In training mode with [random_crop], the common length [L] of the
    aligned modalities of a record that a call builds lies between
    [int(0.8 * m)] and [m], where [m] is the smallest length the aligned
    modalities had after preprocessing. *)
Theorem X16_crop_length (uid : uid_arg) (w w' : world) (s : string)
    (rec : odict pyval) :
  __getitem__ E uid w = (Ok (s, rec), w') →
  cache_lookup (w_self w) s = None →
  mode (w_self w) = "train" → random_crop (w_self w) = true →
  ∃ p t data w1 lens m bound L,
    assemble E s w = (Ok (p, t, data), w1)
    ∧ aligned_lengths (not_align (w_self w)) data = Ok lens
    ∧ py_min lens = Ok m
    ∧ py_int (float_of_Z m * 0.8)%float = Ok bound
    ∧ 0 ≤ bound ∧ bound ≤ L ∧ L ≤ m
    ∧ ∀ k v, str_in k (not_align (w_self w)) = false →
             k ≠ "pitch_aug" → k ≠ "time_aug" →
             od_get rec k = Some v → py_len v = Ok L.
Proof.
  intros H Hmiss Hmode Hcrop.
  apply getitem_Ok in H as [_ [[Hl _]|[_ Hb]]]; [congruence|].
  apply build_record_lengths in Hb
    as (p & t & data & w1 & lens & m & crop & Ha & Hlens & Hmin & Hc & Hlen).
  rewrite Hmode, Hcrop in Hc.
  destruct crop as [[b e]|]; [|discriminate].
  destruct Hc as (_ & Hb0 & Hbe & Hem & bound & Hbound & Hrange).
  assert (Hm0 : 0 ≤ m).
  { pose proof (aligned_lengths_nonneg _ _ _ Hlens) as Hnn.
    rewrite Forall_forall in Hnn.
    apply Hnn, list_elem_of_In, (py_min_spec _ _ Hmin). }
  exists p, t, data, w1, lens, m, bound, (e - b).
  split; [exact Ha|]. split; [exact Hlens|]. split; [exact Hmin|].
  split; [exact Hbound|].
  split.
  { eapply py_int_scaled_nonneg; [exact Hm0 | | exact Hbound].
    vm_compute. exact I. }
  split; [lia|]. split; [lia|].
  intros k v Hk Hp Ht Hget.
  rewrite (Hlen k v Hk Hp Ht Hget). simpl.
  rewrite slice_len_inside by lia. reflexivity.
Qed.

(** X17. The mask span is drawn only when training with [mask_aug].  For a
    common length [length] it is a span [b:e] with [0 <= b <= e <= length]
    that covers at most [int(0.2 * length)] positions. *)
Theorem X17_mask_span (length : Z) (w w' : world) (mask : option (Z * Z)) :
  0 ≤ length →
  choose_mask length w = (Ok mask, w') →
  match mask with
  | Some (b, e) =>
      mode (w_self w) = "train" ∧ mask_aug (w_self w) = true
      ∧ 0 ≤ b ∧ b ≤ e ∧ e ≤ length
      ∧ ∃ bound, py_int (float_of_Z length * 0.2)%float = Ok bound
                 ∧ e - b ≤ bound
  | None => ¬ (mode (w_self w) = "train" ∧ mask_aug (w_self w) = true)
  end.
Proof.
  intros Hlen H. apply choose_mask_Ok in H; [|exact Hlen].
  destruct mask as [[b e]|].
  - destruct H as (Hon & Hrest).
    apply andb_true_iff in Hon as [Hm Ha]. apply String.eqb_eq in Hm.
    split; [exact Hm|]. split; [exact Ha | exact Hrest].
  - intros [Hm Ha]. rewrite Hm, Ha in H. discriminate.
Qed.

Lemma py_slice_take {A} (m : Z) (l : list A) :
  0 ≤ m → m ≤ Z.of_nat (length l) → py_slice 0 m l = take (Z.to_nat m) l.
Proof.
  intros H0 Hm. unfold py_slice, slice_bound. cbv zeta.
  destruct (Z.ltb_spec m 0); [lia|]. simpl.
  replace (Z.min 0 (Z.of_nat (length l))) with 0 by lia.
  replace (Z.min m (Z.of_nat (length l))) with m by lia.
  rewrite Z.sub_0_r. reflexivity.
Qed.

Lemma py_slice_fill_lookup {A} (zero : A → A) (b e : Z) (l : list A) (i : nat) :
  0 ≤ b → b ≤ e → e ≤ Z.of_nat (length l) →
  py_slice_fill zero b e l !! i
  = if (b <=? Z.of_nat i) && (Z.of_nat i <? e)
    then zero <$> l !! i else l !! i.
Proof.
  intros Hb Hbe He. unfold py_slice_fill, slice_bound. cbv zeta.
  destruct (Z.ltb_spec b 0); [lia|]. destruct (Z.ltb_spec e 0); [lia|].
  replace (Z.min b (Z.of_nat (length l))) with b by lia.
  replace (Z.min e (Z.of_nat (length l))) with e by lia.
  change (map zero ?x) with (zero <$> x).
  destruct (Z.leb_spec b (Z.of_nat i)), (Z.ltb_spec (Z.of_nat i) e); simpl.
  - rewrite lookup_app_r by (rewrite length_take; lia).
    rewrite lookup_app_l
      by (rewrite length_fmap, !length_take, length_drop; lia).
    rewrite list_lookup_fmap, lookup_take_lt
      by (rewrite length_take; lia).
    rewrite lookup_drop, length_take. do 2 f_equal. lia.
  - rewrite lookup_app_r by (rewrite length_take; lia).
    rewrite lookup_app_r
      by (rewrite length_fmap, !length_take, length_drop; lia).
    rewrite lookup_drop, length_fmap, !length_take, length_drop.
    f_equal. lia.
  - rewrite lookup_app_l by (rewrite length_take; lia).
    apply lookup_take_lt. lia.
  - lia.
Qed.

(** X18. On an array modality of at least [m] rows, alignment to the common
    length [m] with the mask span [b:e] keeps the first [m] rows and
    replaces the rows of the span, and no other row, by zeros. *)
Theorem X18_mask_zeroes_span (kind : dkind) (ts : list tree) (m b e : Z) :
  0 ≤ b → b ≤ e → e ≤ m → m ≤ Z.of_nat (length ts) →
  ∃ ts',
    align_value m (Some (b, e)) None (VNd (mk_ndarray kind (Node ts)))
    = Ok (VNd (mk_ndarray kind (Node ts')))
    ∧ Z.of_nat (length ts') = m
    ∧ ∀ i : nat, Z.of_nat i < m →
        ts' !! i
        = if (b <=? Z.of_nat i) && (Z.of_nat i <? e)
          then tree_map zero_like <$> ts !! i else ts !! i.
Proof.
  intros Hb Hbe Hem Hm.
  exists (py_slice_fill (tree_map zero_like) b e (py_slice 0 m ts)).
  split; [reflexivity|].
  rewrite length_py_slice_fill, py_slice_take by lia.
  split; [rewrite length_take; lia|].
  intros i Hi.
  rewrite py_slice_fill_lookup by (rewrite ?length_take; lia).
  rewrite lookup_take_lt by lia. reflexivity.
Qed.

(** X19. Masking assigns into the value, which only an array allows: in
    training mode with [mask_aug], when loading and preprocessing leave an
    aligned modality as a tuple, a string or a list, the call does not
    return a record. *)
Theorem X19_mask_needs_arrays (uid : uid_arg) (w w1 : world) (s k : string)
    (p : Z) (t v : pyval) (data : odict pyval) :
  mode (w_self w) = "train" → mask_aug (w_self w) = true →
  fst (resolve_uid uid w) = Ok s →
  cache_lookup (w_self w) s = None →
  assemble E s w = (Ok (p, t, data), w1) →
  od_get data k = Some v →
  str_in k (not_align (w_self w)) = false →
  isinstance_tuple v || isinstance_str v || isinstance_list v = true →
  ∃ e, fst (__getitem__ E uid w) = Err e.
Proof.
  intros Hmode Hmask Hr Hmiss Ha Hv Hk Hkind.
  destruct (__getitem__ E uid w) as [[[s' rec]|e] w'] eqn:Hget; [|eauto].
  exfalso.
  apply getitem_Ok in Hget as [Hr' [[Hl _]|[_ Hb]]];
    rewrite Hr in Hr'; inversion Hr'; subst s'; [congruence|].
  apply build_record_force in Hb
    as (p' & t' & data' & w1' & data2 & w2 & Ha' & Hal & Hna & Hmo & Hma & _).
  rewrite Ha in Ha'. inversion Ha'; subst p' t' data' w1'. clear Ha'.
  apply align_Ok in Hal
    as (lens & m & mask & crop & w3 & Hlens & Hmin & Hcm & _ & Hloop).
  assert (Hm0 : 0 ≤ m).
  { pose proof (aligned_lengths_nonneg _ _ _ Hlens) as Hnn.
    rewrite Forall_forall in Hnn.
    apply Hnn, list_elem_of_In, (py_min_spec _ _ Hmin). }
  apply choose_mask_Ok in Hcm; [|exact Hm0].
  rewrite Hmo, Hma, Hmode, Hmask in Hcm.
  destruct mask as [[b e]|]; [|discriminate].
  rewrite Hna in Hloop. apply rmapM_Forall2 in Hloop.
  pose proof (od_get_Forall2
                (λ k (v v' : pyval),
                   align_entry (not_align (w_self w)) m (Some (b, e)) crop (k, v)
                   = Ok (k, v'))
                data data2 k) as Hrel.
  simpl in Hrel.
  assert (HF : Forall2 (λ kv kv' : string * pyval,
                 fst kv = fst kv'
                 ∧ align_entry (not_align (w_self w)) m (Some (b, e)) crop
                     (fst kv, snd kv) = Ok (fst kv, snd kv'))
               data data2).
  { eapply Forall2_impl; [exact Hloop|].
    intros [k0 v0] [k1 v1] Hkv. simpl.
    pose proof (align_entry_key _ _ _ _ _ _ Hkv) as Hfst. simpl in Hfst.
    subst k1. auto. }
  specialize (Hrel HF). rewrite Hv in Hrel.
  destruct (od_get data2 k) as [v'|]; [|contradiction].
  unfold align_entry in Hrel. simpl in Hrel. rewrite Hk in Hrel.
  apply rbind_Ok in Hrel as (v2 & Hv2 & _).
  unfold align_value in Hv2.
  apply rbind_Ok in Hv2 as (v3 & Hv3 & Hv2).
  apply rbind_Ok in Hv2 as (v4 & Hv4 & _).
  destruct v as [| | sv | | | | vs | vs |]; try discriminate;
    simpl in Hv3; inversion Hv3; subst v3; discriminate.
Qed.

End Alignment.

Lemma X15_witness :
  ∃ ds rec w' v,
    __init__ env pair_exempt = Ok ds
    ∧ __getitem__ env (UidStr "u1") (new_world ds (const_rng 7))
      = (Ok ("u1", rec), w')
    ∧ od_get rec "feats" = Some v ∧ py_len v = Ok 6.
Proof.
  cut (∃ ds rec w' p t data w1,
          (__init__ env pair_exempt = Ok ds
           ∧ __getitem__ env (UidStr "u1") (new_world ds (const_rng 7))
             = (Ok ("u1", rec), w')
           ∧ assemble env "u1" (new_world ds (const_rng 7))
             = (Ok (p, t, data), w1))
          ∧ cache_lookup ds "u1" = None
          ∧ not_align ds = ["feats"]
          ∧ od_get data "feats" = Some (VNd (ivec [1; 2; 3; 4; 5; 6]))).
  { intros (ds & rec & w' & p & t & data & w1 & (Hi & Hg & Ha) & Hc & Hna & Hd).
    destruct (X15_exempt_untouched env _ _ _ _ _ Hg Hc)
      as (p' & t' & data' & w1' & Ha' & Hall).
    rewrite Ha in Ha'. inversion Ha'; subst p' t' data' w1'.
    specialize (Hall "feats"). simpl in Hall. rewrite Hna, Hd in Hall.
    specialize (Hall eq_refl ltac:(discriminate) ltac:(discriminate)).
    destruct (od_get rec "feats") as [v|] eqn:Hv; [|contradiction].
    destruct Hall as [_ Hlen].
    exists ds, rec, w', v. split; [exact Hi|]. split; [exact Hg|].
    split; [exact Hv | rewrite Hlen; reflexivity]. }
  run.
Defined.

Lemma X16_witness :
  ∃ ds rec w' m bound L,
    __init__ env pair_train = Ok ds
    ∧ __getitem__ env (UidStr "u1") (new_world ds (const_rng 7))
      = (Ok ("u1", rec), w')
    ∧ py_int (float_of_Z m * 0.8)%float = Ok bound
    ∧ bound ≤ L ∧ L ≤ m.
Proof.
  cut (∃ ds rec w',
          (__init__ env pair_train = Ok ds
           ∧ __getitem__ env (UidStr "u1") (new_world ds (const_rng 7))
             = (Ok ("u1", rec), w'))
          ∧ cache_lookup ds "u1" = None
          ∧ mode ds = "train" ∧ random_crop ds = true).
  { intros (ds & rec & w' & [Hi Hg] & Hc & Hm & Hrc).
    destruct (X16_crop_length env _ _ _ _ _ Hg Hc Hm Hrc)
      as (p & t & data & w1 & lens & m & bound & L & _ & _ & _ & Hb & _ & H1
          & H2 & _).
    exists ds, rec, w', m, bound, L. auto. }
  run.
Defined.

Lemma X17_witness :
  ∃ ds b e w',
    __init__ env pair_train = Ok ds
    ∧ choose_mask 10 (new_world ds (const_rng 7)) = (Ok (Some (b, e)), w')
    ∧ 0 ≤ b ∧ b ≤ e ∧ e ≤ 10.
Proof.
  cut (∃ ds b e w',
          __init__ env pair_train = Ok ds
          ∧ choose_mask 10 (new_world ds (const_rng 7))
            = (Ok (Some (b, e)), w')).
  { intros (ds & b & e & w' & Hi & Hc).
    destruct (X17_mask_span 10 _ _ _ ltac:(lia) Hc)
      as (_ & _ & H0 & H1 & H2 & _).
    exists ds, b, e, w'. auto. }
  run.
Defined.

Lemma X18_witness :
  ∃ ts',
    align_value 5 (Some (1, 3)) None (VNd (ivec [1; 2; 3; 4; 5; 6]))
    = Ok (VNd (mk_ndarray KindI (Node ts')))
    ∧ ts' !! 1%nat = Some (Leaf (SInt 0))
    ∧ ts' !! 4%nat = Some (Leaf (SInt 5)).
Proof.
  destruct (X18_mask_zeroes_span KindI
              (map (λ z, Leaf (SInt z)) [1; 2; 3; 4; 5; 6]) 5 1 3
              ltac:(lia) ltac:(lia) ltac:(lia) ltac:(simpl; lia))
    as (ts' & Hal & _ & Hi).
  exists ts'. split; [exact Hal|]. split.
  - rewrite (Hi 1%nat ltac:(lia)). reflexivity.
  - rewrite (Hi 4%nat ltac:(lia)). reflexivity.
Defined.

Lemma X19_witness :
  ∃ ds e,
    __init__ env svs_mask = Ok ds
    ∧ fst (__getitem__ env (UidStr "u1") (new_world ds (const_rng 7))) = Err e.
Proof.
  cut (∃ ds p t data w1 vs,
          (__init__ env svs_mask = Ok ds
           ∧ assemble env "u1" (new_world ds (const_rng 7))
             = (Ok (p, t, data), w1))
          ∧ od_get data "midi" = Some (VTuple vs)
          ∧ mode ds = "train" ∧ mask_aug ds = true
          ∧ cache_lookup ds "u1" = None
          ∧ not_align ds = ["text"]).
  { intros (ds & p & t & data & w1 & vs & [Hi Ha] & Hd & Hm & Hma & Hc & Hna).
    destruct (X19_mask_needs_arrays env (UidStr "u1")
                (new_world ds (const_rng 7)) w1 "u1" "midi" p t (VTuple vs)
                data Hm Hma eq_refl Hc Ha Hd) as (e & He).
    - simpl. rewrite Hna. reflexivity.
    - reflexivity.
    - exists ds, e. auto. }
  run.
Defined.

(** * Sampling and loading *)

Section Sampling.

Context (E : externals).

(** X20. In training mode the time factor of a sample is [i / 100] for an
    integer [i] with [int(time_aug_min * 100) <= i < int(time_aug_max * 100
    + 1)], and each such [i] is drawn for some state of the random
    generator; the pitch factor is drawn first. *)
Theorem X20_time_factor (uid : string) (w w' : world) (p : Z) (t : pyval) :
  mode (w_self w) = "train" →
  sample_aug E uid w = (Ok (p, t), w') →
  ∃ lo hi tl i w1,
    py_int (time_aug_min (w_self w) * float_of_Z 100)%float = Ok lo
    ∧ py_int (time_aug_max (w_self w) * float_of_Z 100 + float_of_Z 1)%float
      = Ok hi
    ∧ time_list (w_self w) = Ok tl
    ∧ sample_pitch_aug E uid w = (Ok p, w1)
    ∧ lo ≤ i < hi
    ∧ t = VFloat (float_of_Z i / float_of_Z 100)%float
    ∧ ∀ j, lo ≤ j < hi →
        ∃ g w2, sample1 tl (mk_world (w_self w1) g (w_log w1))
                = (Ok (float_of_Z j / float_of_Z 100)%float, w2).
Proof.
  intros Hmode Hs. unfold sample_aug in Hs.
  apply bind_Ok in Hs as (ds & w0 & Hds & Hs).
  apply get_self_Ok in Hds as [-> ->].
  rewrite Hmode in Hs. simpl in Hs.
  apply bind_Ok in Hs as (p0 & w1 & Hp & Hs).
  apply bind_Ok in Hs as (tl & w2 & Htl & Hs).
  apply lift_Ok in Htl as [Htl ->].
  apply bind_Ok in Hs as (t0 & w3 & Ht0 & Hs).
  apply ret_Ok in Hs as [Hs _]. inversion Hs; subst p0 t. clear Hs.
  pose proof Htl as Htl0. unfold time_list in Htl.
  apply rbind_Ok in Htl as (lo & Hlo & Htl).
  apply rbind_Ok in Htl as (hi & Hhi & Htl).
  inversion Htl; subst tl. clear Htl.
  apply sample1_In, in_map_iff in Ht0 as (i & Hi & Hin).
  apply list_elem_of_In in Hin. unfold py_range in Hin.
  apply elem_of_seqZ in Hin.
  exists lo, hi, (map (λ i, (float_of_Z i / float_of_Z 100)%float)
                    (py_range lo hi)), i, w1.
  split; [exact Hlo|]. split; [exact Hhi|]. split; [exact Htl0|].
  split; [exact Hp|]. split; [lia|].
  split; [f_equal; symmetry; exact Hi|].
  intros j Hj. apply sample1_attain.
  apply in_map_iff. exists j. split; [reflexivity|].
  apply list_elem_of_In. unfold py_range. apply elem_of_seqZ. lia.
Qed.

Lemma find_speaker_one (uid : string) (idx : Z) :
  find_speaker uid = (1, idx) →
  0 ≤ idx
  ∧ ∃ tag, speaker_lst !! Z.to_nat idx = Some tag
           ∧ is_substring tag uid = true
           ∧ ∀ j tag', speaker_lst !! j = Some tag' →
                       is_substring tag' uid = true → j = Z.to_nat idx.
Proof.
  unfold find_speaker.
  change (zip _ speaker_lst)
    with [(0, "oniku"); (1, "ofuton"); (2, "kiritan"); (3, "natsume")].
  cbn [fold_left].
  destruct (is_substring "oniku" uid) eqn:H0,
           (is_substring "ofuton" uid) eqn:H1,
           (is_substring "kiritan" uid) eqn:H2,
           (is_substring "natsume" uid) eqn:H3;
    intros H; simpl in H; inversion H; subst idx;
    (split; [lia|]); eexists; (split; [reflexivity|]);
    (split; [assumption|]);
    intros j tag' Hj Hs;
    destruct j as [|[|[|[|j]]]]; simpl in Hj; inversion Hj; subst tag';
    try reflexivity; congruence.
Qed.

(** X21. The pitch-mean target is evaluated as Python source and must give
    a float or a list.  With a list, the gap is only computed when the
    utterance id contains exactly one of the four speaker tags, and the
    target is then the element of the list at the position of that tag.
    When the target evaluates to an integer, the name of the global mean is
    never bound: once the MIDI notes are read and averaged, the computation
    raises [UnboundLocalError]. *)
Theorem X21_pitch_mean_target (uid : string) (w : world) :
  (∀ gap w' target,
     pitch_gap E uid w = (Ok gap, w') →
     py_eval E (pitch_mean (w_self w)) = Ok target →
     (∃ x, target = VFloat x)
     ∨ ∃ means idx tag g,
         target = VList means
         ∧ 0 ≤ idx
         ∧ speaker_lst !! Z.to_nat idx = Some tag
         ∧ is_substring tag uid = true
         ∧ (∀ j tag', speaker_lst !! j = Some tag' →
                      is_substring tag' uid = true → j = Z.to_nat idx)
         ∧ py_index means idx = Ok g)
  ∧ (∀ value note_seq tempo_seq mean z w1,
       query E "midi" (VTuple [VStr uid; VInt 0; VInt 1]) w = (Ok value, w1) →
       unpack2 value = Ok (note_seq, tempo_seq) →
       np_mean E note_seq = Ok mean →
       py_eval E (pitch_mean (w_self w)) = Ok (VInt z) →
       pitch_gap E uid w = (Err UnboundLocalError, w1)).
Proof.
  split.
  - intros gap w' target Hg Hev. unfold pitch_gap in Hg.
    apply bind_Ok in Hg as (ds & w6 & Hds & Hg).
    apply get_self_Ok in Hds as [-> ->].
    apply bind_Ok in Hg as (value & w7 & Hq & Hg).
    apply bind_Ok in Hg as ([note_seq tempo_seq] & w8 & Hu & Hg).
    apply lift_Ok in Hu as [Hu ->].
    apply bind_Ok in Hg as (mean & w8 & Hmean & Hg).
    apply lift_Ok in Hmean as [Hmean ->].
    apply bind_Ok in Hg as (target0 & w8 & Ht & Hg).
    apply lift_Ok in Ht as [Ht ->].
    rewrite Hev in Ht. inversion Ht; subst target0. clear Ht.
    apply bind_Ok in Hg as (gpm & w8 & Hgpm & _).
    destruct target as [| x | | | | | | means |]; try discriminate.
    + left. eauto.
    + right. destruct (find_speaker uid) as [num idx] eqn:Hfs.
      destruct (Z.eqb_spec num 1) as [->|_]; [|discriminate].
      apply lift_Ok in Hgpm as [Hgpm _].
      apply find_speaker_one in Hfs as (Hidx & tag & Htag & Hsub & Huniq).
      exists means, idx, tag, gpm. auto 10.
  - intros value note_seq tempo_seq mean z w1 Hq Hu Hmean Hev.
    unfold pitch_gap, bind, get_self, lift, raise.
    rewrite Hq, Hu, Hmean, Hev. reflexivity.
Qed.

Lemma query_log_any (name : string) (key : pyval) (w : world) :
  w_log (snd (query E name key w)) = w_log w
  ∨ w_log (snd (query E name key w)) = w_log w ++ [EvQuery name key].
Proof.
  unfold query. destruct (od_get _ name) as [l|]; [|left; reflexivity].
  destruct (loader_getitem E l key) as [r l']. right. reflexivity.
Qed.

Lemma bind_quiet_log {A B} (m : M A) (f : A → M B) (w : world) :
  (∀ a, pres quiet (f a)) →
  w_log (snd (bind m f w)) = w_log (snd (m w)).
Proof.
  intros Hf. unfold bind. destruct (m w) as [[a|e] w1]; [|reflexivity].
  apply (Hf a w1).
Qed.

Lemma load_value_log_any (uid : string) (p : Z) (name : string) (w : world) :
  w_log (snd (load_value E uid p name w)) = w_log w
  ∨ w_log (snd (load_value E uid p name w))
    = w_log w ++ [EvQuery name (query_key name uid p)].
Proof.
  unfold load_value. rewrite bind_quiet_log; [apply query_log_any|].
  intros v. pres_tac.
Qed.

(** X22. A call that raises leaves the cache as it was.  Loading stops at
    the first modality whose value cannot be had: the modalities declared
    before it have each been queried once, in order, the failing one has
    been queried at most once, and no loader declared after it is
    queried. *)
Theorem X22_failure_is_contained :
  (∀ uid w e,
     fst (__getitem__ E uid w) = Err e →
     cache (w_self (snd (__getitem__ E uid w))) = cache (w_self w))
  ∧ (∀ uid p names data w e w',
       load_data E uid p names data w = (Err e, w') →
       ∃ pre name post w1,
         names = pre ++ name :: post
         ∧ w_log w1
           = w_log w ++ map (λ n, EvQuery n (query_key n uid p)) pre
         ∧ load_value E uid p name w1 = (Err e, w')
         ∧ (w_log w' = w_log w1
            ∨ w_log w' = w_log w1 ++ [EvQuery name (query_key name uid p)])).
Proof.
  split.
  - intros uid w e He.
    destruct (getitem_cache_step E uid w) as [H|(s & c & rec & Hok & _)];
      [exact H | congruence].
  - intros uid p names. induction names as [|name rest IH];
      intros data w e w' H; simpl in H.
    + discriminate.
    + unfold bind in H.
      destruct (load_value E uid p name w) as [[v|e0] w1] eqn:Hv.
      * apply IH in H as (pre & name' & post & w2 & -> & Hlog & Hfail & Hend).
        exists (name :: pre), name', post, w2.
        split; [reflexivity|]. split; [|auto].
        apply load_value_log in Hv. rewrite Hlog, Hv. simpl.
        rewrite <- app_assoc. reflexivity.
      * inversion H; subst e0 w1. exists [], name, rest, w.
        split; [reflexivity|]. split; [simpl; rewrite app_nil_r; reflexivity|].
        split; [exact Hv|].
        pose proof (load_value_log_any uid p name w) as Hl.
        rewrite Hv in Hl. exact Hl.
Qed.

End Sampling.

Lemma X20_witness :
  ∃ ds p t w' lo hi i,
    __init__ env pair_train = Ok ds
    ∧ sample_aug env "u1" (new_world ds (const_rng 7)) = (Ok (p, t), w')
    ∧ lo = 100 ∧ hi = 111 ∧ lo ≤ i < hi
    ∧ t = VFloat (float_of_Z i / float_of_Z 100)%float.
Proof.
  cut (∃ ds p t w',
          (__init__ env pair_train = Ok ds
           ∧ sample_aug env "u1" (new_world ds (const_rng 7))
             = (Ok (p, t), w'))
          ∧ mode ds = "train"
          ∧ py_int (time_aug_min ds * float_of_Z 100)%float = Ok 100
          ∧ py_int (time_aug_max ds * float_of_Z 100 + float_of_Z 1)%float
            = Ok 111).
  { intros (ds & p & t & w' & [Hi Hs] & Hm & Hlo & Hhi).
    destruct (X20_time_factor env "u1" (new_world ds (const_rng 7)) _ _ _
                Hm Hs)
      as (lo & hi & tl & i & w1 & Hlo' & Hhi' & _ & _ & Hrange & Ht & _).
    assert (H1 : Ok lo = Ok 100) by (rewrite <- Hlo'; exact Hlo).
    assert (H2 : Ok hi = Ok 111) by (rewrite <- Hhi'; exact Hhi).
    inversion H1; inversion H2; subst lo hi.
    exists ds, p, t, w', 100, 111, i. auto 10. }
  run.
Defined.

Lemma X21_witness :
  ∃ ds w1,
    __init__ env svs_int_mean = Ok ds
    ∧ pitch_gap env "u1" (new_world ds (const_rng 3))
      = (Err UnboundLocalError, w1).
Proof.
  cut (∃ ds value note_seq tempo_seq mean w1,
          (__init__ env svs_int_mean = Ok ds
           ∧ query env "midi" (VTuple [VStr "u1"; VInt 0; VInt 1])
               (new_world ds (const_rng 3)) = (Ok value, w1)
           ∧ unpack2 value = Ok (note_seq, tempo_seq)
           ∧ np_mean env note_seq = Ok mean)
          ∧ py_eval env (pitch_mean ds) = Ok (VInt 60)).
  { intros (ds & value & ns & ts & mean & w1 & (Hi & Hq & Hu & Hmean) & Hev).
    exists ds, w1. split; [exact Hi|].
    apply (proj2 (X21_pitch_mean_target env "u1" (new_world ds (const_rng 3)))
             value ns ts mean 60 w1 Hq Hu Hmean Hev). }
  run.
Defined.

Lemma X22_witness :
  ∃ ds e,
    __init__ env pair_cached = Ok ds
    ∧ fst (__getitem__ env (UidStr "u3") (new_world ds (const_rng 7))) = Err e
    ∧ cache (w_self (snd (__getitem__ env (UidStr "u3")
                            (new_world ds (const_rng 7)))))
      = cache ds.
Proof.
  cut (∃ ds e,
          __init__ env pair_cached = Ok ds
          ∧ fst (__getitem__ env (UidStr "u3") (new_world ds (const_rng 7)))
            = Err e).
  { intros (ds & e & Hi & He). exists ds, e.
    split; [exact Hi|]. split; [exact He|].
    apply (proj1 (X22_failure_is_contained env) _ _ _ He). }
  run.
Defined.

(** * The corpus split *)

Lemma str_app_assoc (a b c : string) : (a +:+ b) +:+ c = a +:+ (b +:+ c).
Proof.
  induction a as [|x a IH]; [reflexivity|].
  change (String x ((a +:+ b) +:+ c) = String x (a +:+ (b +:+ c))).
  f_equal. exact IH.
Qed.

Lemma str_app_inj_l (a b b' : string) : a +:+ b = a +:+ b' → b = b'.
Proof.
  induction a as [|x a IH]; [auto|].
  change (String x (a +:+ b) = String x (a +:+ b') → b = b').
  intros H. inversion H. auto.
Qed.

Lemma str_repeat_comm (c : ascii) (n : nat) (s : string) :
  str_repeat (String c "") n +:+ String c s
  = String c (str_repeat (String c "") n +:+ s).
Proof.
  induction n as [|n IH]; [reflexivity|].
  change (String c (str_repeat (String c "") n +:+ String c s)
          = String c (String c (str_repeat (String c "") n +:+ s))).
  f_equal. exact IH.
Qed.

Lemma str_len_cons (c : ascii) (s : string) :
  utf8_start s = true → str_len (String c s) = S (str_len s).
Proof.
  unfold utf8_start, str_len, chars. intros H.
  apply negb_true_iff in H. rewrite !List.length_map.
  change (list_ascii_of_string (String c s))
    with (c :: list_ascii_of_string s).
  rewrite code_points_ascii by exact H. reflexivity.
Qed.

(** Zeros in front of a name count one character each. *)
Lemma str_len_zeros (k : nat) (s : string) :
  utf8_start s = true →
  str_len (str_repeat "0" k +:+ s) = (k + str_len s)%nat
  ∧ utf8_start (str_repeat "0" k +:+ s) = true.
Proof.
  intros H. induction k as [|k [IH1 IH2]].
  - split; [reflexivity | exact H].
  - change (str_repeat "0" (S k) +:+ s)
      with (String "0" (str_repeat "0" k +:+ s)).
    split; [|reflexivity].
    rewrite str_len_cons by exact IH2. rewrite IH1. reflexivity.
Qed.

Lemma pack_zero_length (s : string) (size : Z) :
  utf8_start s = true →
  Z.of_nat (str_len (pack_zero s size)) = Z.max (Z.of_nat (str_len s)) size.
Proof.
  intros H. unfold pack_zero, str_mul. cbv zeta.
  destruct (Z.ltb_spec (Z.of_nat (str_len s)) size); [|lia].
  rewrite (proj1 (str_len_zeros _ s H)). lia.
Qed.

(** X23. [pack_zero] pads a song name on the left with zeros to the width
    [size] and leaves a name of that width or more alone, the width counted
    in characters (code points), not in bytes of the encoding: the result
    has [max(len, size)] characters and ends with the name; padding twice is
    padding once; two names of the same length get different results.
    Names that differ by a leading zero are not told apart: a name shorter
    than [size] and the same name with one more [0] in front get the same
    result.  A name is a str, so its encoding starts a character. *)
Theorem X23_pack_zero (s : string) (size : Z) :
  utf8_start s = true →
  Z.of_nat (str_len (pack_zero s size)) = Z.max (Z.of_nat (str_len s)) size
  ∧ (∃ k, pack_zero s size = str_repeat "0" k +:+ s)
  ∧ pack_zero (pack_zero s size) size = pack_zero s size
  ∧ (∀ s', str_len s' = str_len s →
           pack_zero s' size = pack_zero s size → s' = s)
  ∧ (Z.of_nat (str_len s) < size →
     pack_zero ("0" +:+ s) size = pack_zero s size).
Proof.
  intros Hs.
  split; [apply pack_zero_length, Hs|]. split; [|split; [|split]].
  - unfold pack_zero, str_mul. cbv zeta.
    destruct (_ <? _); [eauto|]. exists 0%nat. reflexivity.
  - pose proof (pack_zero_length s size Hs) as Hlen.
    unfold pack_zero at 1. cbv zeta.
    destruct (Z.ltb_spec (Z.of_nat (str_len (pack_zero s size))) size);
      [lia | reflexivity].
  - intros s' Hlen. unfold pack_zero. cbv zeta. rewrite Hlen.
    destruct (_ <? _); [apply str_app_inj_l | auto].
  - intros Hlt. unfold pack_zero, str_mul. cbv zeta.
    change ("0" +:+ s) with (String "0" s).
    rewrite (str_len_cons "0" s Hs).
    destruct (Z.ltb_spec (Z.of_nat (str_len s)) size); [|lia].
    replace (Z.to_nat (size - Z.of_nat (str_len s)))
      with (S (Z.to_nat (size - Z.of_nat (S (str_len s))))) by lia.
    destruct (Z.ltb_spec (Z.of_nat (S (str_len s))) size).
    + rewrite str_repeat_comm. reflexivity.
    + replace (Z.to_nat (size - Z.of_nat (S (str_len s)))) with 0%nat
        by lia.
      reflexivity.
Qed.

Lemma X23_witness :
  utf8_start "동요" = true
  ∧ pack_zero "동요" 4 = "00동요"
  ∧ Z.of_nat (str_len (pack_zero "동요" 4))
    = Z.max (Z.of_nat (str_len "동요")) 4
  ∧ pack_zero "0동요" 4 = pack_zero "동요" 4.
Proof.
  split; [reflexivity|]. split; [reflexivity|].
  pose proof (X23_pack_zero "동요" 4 eq_refl) as (H1 & _ & _ & _ & H5).
  split; [exact H1|]. apply H5. reflexivity.
Defined.

Lemma prefix_spec (s t : string) :
  String.prefix s t = true ↔ ∃ post, t = s +:+ post.
Proof.
  revert s. induction t as [|c' t IH]; intros s.
  - destruct s as [|c s]; simpl.
    + split; [intros _; exists ""; reflexivity | reflexivity].
    + split; [discriminate|]. intros [post H].
      change (String c s +:+ post) with (String c (s +:+ post)) in H.
      discriminate.
  - destruct s as [|c s]; simpl.
    + split; [intros _; exists (String c' t); reflexivity | reflexivity].
    + destruct (ascii_dec c c') as [->|Hne].
      * rewrite IH. split; intros [post H]; exists post.
        -- rewrite H. reflexivity.
        -- change (String c' s +:+ post) with (String c' (s +:+ post)) in H.
           inversion H. reflexivity.
      * split; [discriminate|]. intros [post H].
        change (String c s +:+ post) with (String c (s +:+ post)) in H.
        inversion H. congruence.
Qed.

Lemma is_substring_spec (s t : string) :
  is_substring s t = true ↔ ∃ pre post, t = pre +:+ s +:+ post.
Proof.
  split.
  - induction t as [|c t IH].
    + cbn [is_substring]. rewrite orb_false_r. intros H.
      apply prefix_spec in H as [post H]. exists "", post. exact H.
    + cbn [is_substring]. intros H. apply orb_true_iff in H as [H|H].
      * apply prefix_spec in H as [post H]. exists "", post. exact H.
      * apply IH in H as (pre & post & ->). exists (String c pre), post.
        reflexivity.
  - intros (pre & post & ->). induction pre as [|c pre IH].
    + assert (H : String.prefix s (s +:+ post) = true).
      { apply prefix_spec. eauto. }
      change ("" +:+ s +:+ post) with (s +:+ post).
      destruct (s +:+ post); cbn [is_substring]; rewrite H; reflexivity.
    + change (String c pre +:+ s +:+ post)
        with (String c (pre +:+ s +:+ post)).
      cbn [is_substring]. rewrite IH. apply orb_true_r.
Qed.

Lemma is_substring_grows (s t pre post : string) :
  is_substring s t = true → is_substring s (pre +:+ t +:+ post) = true.
Proof.
  intros H. apply is_substring_spec in H as (a & b & ->).
  apply is_substring_spec. exists (pre +:+ a), (b +:+ post).
  rewrite !str_app_assoc. reflexivity.
Qed.

(** X24. The three subset checks of the split script look for the song
    numbers anywhere in the name: a song goes to the development set when
    its name contains [046], to the test set when it contains one of [047]
    to [050], and to the training set exactly when neither holds.  A name
    keeps the subsets it is in when characters are added around it, so the
    development and the test set are not disjoint in general. *)
Theorem X24_split_checks (song : string) :
  (dev_check song = true ↔ ∃ pre post, song = pre +:+ "046" +:+ post)
  ∧ (test_check song = true
     ↔ ∃ tag pre post, In tag TEST_LIST ∧ song = pre +:+ tag +:+ post)
  ∧ (train_check song = true
     ↔ dev_check song = false ∧ test_check song = false)
  ∧ (∀ pre post,
       (dev_check song = true → dev_check (pre +:+ song +:+ post) = true)
       ∧ (test_check song = true → test_check (pre +:+ song +:+ post) = true)).
Proof.
  split; [|split; [|split]].
  - unfold dev_check, DEV_LIST. cbn [existsb]. rewrite orb_false_r.
    apply is_substring_spec.
  - unfold test_check. rewrite existsb_exists. split.
    + intros (tag & Hin & H). apply is_substring_spec in H as (pre & post & ->).
      eauto.
    + intros (tag & pre & post & Hin & ->). exists tag. split; [exact Hin|].
      apply is_substring_spec. eauto.
  - unfold train_check. rewrite andb_true_iff, !negb_true_iff. tauto.
  - intros pre post. split.
    + unfold dev_check. rewrite !existsb_exists.
      intros (tag & Hin & H). exists tag. split; [exact Hin|].
      apply is_substring_grows, H.
    + unfold test_check. rewrite !existsb_exists.
      intros (tag & Hin & H). exists tag. split; [exact Hin|].
      apply is_substring_grows, H.
Qed.

(** * What fetching leaves alone *)

Section Readers.

Context (E : externals).

#[local] Instance same_readers_preorder : PreOrder same_readers.
Proof.
  split.
  - intros w. reflexivity.
  - intros a b c H1 H2. unfold same_readers in *. congruence.
Qed.

Lemma loader_getitem_native (l : loader) (key : pyval) :
  loader_native (snd (loader_getitem E l key)) = loader_native l.
Proof.
  destruct l as [n dtype rate | n | n | n]; simpl; try reflexivity.
  destruct (AdapterForSoundScpReader_getitem E n dtype rate key).
  reflexivity.
Qed.

Lemma od_set_readers (d : odict loader) (name : string) (l l' : loader) :
  od_get d name = Some l → loader_native l' = loader_native l →
  map (λ kv, (fst kv, loader_native (snd kv))) (od_set d name l')
  = map (λ kv, (fst kv, loader_native (snd kv))) d.
Proof.
  intros Hget Hn. induction d as [|[k0 v0] d IH]; simpl in *; [discriminate|].
  destruct (String.eqb k0 name); simpl.
  - inversion Hget; subst v0. rewrite Hn. reflexivity.
  - rewrite IH by assumption. reflexivity.
Qed.

Lemma readers_query (name : string) (key : pyval) :
  pres same_readers (query E name key).
Proof.
  intros w. unfold query, same_readers, readers.
  destruct (od_get (loader_dict (w_self w)) name) as [l|] eqn:Hl;
    [|reflexivity].
  pose proof (loader_getitem_native l key) as Hn.
  destruct (loader_getitem E l key) as [r l']. simpl in *.
  eapply od_set_readers; eassumption.
Qed.

Lemma readers_draw : pres same_readers draw.
Proof. intros w. reflexivity. Qed.

Lemma readers_log (ev : event) : pres same_readers (log ev).
Proof. intros w. reflexivity. Qed.

Lemma quiet_readers (w w' : world) : quiet w w' → same_readers w w'.
Proof. intros [H _]. unfold same_readers. rewrite H. reflexivity. Qed.

Ltac readers_tac :=
  repeat first
    [ match goal with |- PreOrder _ => exact _ end
    | apply pres_ret | apply pres_raise | apply pres_lift | apply pres_get_self
    | apply readers_draw | apply readers_log | apply readers_query
    | apply pres_randint | apply pres_sample1
    | apply pres_bind; [ .. | intros ? ]
    | match goal with
      | |- pres _ (match ?x with _ => _ end) => destruct x
      end ].

Lemma readers_load_data (uid : string) (p : Z) (names : list string)
    (data : odict pyval) :
  pres same_readers (load_data E uid p names data).
Proof.
  revert data. induction names as [|name rest IH]; intros data; simpl.
  - readers_tac.
  - apply pres_bind; [exact _ | unfold load_value; readers_tac
                     | intros; apply IH].
Qed.

Lemma readers_assemble (uid : string) : pres same_readers (assemble E uid).
Proof.
  unfold assemble, sample_aug, sample_pitch_aug, pitch_gap, apply_preprocess.
  readers_tac. apply readers_load_data.
Qed.

Lemma readers_getitem (uid : uid_arg) (w : world) :
  readers (w_self (snd (__getitem__ E uid w))) = readers (w_self w).
Proof.
  unfold __getitem__, bind.
  pose proof (resolve_uid_world uid w) as Hr.
  destruct (resolve_uid uid w) as [[s|e] w0]; simpl in Hr; subst w0;
    [|reflexivity].
  unfold get_self.
  destruct (cache_lookup (w_self w) s) as [data|]; [reflexivity|].
  assert (H : readers (w_self (snd (build_record E s w))) = readers (w_self w)).
  { unfold build_record, bind.
    pose proof (readers_assemble s w) as H1. unfold same_readers in H1.
    destruct (assemble E s w) as [[[[p t] data]|e] w1]; simpl in H1;
      [|exact H1].
    pose proof (quiet_align data w1) as [Hs2 _].
    destruct (align data w1) as [[data2|e] w2]; simpl in Hs2;
      [|simpl; rewrite Hs2; exact H1].
    unfold get_self, lift.
    destruct (force_precision E (w_self w2) (attach_aug data2 p t))
      as [rec|e]; [|simpl; rewrite Hs2; exact H1].
    unfold cache_store.
    destruct (cache (w_self w2)) as [c|]; [|simpl; rewrite Hs2; exact H1].
    destruct (Z_lt_num _ _); simpl; [|rewrite Hs2; exact H1].
    unfold readers in *. simpl. rewrite Hs2. exact H1. }
  destruct (build_record E s w) as [[rec|e] w']; exact H.
Qed.

(** X26. Fetching never changes what the dataset reads or what it offers:
    in every reachable state the loaders are filed under the same names and
    read from the same files as after construction, so [names()],
    [has_name] and the ids the dataset iterates over are those of the
    freshly constructed dataset. *)
Theorem X26_interface_is_stable (a : init_args) (w : world) :
  reachable E a w →
  ∃ ds0,
    __init__ E a = Ok ds0
    ∧ readers (w_self w) = readers ds0
    ∧ names (w_self w) = names ds0
    ∧ (∀ n, has_name (w_self w) n = has_name ds0 n)
    ∧ __iter__ (w_self w) = __iter__ ds0.
Proof.
  intros Hreach.
  assert (H : ∃ ds0, __init__ E a = Ok ds0
                     ∧ readers (w_self w) = readers ds0).
  { induction Hreach as [ds g Hinit | w uid g Hreach (ds0 & Hinit & IH)].
    - exists ds. auto.
    - exists ds0. split; [exact Hinit|].
      rewrite readers_getitem. exact IH. }
  destruct H as (ds0 & Hinit & Hr). exists ds0.
  split; [exact Hinit|]. split; [exact Hr|].
  assert (Hk : od_keys (loader_dict (w_self w)) = od_keys (loader_dict ds0)).
  { apply (f_equal (map fst)) in Hr. unfold readers in Hr.
    rewrite !map_map in Hr. exact Hr. }
  split; [exact Hk|]. split.
  - intros n. unfold has_name. apply od_mem_same_keys, Hk.
  - unfold __iter__, od_values, readers in *.
    destruct (loader_dict (w_self w)) as [|[k v] l],
             (loader_dict ds0) as [|[k0 v0] l0]; simpl in *;
      try discriminate; [reflexivity|].
    inversion Hr. unfold loader_keys. congruence.
Qed.

Lemma align_value_kind (m : Z) (mask crop : option (Z * Z)) (v v' : pyval) :
  align_value m mask crop v = Ok v' →
  isinstance_ndarray v' = isinstance_ndarray v
  ∧ isinstance_tuple v' = isinstance_tuple v.
Proof.
  unfold align_value. intros H.
  apply rbind_Ok in H as (v1 & H1 & H).
  apply rbind_Ok in H as (v2 & H2 & H).
  assert (K1 : isinstance_ndarray v1 = isinstance_ndarray v
               ∧ isinstance_tuple v1 = isinstance_tuple v).
  { destruct v as [| | s | | [k [x|ts]] | [k [x|ts]] | vs | vs | k x];
      inversion H1; auto. }
  assert (K2 : isinstance_ndarray v2 = isinstance_ndarray v1
               ∧ isinstance_tuple v2 = isinstance_tuple v1).
  { destruct mask as [[b e]|]; [|inversion H2; auto].
    destruct v1 as [| | s | | [k [x|ts]] | [k [x|ts]] | vs | vs | k x];
      inversion H2; auto. }
  assert (K3 : isinstance_ndarray v' = isinstance_ndarray v2
               ∧ isinstance_tuple v' = isinstance_tuple v2).
  { destruct crop as [[b e]|]; [|inversion H; auto].
    destruct v2 as [| | s | | [k [x|ts]] | [k [x|ts]] | vs | vs | k x];
      inversion H; auto. }
  destruct K1, K2, K3. split; congruence.
Qed.

(** X25. Only arrays and tuples can be returned: when loading and
    preprocessing leave a modality as anything else (a string read from a
    text file, for instance, when no preprocessing function turns it into
    an array), the call does not return a record. *)
Theorem X25_only_arrays_and_tuples (uid : uid_arg) (w w1 : world)
    (s k : string) (p : Z) (t v : pyval) (data : odict pyval) :
  fst (resolve_uid uid w) = Ok s →
  cache_lookup (w_self w) s = None →
  assemble E s w = (Ok (p, t, data), w1) →
  od_get data k = Some v →
  k ≠ "pitch_aug" → k ≠ "time_aug" →
  isinstance_ndarray v || isinstance_tuple v = false →
  ∃ e, fst (__getitem__ E uid w) = Err e.
Proof.
  intros Hr Hmiss Ha Hv Hkp Hkt Hkind.
  destruct (__getitem__ E uid w) as [[[s' rec]|e] w'] eqn:Hget; [|eauto].
  exfalso.
  apply getitem_Ok in Hget as [Hr' [[Hl _]|[_ Hb]]];
    rewrite Hr in Hr'; inversion Hr'; subst s'; [congruence|].
  apply build_record_force in Hb
    as (p' & t' & data' & w1' & data2 & w2 & Ha' & Hal & Hna & _ & _ & Hf).
  rewrite Ha in Ha'. inversion Ha'; subst p' t' data' w1'. clear Ha'.
  apply align_Ok in Hal
    as (lens & m & mask & crop & w3 & _ & _ & _ & _ & Hloop).
  apply rmapM_Forall2 in Hloop.
  pose proof (od_get_Forall2
                (λ (k : string) (v v' : pyval),
                   isinstance_ndarray v' = isinstance_ndarray v
                   ∧ isinstance_tuple v' = isinstance_tuple v)
                data data2 k) as Hrel.
  simpl in Hrel.
  assert (HF : Forall2 (λ kv kv' : string * pyval,
                 fst kv = fst kv'
                 ∧ isinstance_ndarray (snd kv') = isinstance_ndarray (snd kv)
                 ∧ isinstance_tuple (snd kv') = isinstance_tuple (snd kv))
               data data2).
  { eapply Forall2_impl; [exact Hloop|].
    intros kv kv' Hkv. split.
    - symmetry. eapply align_entry_key, Hkv.
    - unfold align_entry in Hkv. destruct (str_in (fst kv) _).
      + inversion Hkv. auto.
      + apply rbind_Ok in Hkv as (v2 & Hv2 & Hkv). inversion Hkv. simpl.
        eapply align_value_kind, Hv2. }
  specialize (Hrel HF). rewrite Hv in Hrel.
  specialize (Hf k Hkp Hkt).
  destruct (od_get data2 k) as [v2|]; [|contradiction].
  destruct Hrel as [Hnd Htu].
  destruct (od_get rec k) as [v'|]; [|contradiction].
  unfold force_value in Hf. rewrite Hnd, Htu, Hkind in Hf. discriminate.
Qed.

End Readers.

Lemma X26_witness :
  ∃ ds,
    __init__ env pair_cached = Ok ds
    ∧ names (w_self (snd (__getitem__ env (UidStr "u1")
                            (new_world ds (const_rng 7)))))
      = ["singing"; "feats"]
    ∧ __iter__ (w_self (snd (__getitem__ env (UidStr "u1")
                               (new_world ds (const_rng 7)))))
      = Ok ["u1"; "u2"].
Proof.
  cut (∃ ds, __init__ env pair_cached = Ok ds
             ∧ names ds = ["singing"; "feats"]
             ∧ __iter__ ds = Ok ["u1"; "u2"]).
  { intros (ds & Hi & Hn & Hit).
    destruct (X26_interface_is_stable env pair_cached _
                (reach_step env pair_cached _ (UidStr "u1") (const_rng 7)
                   (reach_init env pair_cached ds (const_rng 7) Hi)))
      as (ds0 & Hi0 & _ & Hn0 & _ & Hit0).
    rewrite Hi in Hi0. inversion Hi0; subst ds0.
    exists ds. split; [exact Hi|].
    split; [rewrite <- Hn; exact Hn0 | rewrite <- Hit; exact Hit0]. }
  run.
Defined.

Lemma X25_witness :
  ∃ ds e,
    __init__ env_text (defaults with_text) = Ok ds
    ∧ fst (__getitem__ env_text (UidStr "u1") (new_world ds (const_rng 7)))
      = Err e.
Proof.
  cut (∃ ds p t data w1 txt,
          (__init__ env_text (defaults with_text) = Ok ds
           ∧ assemble env_text "u1" (new_world ds (const_rng 7))
             = (Ok (p, t, data), w1))
          ∧ od_get data "text" = Some (VStr txt)
          ∧ cache_lookup ds "u1" = None).
  { intros (ds & p & t & data & w1 & txt & [Hi Ha] & Hd & Hc).
    destruct (X25_only_arrays_and_tuples env_text (UidStr "u1")
                (new_world ds (const_rng 7)) w1 "u1" "text" p t (VStr txt)
                data eq_refl Hc Ha Hd ltac:(discriminate) ltac:(discriminate)
                eq_refl) as (e & He).
    exists ds, e. auto. }
  run.
Defined.

Lemma X1_witness :
  ∃ v,
    AdapterForSoundScpReader_getitem env sound_scp (Some "float32") None
      (VTuple [VStr "u2"; VInt 0; VInt 1])
    = (Ok v, Some (VInt 16000))
    ∧ isinstance_ndarray v || isinstance_list v = true
    ∧ snd (AdapterForSoundScpReader_getitem env sound_scp (Some "float32")
             (Some (VInt 16000)) (VStr "u2"))
      = Some (VInt 16000).
Proof.
  cut (∃ v,
          AdapterForSoundScpReader_getitem env sound_scp (Some "float32") None
            (VTuple [VStr "u2"; VInt 0; VInt 1])
          = (Ok v, Some (VInt 16000))).
  { intros (v & Hv).
    destruct (X1_sound_rate_invariant env sound_scp (Some "float32"))
      as (Hkeep & Hok & _).
    destruct (Hok _ _ _ _ Hv) as [Hkind _].
    exists v. split; [exact Hv|]. split; [exact Hkind | apply Hkeep]. }
  run.
Defined.

Lemma X2_witness :
  AdapterForSoundScpReader_getitem env sound_scp (Some "float32") None
    (VStr "u1")
  = (Err ValueError, None)
  ∧ AdapterForMIDIScpReader_getitem midi_scp (VStr "あ") = Err ValueError
  ∧ AdapterForMIDIScpReader_getitem midi_scp (VStr "あいう")
    = AdapterForMIDIScpReader_getitem midi_scp
        (VTuple [VStr "あ"; VStr "い"; VStr "う"]).
Proof.
  split; [|split].
  - apply (proj1 (X2_bare_id_unpacked env sound_scp (Some "float32") None)
             "u1" ltac:(discriminate)).
  - apply (proj1 (X2_bare_id_unpacked env midi_scp None None)
             "あ" ltac:(discriminate)).
  - apply (proj1 (proj2 (X2_bare_id_unpacked env midi_scp None None))
             "あいう" "あ" "い" "う" eq_refl).
Defined.

Lemma X3_witness :
  (∃ note tempo,
     AdapterForMIDIScpReader_getitem midi_scp
       (VTuple [VStr "u2"; VInt 2; VInt 1])
     = Ok (VTuple [VNd note; VNd tempo]))
  ∧ AdapterForMIDIScpReader_getitem
      (mk_native ["u1"] (λ _, Ok (VNd (ivec [60; 62]))))
      (VTuple [VStr "u1"; VInt 0; VInt 1])
    = Err UnexpectedType.
Proof.
  split.
  - cut (∃ v,
            AdapterForMIDIScpReader_getitem midi_scp
              (VTuple [VStr "u2"; VInt 2; VInt 1]) = Ok v).
    { intros (v & Hv).
      destruct (proj1 (proj1 (X3_midi_adapter_result midi_scp _) v) Hv)
        as (k & p & t & retval & note & tempo & _ & _ & _ & Hres).
      exists note, tempo. rewrite Hv, Hres. reflexivity. }
    run.
  - apply (proj2 (X3_midi_adapter_result _ _)
             (VStr "u1") (VInt 0) (VInt 1) KindI (SInt 60) (SInt 62));
      reflexivity.
Defined.

Lemma X5_witness :
  _build_loader env "float32" "wav.scp" "sound_16k"
  = Ok (AdapterForSoundScpReader sound_scp (Some "float32") None)
  ∧ _build_loader env "float32" "wav.scp" "wave"
    = Err (NotSupportedLoaderType "wave").
Proof.
  split.
  - exact (proj1 (X5_registry_dispatch env "float32" "wav.scp") "_16k").
  - apply (proj2 (proj2 (proj2 (proj2 (proj2 (proj2 (proj2
             (X5_registry_dispatch env "float32" "wav.scp")))))))).
    reflexivity.
Defined.
